(** * MainThreadTextEditors: the main-thread side of the text-editor bridge

    A shallow embedding of [src/vs/workbench/api/browser/mainThreadEditors.ts].

    The class keeps three pieces of private state (the per-editor listener
    bundles, the last position data sent and the set of decoration types it
    registered), talks to the extension host through [_proxy] and reads the
    workbench through a handful of services.  The methods are embedded as
    functions that pass the bridge object and the host state explicitly.

    Objects the bridge only holds references to (code editors, diff editors)
    are references into a store of the host; event subscriptions are entries of
    the host's listener list and an [IDisposable] is the handle of an entry.

    The command [_workbench.revertAllDirty], registered after the class, is
    embedded on its own.  The completion-spec declarations of the second
    source file (interfaces and a class with nothing but a constructor) take
    no part in what follows. *)

From Stdlib Require Import Ascii.
From stdpp Require Import gmap strings list pretty.

Open Scope Z_scope.
Local Open Scope list_scope.

(** ** Plain data of the protocol *)

Definition URI := string.
Definition EditorGroupColumn := Z.
Definition GroupIdentifier := Z.

Record IRange := {
  startLineNumber : Z;
  startColumn : Z;
  endLineNumber : Z;
  endColumn : Z
}.

Record ISelection := {
  selectionStartLineNumber : Z;
  selectionStartColumn : Z;
  positionLineNumber : Z;
  positionColumn : Z
}.

Record ISingleEditOperation := {
  edit_range : IRange;
  edit_text : option string;
  edit_forceMoveMarkers : bool
}.

Record IChange := {
  originalStartLineNumber : Z;
  originalEndLineNumber : Z;
  modifiedStartLineNumber : Z;
  modifiedEndLineNumber : Z
}.

Record LineRange := {
  lr_startLineNumber : Z;
  lr_endLineNumberExclusive : Z
}.

Record LineRangeMapping := {
  lrm_original : LineRange;
  lrm_modified : LineRange
}.

(** [ITextEditorChange]: original start, original end (exclusive), modified
    start, modified end (exclusive). *)
Definition ITextEditorChange := (Z * Z * Z * Z)%type.

Record ITextEditorDiffInformation := {
  documentVersion : Z;
  di_original : URI;
  di_modified : URI;
  di_changes : list ITextEditorChange
}.

Global Instance ITextEditorDiffInformation_eq_dec : EqDecision ITextEditorDiffInformation.
Proof. solve_decision. Defined.

(** [ITextEditorPositionData]: an object created with [Object.create(null)]
    and used as a map from editor id to column. *)
Abbreviation ITextEditorPositionData := (gmap string EditorGroupColumn).

Record ITextEditorConfigurationUpdate := {
  upd_tabSize : option Z;
  upd_insertSpaces : option bool;
  upd_cursorStyle : option Z;
  upd_lineNumbers : option Z
}.

Record IEditorPropertiesChangeData := {
  pc_options : option ITextEditorConfigurationUpdate;
  pc_selections : option (list ISelection);
  pc_visibleRanges : option (list IRange)
}.

(** ** The workbench objects the bridge reads *)

Record ITextModel := {
  tm_uri : URI;
  tm_versionId : Z;
  (** the edit operations executed on the model so far, newest first; the
      text itself is not needed *)
  tm_editLog : list ISingleEditOperation
}.

(** What [getModel()] of an editor surface returns: a text model for a plain
    code editor, a pair of them for a diff editor ([isITextModel] tells them
    apart). *)
Inductive EditorModel :=
  | TextModel (m : ITextModel)
  | DiffEditorModel (original modified : ITextModel).

Definition isITextModel (m : EditorModel) : bool :=
  match m with TextModel _ => true | DiffEditorModel _ _ => false end.

Definition CodeEditorRef := nat.
Definition DiffEditorRef := nat.

Record ICodeEditor := {
  ce_getId : string;
  ce_getModel : option ITextModel;
  (** [getContribution('editor.contrib.dirtydiff')] and, when it exists, what
      its [getChanges()] returns *)
  ce_dirtydiff : option (list IChange)
}.

Record IDiffEditor := {
  de_originalId : string;            (* getOriginalEditor().getId() *)
  de_modifiedId : string;            (* getModifiedEditor().getId() *)
  de_getModel : option (ITextModel * ITextModel);
  de_changes2 : option (list LineRangeMapping);  (* getDiffComputationResult()?.changes2 *)
  de_getLineChanges : option (list IChange)
}.

Record QuickDiff := {
  qd_label : string;
  qd_isSCM : bool;
  qd_originalResource : URI
}.

Record QuickDiffChange := {
  qdc_label : string;
  qdc_change : IChange
}.

Record DirtyDiffModel := {
  ddm_quickDiffs : list QuickDiff;
  ddm_changes : list QuickDiffChange
}.

Record IEditorPane := {
  pane_control : option CodeEditorRef;
  pane_group : GroupIdentifier;
  pane_input : string
}.

Record IDecorationOptions := {
  deco_range : IRange;
  deco_hoverMessage : option string
}.

Record IDecorationRenderOptions := {
  dro_backgroundColor : option string;
  dro_isWholeLine : bool
}.

Inductive TextEditorRevealType := Default | InCenter | InCenterIfOutsideViewport | AtTop.

Inductive Decorations :=
  | DecorationOptions (ranges : list IDecorationOptions)
  | DecorationsFast (ranges : list Z).

Record IApplyEditsOptions := {
  opt_undoStopBefore : bool;
  opt_undoStopAfter : bool;
  opt_setEndOfLine : option Z
}.

Record ITextDocumentShowOptions := {
  show_position : option EditorGroupColumn;
  show_preserveFocus : option bool;
  show_pinned : option bool;
  show_selection : option IRange
}.

Inductive EditorActivation := ACTIVATE | RESTORE | PRESERVE.

Inductive EditorResolution := PICK | EXCLUSIVE_ONLY.

Record ITextEditorOptions := {
  preserveFocus : option bool;
  pinned : option bool;
  selection : option IRange;
  activation : option EditorActivation;
  override : option EditorResolution
}.

Record IUndoStopOptions := {
  undoStopBefore : bool;
  undoStopAfter : bool
}.

(** Modelled from the spec: the class [MainThreadTextEditor] of
    [mainThreadEditor.ts] is not part of the sources at hand.  The spec's
    command table says what each of its methods does: set selections
    "replaces the editor's selection ranges", set decorations "applies
    decoration ranges under a session-namespaced key", reveal range
    "reveals a given range under a reveal-type policy", set options "applies
    a configuration update to the editor", apply edits "applies a list of
    edit operations conditioned on an expected model version; returns whether
    the edits were applied", insert snippet "inserts a template at given
    ranges under undo-stop options; returns success flag". *)
Record MainThreadTextEditor := {
  te_getId : string;
  te_getModel : ITextModel;
  te_getCodeEditor : option CodeEditorRef;
  te_selections : list ISelection;
  te_decorations : gmap string Decorations;
  te_revealed : option (IRange * TextEditorRevealType);
  te_configuration : list ITextEditorConfigurationUpdate  (* updates applied, newest first *)
}.

Module MainThreadTextEditor.

Definition setSelections (selections : list ISelection) (e : MainThreadTextEditor) : MainThreadTextEditor :=
  {| te_getId := te_getId e; te_getModel := te_getModel e; te_getCodeEditor := te_getCodeEditor e;
     te_selections := selections;
     te_decorations := te_decorations e; te_revealed := te_revealed e;
     te_configuration := te_configuration e |}.

Definition setDecorations (key : string) (ranges : Decorations) (e : MainThreadTextEditor) : MainThreadTextEditor :=
  {| te_getId := te_getId e; te_getModel := te_getModel e; te_getCodeEditor := te_getCodeEditor e;
     te_selections := te_selections e;
     te_decorations := <[key := ranges]> (te_decorations e);
     te_revealed := te_revealed e;
     te_configuration := te_configuration e |}.

Definition revealRange (range : IRange) (revealType : TextEditorRevealType) (e : MainThreadTextEditor) : MainThreadTextEditor :=
  {| te_getId := te_getId e; te_getModel := te_getModel e; te_getCodeEditor := te_getCodeEditor e;
     te_selections := te_selections e; te_decorations := te_decorations e;
     te_revealed := Some (range, revealType);
     te_configuration := te_configuration e |}.

Definition setConfiguration (options : ITextEditorConfigurationUpdate) (e : MainThreadTextEditor) : MainThreadTextEditor :=
  {| te_getId := te_getId e; te_getModel := te_getModel e; te_getCodeEditor := te_getCodeEditor e;
     te_selections := te_selections e; te_decorations := te_decorations e;
     te_revealed := te_revealed e;
     te_configuration := options :: te_configuration e |}.

Definition setModel (m : ITextModel) (e : MainThreadTextEditor) : MainThreadTextEditor :=
  {| te_getId := te_getId e; te_getModel := m; te_getCodeEditor := te_getCodeEditor e;
     te_selections := te_selections e; te_decorations := te_decorations e;
     te_revealed := te_revealed e;
     te_configuration := te_configuration e |}.

(** Modelled from the spec: executing edit operations on a text model (the
    editor model is not part of the sources at hand); the operations are
    recorded and the version counter moves on, so that an expected version
    goes "stale". *)
Definition pushEditOperations (edits : list ISingleEditOperation) (m : ITextModel) : ITextModel :=
  {| tm_uri := tm_uri m;
     tm_versionId := tm_versionId m + 1;
     tm_editLog := rev_append edits (tm_editLog m) |}.

(** Modelled from the spec: [MainThreadTextEditor.applyEdits], "applies a
    list of edit operations conditioned on an expected model version; returns
    whether the edits were applied"; "version mismatch → returns false, not
    an error", and then it "does not mutate the model". *)
Definition applyEdits (versionIdCheck : Z) (edits : list ISingleEditOperation)
    (opts : IApplyEditsOptions) (e : MainThreadTextEditor) : bool * MainThreadTextEditor :=
  if bool_decide (tm_versionId (te_getModel e) = versionIdCheck)
  then (true, setModel (pushEditOperations edits (te_getModel e)) e)
  else (false, e).

(** Modelled from the spec: [MainThreadTextEditor.insertSnippet], "inserts a
    template at given ranges under undo-stop options; returns success flag".
    The expected model version it is given is taken to condition it as it
    does the edits. *)
Definition insertSnippet (modelVersionId : Z) (template : string) (ranges : list IRange)
    (opts : IUndoStopOptions) (e : MainThreadTextEditor) : bool * MainThreadTextEditor :=
  if bool_decide (tm_versionId (te_getModel e) = modelVersionId)
  then (true,
        setModel (pushEditOperations
                    ((fun r => {| edit_range := r; edit_text := Some template;
                                  edit_forceMoveMarkers := false |}) <$> ranges)
                    (te_getModel e)) e)
  else (false, e).

End MainThreadTextEditor.

(** ** Promises

    [illegalArgument(name)] of [base/common/errors.ts], [new Error(msg)], and
    whatever else a service rejects with.  A promise is taken when it has
    settled. *)
Inductive Error :=
  | illegalArgument (name : string)
  | new_Error (message : string).

Inductive Promise (A : Type) :=
  | Promise_resolve (value : A)
  | Promise_reject (reason : Error).
Arguments Promise_resolve {A} value.
Arguments Promise_reject {A} reason.

(** ** The host: services, locator and the peer *)

(** Everything of the workbench that the bridge reads or drives.  The
    helpers [editorGroupToColumn], [columnToEditorGroup]
    ([editorGroupColumn.ts]), [lineRangeMappingFromChanges]
    ([rangeMapping.ts]) and [MainThreadTextEditor.matches] are not part of the
    sources at hand and are left open as fields, as is how the promises of
    [openEditor] and of [closeEditor] settle (either may be rejected).  A
    pane's [pane_control] is the code editor that
    [getCodeEditor(editorPane.getControl())] finds, if any.

    A [MainThreadTextEditor] fires [onPropertiesChanged] by itself while a
    command changes it; the class is not part of the sources at hand, so
    the events it fires when a command takes it from one state to another
    are left open as the field [propertiesChanges]. *)
Record Env := {
  (* IMainThreadEditorLocator *)
  getEditor : gmap string MainThreadTextEditor;
  findTextEditorIdFor : IEditorPane -> option string;
  getIdOfCodeEditor : CodeEditorRef -> option string;
  (* IEditorService, IEditorGroupsService *)
  visibleEditorPanes : list IEditorPane;
  openEditorResult : URI -> GroupIdentifier -> Promise (option IEditorPane);
  closeEditorResult : GroupIdentifier -> string -> option Error;  (* the rejection, if any *)
  editorGroupToColumn : GroupIdentifier -> EditorGroupColumn;
  columnToEditorGroup : option EditorGroupColumn -> GroupIdentifier;
  matches : MainThreadTextEditor -> IEditorPane -> bool;
  (* ICodeEditorService: the editor surfaces *)
  codeEditor : CodeEditorRef -> ICodeEditor;
  diffEditor : DiffEditorRef -> IDiffEditor;
  listDiffEditors : list DiffEditorRef;
  (* IDirtyDiffModelService *)
  getOrCreateModel : URI -> option DirtyDiffModel;
  lineRangeMappingFromChanges : list IChange -> list LineRangeMapping;
  (* MainThreadTextEditor.onPropertiesChanged *)
  propertiesChanges : MainThreadTextEditor -> MainThreadTextEditor -> list IEditorPropertiesChangeData
}.

Definition set_getEditor (f : gmap string MainThreadTextEditor -> gmap string MainThreadTextEditor)
    (env : Env) : Env :=
  {| getEditor := f (getEditor env);
     findTextEditorIdFor := findTextEditorIdFor env;
     getIdOfCodeEditor := getIdOfCodeEditor env;
     visibleEditorPanes := visibleEditorPanes env;
     openEditorResult := openEditorResult env;
     closeEditorResult := closeEditorResult env;
     editorGroupToColumn := editorGroupToColumn env;
     columnToEditorGroup := columnToEditorGroup env;
     matches := matches env;
     codeEditor := codeEditor env;
     diffEditor := diffEditor env;
     listDiffEditors := listDiffEditors env;
     getOrCreateModel := getOrCreateModel env;
     lineRangeMappingFromChanges := lineRangeMappingFromChanges env;
     propertiesChanges := propertiesChanges env |}.

(** The three notifications of [ExtHostEditorsShape]. *)
Inductive ExtHostEditorsCall :=
  | acceptEditorPropertiesChanged (id : string) (data : IEditorPropertiesChangeData)
  | acceptEditorDiffInformation (id : string) (diffInformation : option ITextEditorDiffInformation)
  | acceptEditorPositionData (data : ITextEditorPositionData).

(** What [_getTextEditorDiffInformation] returns: the constant observable for
    an editor without a code editor, otherwise the derived observable, which
    has captured the code editor and the diff editor found for it (if any). *)
Inductive DiffInformationObs :=
  | constObservable_undefined
  | derivedDiffInformation (codeEditor : CodeEditorRef) (diffEditor : option DiffEditorRef).

(** The callbacks the bridge registers. *)
Inductive Listener :=
  | onDidVisibleEditorsChange
  | onDidRemoveGroup
  | onDidMoveGroup
  | onPropertiesChanged (id : string)
  | autorunDiffInformation (id : string) (obs : DiffInformationObs)
      (value : option ITextEditorDiffInformation).

Global Instance DiffInformationObs_eq_dec : EqDecision DiffInformationObs.
Proof. solve_decision. Defined.

Global Instance Listener_eq_dec : EqDecision Listener.
Proof. solve_decision. Defined.

Record Subscription := {
  sub_disposable : nat;     (* the IDisposable returned to the subscriber *)
  sub_owner : string;       (* _instanceId of the bridge whose callback it is *)
  sub_listener : Listener
}.

Inductive EditorRequest :=
  | openEditor (resource : URI) (options : ITextEditorOptions) (group : GroupIdentifier)
  | closeEditor (group : GroupIdentifier) (input : string).

Record Host := {
  INSTANCE_COUNT : N;                       (* MainThreadTextEditors.INSTANCE_COUNT *)
  listeners : list Subscription;            (* live subscriptions, oldest first *)
  nextDisposable : nat;
  decorationTypes : gmap string (string * IDecorationRenderOptions);
  editorRequests : list EditorRequest;      (* calls made on the editor service, oldest first *)
  env : Env
}.

Definition set_listeners (f : list Subscription -> list Subscription) (h : Host) : Host :=
  {| INSTANCE_COUNT := INSTANCE_COUNT h; listeners := f (listeners h);
     nextDisposable := nextDisposable h; decorationTypes := decorationTypes h;
     editorRequests := editorRequests h; env := env h |}.

Definition set_decorationTypes
    (f : gmap string (string * IDecorationRenderOptions) -> gmap string (string * IDecorationRenderOptions))
    (h : Host) : Host :=
  {| INSTANCE_COUNT := INSTANCE_COUNT h; listeners := listeners h;
     nextDisposable := nextDisposable h; decorationTypes := f (decorationTypes h);
     editorRequests := editorRequests h; env := env h |}.

Definition set_editorRequests (f : list EditorRequest -> list EditorRequest) (h : Host) : Host :=
  {| INSTANCE_COUNT := INSTANCE_COUNT h; listeners := listeners h;
     nextDisposable := nextDisposable h; decorationTypes := decorationTypes h;
     editorRequests := f (editorRequests h); env := env h |}.

Definition set_env (f : Env -> Env) (h : Host) : Host :=
  {| INSTANCE_COUNT := INSTANCE_COUNT h; listeners := listeners h;
     nextDisposable := nextDisposable h; decorationTypes := decorationTypes h;
     editorRequests := editorRequests h; env := f (env h) |}.

(** *** Subscriptions and disposables

    Modelled from the spec: [Emitter], [autorun] and [dispose] of
    [base/common] are not part of the sources at hand.  Subscribing returns a
    disposable and keeps the callback registered until the disposable is
    released ("subscriptions ... created when the editor is registered ... and
    torn down when the editor is deregistered"); releasing an absent bundle
    is a no-op. *)
Definition subscribe (owner : string) (l : Listener) (h : Host) : nat * Host :=
  (nextDisposable h,
   {| INSTANCE_COUNT := INSTANCE_COUNT h;
      listeners := listeners h ++
        [{| sub_disposable := nextDisposable h; sub_owner := owner; sub_listener := l |}];
      nextDisposable := S (nextDisposable h);
      decorationTypes := decorationTypes h;
      editorRequests := editorRequests h; env := env h |}).

Definition unsubscribe (d : nat) (ls : list Subscription) : list Subscription :=
  filter (fun s => sub_disposable s ≠ d) ls.

(** [dispose(arg)] of [lifecycle.ts] on an array of disposables, or on
    [undefined]. *)
Definition dispose_all (ds : option (list nat)) (h : Host) : Host :=
  match ds with
  | None => h
  | Some ds => set_listeners (fun ls => foldl (fun ls d => unsubscribe d ls) ls ds) h
  end.

Record DisposableStore := {
  store_toDispose : list nat;
  store_isDisposed : bool
}.

Definition DisposableStore_dispose (s : DisposableStore) (h : Host) : DisposableStore * Host :=
  if store_isDisposed s then (s, h)
  else ({| store_toDispose := []; store_isDisposed := true |},
        dispose_all (Some (store_toDispose s)) h).

(** *** The rendering service's decoration types

    Modelled from the spec: the implementation of [ICodeEditorService] is not
    part of the sources at hand; the spec has it "register/remove decoration
    types", entries being "added on registration and removed on explicit
    unregister". *)
Definition registerDecorationType (description key : string) (options : IDecorationRenderOptions)
    (h : Host) : Host :=
  set_decorationTypes (insert key (description, options)) h.

Definition removeDecorationType (key : string) (h : Host) : Host :=
  set_decorationTypes (delete key) h.

(** ** The bridge *)

Record MainThreadTextEditors := {
  _instanceId : string;
  _proxy : list ExtHostEditorsCall;          (* calls made on the proxy, oldest first *)
  _toDispose : DisposableStore;
  _textEditorsListenersMap : gmap string (list nat);
  _editorPositionData : option ITextEditorPositionData;
  _registeredDecorationTypes : gmap string bool
}.

Definition send (c : ExtHostEditorsCall) (this : MainThreadTextEditors) : MainThreadTextEditors :=
  {| _instanceId := _instanceId this; _proxy := _proxy this ++ [c];
     _toDispose := _toDispose this;
     _textEditorsListenersMap := _textEditorsListenersMap this;
     _editorPositionData := _editorPositionData this;
     _registeredDecorationTypes := _registeredDecorationTypes this |}.

Definition set_toDispose (s : DisposableStore) (this : MainThreadTextEditors) : MainThreadTextEditors :=
  {| _instanceId := _instanceId this; _proxy := _proxy this;
     _toDispose := s;
     _textEditorsListenersMap := _textEditorsListenersMap this;
     _editorPositionData := _editorPositionData this;
     _registeredDecorationTypes := _registeredDecorationTypes this |}.

Definition set_textEditorsListenersMap (m : gmap string (list nat)) (this : MainThreadTextEditors)
    : MainThreadTextEditors :=
  {| _instanceId := _instanceId this; _proxy := _proxy this;
     _toDispose := _toDispose this;
     _textEditorsListenersMap := m;
     _editorPositionData := _editorPositionData this;
     _registeredDecorationTypes := _registeredDecorationTypes this |}.

Definition set_editorPositionData (d : option ITextEditorPositionData) (this : MainThreadTextEditors)
    : MainThreadTextEditors :=
  {| _instanceId := _instanceId this; _proxy := _proxy this;
     _toDispose := _toDispose this;
     _textEditorsListenersMap := _textEditorsListenersMap this;
     _editorPositionData := d;
     _registeredDecorationTypes := _registeredDecorationTypes this |}.

Definition set_registeredDecorationTypes (m : gmap string bool) (this : MainThreadTextEditors)
    : MainThreadTextEditors :=
  {| _instanceId := _instanceId this; _proxy := _proxy this;
     _toDispose := _toDispose this;
     _textEditorsListenersMap := _textEditorsListenersMap this;
     _editorPositionData := _editorPositionData this;
     _registeredDecorationTypes := m |}.

(** [String(++MainThreadTextEditors.INSTANCE_COUNT)]: the counter is a JS
    number holding a small non-negative integer, printed in decimal. *)
Definition constructor (h : Host) : MainThreadTextEditors * Host :=
  let count := (INSTANCE_COUNT h + 1)%N in
  let id := pretty count in
  let h := {| INSTANCE_COUNT := count; listeners := listeners h;
              nextDisposable := nextDisposable h; decorationTypes := decorationTypes h;
              editorRequests := editorRequests h; env := env h |} in
  let '(d1, h) := subscribe id onDidVisibleEditorsChange h in
  let '(d2, h) := subscribe id onDidRemoveGroup h in
  let '(d3, h) := subscribe id onDidMoveGroup h in
  ({| _instanceId := id; _proxy := [];
      _toDispose := {| store_toDispose := [d1; d2; d3]; store_isDisposed := false |};
      _textEditorsListenersMap := ∅;
      _editorPositionData := None;
      _registeredDecorationTypes := ∅ |}, h).

(** [`${this._instanceId}-${key}`] *)
Definition namespaced (this : MainThreadTextEditors) (key : string) : string :=
  _instanceId this +:+ "-" +:+ key.

(** *** Position data *)

(** Modelled from the spec: [equals] of [base/common/objects.ts] is not part
    of the sources at hand; the spec calls it deep (structural, by value)
    equality.  The first argument may be [null]. *)
Definition objectEquals (one other : option ITextEditorPositionData) : bool :=
  bool_decide (one = other).

(** [if (id)] on a [string | undefined]: the empty string is falsy too. *)
Definition truthy (id : option string) : option string :=
  match id with
  | Some id => if bool_decide (id = "") then None else Some id
  | None => None
  end.

Definition _getTextEditorPositionData (env : Env) : ITextEditorPositionData :=
  foldl (fun result editorPane =>
           match truthy (findTextEditorIdFor env editorPane) with
           | Some id => <[id := editorGroupToColumn env (pane_group editorPane)]> result
           | None => result
           end)
        ∅ (visibleEditorPanes env).

Definition _updateActiveAndVisibleTextEditors (env : Env) (this : MainThreadTextEditors)
    : MainThreadTextEditors :=
  let editorPositionData := _getTextEditorPositionData env in
  if negb (objectEquals (_editorPositionData this) (Some editorPositionData))
  then send (acceptEditorPositionData editorPositionData)
            (set_editorPositionData (Some editorPositionData) this)
  else this.

(** *** Diff information *)

Record EditorChanges := {
  ec_original : URI;
  ec_modified : URI;
  ec_changes : list LineRangeMapping
}.

(** [const [diffEditor] = diffEditors.filter(d => ...)] *)
Definition findDiffEditor (env : Env) (codeEditorId : string) : option DiffEditorRef :=
  head (filter (fun d => de_originalId (diffEditor env d) = codeEditorId
                         ∨ de_modifiedId (diffEditor env d) = codeEditorId)
               (listDiffEditors env)).

Definition _getTextEditorDiffInformation (env : Env) (textEditor : MainThreadTextEditor)
    : DiffInformationObs :=
  match te_getCodeEditor textEditor with
  | None => constObservable_undefined
  | Some c => derivedDiffInformation c (findDiffEditor env (ce_getId (codeEditor env c)))
  end.

Definition editorModelObs (env : Env) (c : CodeEditorRef) (d : option DiffEditorRef)
    : option EditorModel :=
  match d with
  | Some d => (fun p => DiffEditorModel p.1 p.2) <$> de_getModel (diffEditor env d)
  | None => TextModel <$> ce_getModel (codeEditor env c)
  end.

Definition editorChangesObs (env : Env) (d : option DiffEditorRef) (editorModel : option EditorModel)
    : option EditorChanges :=
  match editorModel with
  | None => None
  | Some (DiffEditorModel original modified) =>
      (* only a diff editor hands out such a model *)
      match d with
      | Some d =>
          Some {| ec_original := tm_uri original;
                  ec_modified := tm_uri modified;
                  ec_changes := default [] (de_changes2 (diffEditor env d)) |}
      | None => None
      end
  | Some (TextModel m) =>
      match getOrCreateModel env (tm_uri m) with
      | None => None
      | Some dirtyDiffModel =>
          match List.find qd_isSCM (ddm_quickDiffs dirtyDiffModel) with
          | None => None
          | Some scmQuickDiff =>
              let changes :=
                qdc_change <$> filter (fun change => qdc_label change = qd_label scmQuickDiff)
                                      (ddm_changes dirtyDiffModel) in
              Some {| ec_original := qd_originalResource scmQuickDiff;
                      ec_modified := tm_uri m;
                      ec_changes := lineRangeMappingFromChanges env changes |}
          end
      end
  end.

Definition toTextEditorChange (change : LineRangeMapping) : ITextEditorChange :=
  (lr_startLineNumber (lrm_original change),
   lr_endLineNumberExclusive (lrm_original change),
   lr_startLineNumber (lrm_modified change),
   lr_endLineNumberExclusive (lrm_modified change)).

(** The compute function of the [derivedOpts] observable. *)
Definition diffInformation (env : Env) (c : CodeEditorRef) (d : option DiffEditorRef)
    : option ITextEditorDiffInformation :=
  let editorModel := editorModelObs env c d in
  let editorChanges := editorChangesObs env d editorModel in
  match editorModel, editorChanges with
  | Some editorModel, Some editorChanges =>
      Some {| documentVersion :=
                match editorModel with
                | TextModel m => tm_versionId m
                | DiffEditorModel _ modified => tm_versionId modified
                end;
              di_original := ec_original editorChanges;
              di_modified := ec_modified editorChanges;
              di_changes := toTextEditorChange <$> ec_changes editorChanges |}
  | _, _ => None
  end.

Definition read (env : Env) (obs : DiffInformationObs) : option ITextEditorDiffInformation :=
  match obs with
  | constObservable_undefined => None
  | derivedDiffInformation c d => diffInformation env c d
  end.

(** Modelled from the spec: [isTextEditorDiffInformationEqual] of
    [platform/editor/common/editor.ts] is not part of the sources at hand; the
    spec has it "structural, ignoring object identity". *)
Definition isTextEditorDiffInformationEqual (diff1 diff2 : option ITextEditorDiffInformation) : bool :=
  bool_decide (diff1 = diff2).

(** *** Lifecycle *)

Definition handleTextEditorAdded (textEditor : MainThreadTextEditor)
    (this : MainThreadTextEditors) (h : Host) : MainThreadTextEditors * Host :=
  let id := te_getId textEditor in
  let '(d1, h) := subscribe (_instanceId this) (onPropertiesChanged id) h in
  let diffInformationObs := _getTextEditorDiffInformation (env h) textEditor in
  (* an autorun runs once when it is created *)
  let diffInformation := read (env h) diffInformationObs in
  let this := send (acceptEditorDiffInformation id diffInformation) this in
  let '(d2, h) :=
    subscribe (_instanceId this) (autorunDiffInformation id diffInformationObs diffInformation) h in
  (set_textEditorsListenersMap (<[id := [d1; d2]]> (_textEditorsListenersMap this)) this, h).

Definition handleTextEditorRemoved (id : string)
    (this : MainThreadTextEditors) (h : Host) : MainThreadTextEditors * Host :=
  let h := dispose_all (_textEditorsListenersMap this !! id) h in
  (set_textEditorsListenersMap (delete id (_textEditorsListenersMap this)) this, h).

Definition dispose (this : MainThreadTextEditors) (h : Host) : MainThreadTextEditors * Host :=
  let h := foldl (fun h editorId => dispose_all (_textEditorsListenersMap this !! editorId) h)
                 h (map_to_list (_textEditorsListenersMap this)).*1 in
  let this := set_textEditorsListenersMap ∅ this in
  let '(store, h) := DisposableStore_dispose (_toDispose this) h in
  let this := set_toDispose store this in
  let h := foldl (fun h decorationType => removeDecorationType decorationType h)
                 h (map_to_list (_registeredDecorationTypes this)).*1 in
  (set_registeredDecorationTypes ∅ this, h).

(** *** Events of the host

    What the workbench can make happen: one of the three emitters the
    constructor subscribed to fires, a text editor fires
    [onPropertiesChanged], or something the diff information depends on
    changes and the reactive graph is brought up to date. *)
Inductive HostEvent :=
  | VisibleEditorsChanged
  | GroupRemoved
  | GroupMoved
  | PropertiesChanged (id : string) (data : IEditorPropertiesChangeData)
  | DiffInformationInvalidated.

(** Modelled from the spec: [derivedOpts] and [autorun] of
    [base/common/observable] are not part of the sources at hand; the diff
    information is "Recomputed reactively; pushed to the peer on every
    recomputation that is not equal (by a custom comparison function) to the
    previous value".  The other cases are the callbacks as written in the
    constructor and in [handleTextEditorAdded]. *)
Definition deliver (ev : HostEvent) (env : Env) (s : Subscription) (this : MainThreadTextEditors)
    : Subscription * MainThreadTextEditors :=
  match ev, sub_listener s with
  | VisibleEditorsChanged, onDidVisibleEditorsChange
  | GroupRemoved, onDidRemoveGroup
  | GroupMoved, onDidMoveGroup =>
      (s, _updateActiveAndVisibleTextEditors env this)
  | PropertiesChanged editor data, onPropertiesChanged id =>
      if bool_decide (editor = id)
      then (s, send (acceptEditorPropertiesChanged id data) this)
      else (s, this)
  | DiffInformationInvalidated, autorunDiffInformation id obs value =>
      let diffInformation := read env obs in
      if isTextEditorDiffInformationEqual value diffInformation
      then (s, this)
      else ({| sub_disposable := sub_disposable s; sub_owner := sub_owner s;
               sub_listener := autorunDiffInformation id obs diffInformation |},
            send (acceptEditorDiffInformation id diffInformation) this)
  | _, _ => (s, this)
  end.

(** The callbacks of [this] run in the order in which they were registered. *)
Fixpoint notify (ev : HostEvent) (env : Env) (ls : list Subscription) (this : MainThreadTextEditors)
    : list Subscription * MainThreadTextEditors :=
  match ls with
  | [] => ([], this)
  | s :: ls =>
      let '(s', this) :=
        if bool_decide (sub_owner s = _instanceId this) then deliver ev env s this else (s, this) in
      let '(ls', this) := notify ev env ls this in
      (s' :: ls', this)
  end.

Definition fire (ev : HostEvent) (this : MainThreadTextEditors) (h : Host)
    : MainThreadTextEditors * Host :=
  let '(ls, this) := notify ev (env h) (listeners h) this in
  (this, set_listeners (fun _ => ls) h).

(** *** Commands from the extension host *)

(** The editor objects are mutated in place; here the changed editor is put
    back where the locator found it. *)
Definition store (id : string) (editor : MainThreadTextEditor) (h : Host) : Host :=
  set_env (set_getEditor (insert id editor)) h.

Definition tryShowTextDocument (resource : URI) (options : ITextDocumentShowOptions) (h : Host)
    : Promise (option string) * Host :=
  let uri := resource in
  let editorOptions :=
    {| preserveFocus := show_preserveFocus options;
       pinned := show_pinned options;
       selection := show_selection options;
       activation := if default false (show_preserveFocus options) then Some RESTORE else None;
       override := Some EXCLUSIVE_ONLY |} in
  let group := columnToEditorGroup (env h) (show_position options) in
  let h' := set_editorRequests (fun rs => rs ++ [openEditor uri editorOptions group]) h in
  (* [await this._editorService.openEditor(...)] *)
  match openEditorResult (env h) uri group with
  | Promise_reject e => (Promise_reject e, h')
  | Promise_resolve None => (Promise_resolve None, h')
  | Promise_resolve (Some editor) =>
      match pane_control editor with
      | Some codeEditor => (Promise_resolve (getIdOfCodeEditor (env h) codeEditor), h')
      | None => (Promise_resolve None, h')
      end
  end.

Definition tryShowEditor (id : string) (position : option EditorGroupColumn) (h : Host)
    : Promise unit * Host :=
  match getEditor (env h) !! id with
  | Some mainThreadEditor =>
      let model := te_getModel mainThreadEditor in
      let group := columnToEditorGroup (env h) position in
      let h' :=
        set_editorRequests
          (fun rs => rs ++ [openEditor (tm_uri model)
                              {| preserveFocus := Some false; pinned := None; selection := None;
                                 activation := None; override := None |}
                              group]) h in
      (* [await this._editorService.openEditor(...)] *)
      match openEditorResult (env h) (tm_uri model) group with
      | Promise_reject e => (Promise_reject e, h')
      | Promise_resolve _ => (Promise_resolve (), h')
      end
  | None => (Promise_resolve (), h)
  end.

Definition tryHideEditor (id : string) (h : Host) : Promise unit * Host :=
  match getEditor (env h) !! id with
  | Some mainThreadEditor =>
      match List.find (matches (env h) mainThreadEditor) (visibleEditorPanes (env h)) with
      | Some editorPane =>
          let h' :=
            set_editorRequests
              (fun rs => rs ++ [closeEditor (pane_group editorPane) (pane_input editorPane)]) h in
          (* [await editorPane.group.closeEditor(editorPane.input)] *)
          match closeEditorResult (env h) (pane_group editorPane) (pane_input editorPane) with
          | Some e => (Promise_reject e, h')
          | None => (Promise_resolve (), h')
          end
      | None => (Promise_resolve (), h)
      end
  | None => (Promise_resolve (), h)
  end.

Definition trySetSelections (id : string) (selections : list ISelection) (h : Host)
    : Promise unit * Host :=
  match getEditor (env h) !! id with
  | None => (Promise_reject (illegalArgument ("TextEditor(" +:+ id +:+ ")")), h)
  | Some editor =>
      (Promise_resolve (), store id (MainThreadTextEditor.setSelections selections editor) h)
  end.

Definition trySetDecorations (id key : string) (ranges : list IDecorationOptions)
    (this : MainThreadTextEditors) (h : Host) : Promise unit * Host :=
  let key := namespaced this key in
  match getEditor (env h) !! id with
  | None => (Promise_reject (illegalArgument ("TextEditor(" +:+ id +:+ ")")), h)
  | Some editor =>
      (Promise_resolve (),
       store id (MainThreadTextEditor.setDecorations key (DecorationOptions ranges) editor) h)
  end.

Definition trySetDecorationsFast (id key : string) (ranges : list Z)
    (this : MainThreadTextEditors) (h : Host) : Promise unit * Host :=
  let key := namespaced this key in
  match getEditor (env h) !! id with
  | None => (Promise_reject (illegalArgument ("TextEditor(" +:+ id +:+ ")")), h)
  | Some editor =>
      (Promise_resolve (),
       store id (MainThreadTextEditor.setDecorations key (DecorationsFast ranges) editor) h)
  end.

Definition tryRevealRange (id : string) (range : IRange) (revealType : TextEditorRevealType)
    (h : Host) : Promise unit * Host :=
  match getEditor (env h) !! id with
  | None => (Promise_reject (illegalArgument ("TextEditor(" +:+ id +:+ ")")), h)
  | Some editor =>
      (Promise_resolve (), store id (MainThreadTextEditor.revealRange range revealType editor) h)
  end.

Definition trySetOptions (id : string) (options : ITextEditorConfigurationUpdate) (h : Host)
    : Promise unit * Host :=
  match getEditor (env h) !! id with
  | None => (Promise_reject (illegalArgument ("TextEditor(" +:+ id +:+ ")")), h)
  | Some editor =>
      (Promise_resolve (), store id (MainThreadTextEditor.setConfiguration options editor) h)
  end.

Definition tryApplyEdits (id : string) (modelVersionId : Z) (edits : list ISingleEditOperation)
    (opts : IApplyEditsOptions) (h : Host) : Promise bool * Host :=
  match getEditor (env h) !! id with
  | None => (Promise_reject (illegalArgument ("TextEditor(" +:+ id +:+ ")")), h)
  | Some editor =>
      let '(applied, editor) := MainThreadTextEditor.applyEdits modelVersionId edits opts editor in
      (Promise_resolve applied, store id editor h)
  end.

Definition tryInsertSnippet (id : string) (modelVersionId : Z) (template : string)
    (ranges : list IRange) (opts : IUndoStopOptions) (h : Host) : Promise bool * Host :=
  match getEditor (env h) !! id with
  | None => (Promise_reject (illegalArgument ("TextEditor(" +:+ id +:+ ")")), h)
  | Some editor =>
      let '(inserted, editor) :=
        MainThreadTextEditor.insertSnippet modelVersionId template ranges opts editor in
      (Promise_resolve inserted, store id editor h)
  end.

Definition registerTextEditorDecorationType (extensionId key : string)
    (options : IDecorationRenderOptions) (this : MainThreadTextEditors) (h : Host)
    : MainThreadTextEditors * Host :=
  let key := namespaced this key in
  (set_registeredDecorationTypes (<[key := true]> (_registeredDecorationTypes this)) this,
   registerDecorationType ("exthost-api-" +:+ extensionId) key options h).

Definition removeTextEditorDecorationType (key : string)
    (this : MainThreadTextEditors) (h : Host) : MainThreadTextEditors * Host :=
  let key := namespaced this key in
  (set_registeredDecorationTypes (delete key (_registeredDecorationTypes this)) this,
   removeDecorationType key h).

Definition getDiffInformation (id : string) (h : Host) : Promise (list IChange) :=
  match getEditor (env h) !! id with
  | None => Promise_reject (new_Error "No such TextEditor")
  | Some editor =>
      match te_getCodeEditor editor with
      | None => Promise_reject (new_Error "No such CodeEditor")
      | Some c =>
          let codeEditorId := ce_getId (codeEditor (env h) c) in
          match findDiffEditor (env h) codeEditorId with
          | Some d =>
              Promise_resolve (default [] (de_getLineChanges (diffEditor (env h) d)))
          | None =>
              match ce_dirtydiff (codeEditor (env h) c) with
              | Some changes => Promise_resolve changes
              | None => Promise_resolve []
              end
          end
      end
  end.

(** ** Runs of the bridge *)

Inductive Command :=
  | TryShowTextDocument (resource : URI) (options : ITextDocumentShowOptions)
  | TryShowEditor (id : string) (position : option EditorGroupColumn)
  | TryHideEditor (id : string)
  | TrySetSelections (id : string) (selections : list ISelection)
  | TrySetDecorations (id key : string) (ranges : list IDecorationOptions)
  | TrySetDecorationsFast (id key : string) (ranges : list Z)
  | TryRevealRange (id : string) (range : IRange) (revealType : TextEditorRevealType)
  | TrySetOptions (id : string) (options : ITextEditorConfigurationUpdate)
  | TryApplyEdits (id : string) (modelVersionId : Z) (edits : list ISingleEditOperation)
      (opts : IApplyEditsOptions)
  | TryInsertSnippet (id : string) (modelVersionId : Z) (template : string)
      (ranges : list IRange) (opts : IUndoStopOptions)
  | RegisterTextEditorDecorationType (extensionId key : string) (options : IDecorationRenderOptions)
  | RemoveTextEditorDecorationType (key : string)
  | GetDiffInformation (id : string).

(** What the method of a command does itself: the bridge object changes for
    the two decoration-type commands only. *)
Definition command (c : Command) (this : MainThreadTextEditors) (h : Host)
    : MainThreadTextEditors * Host :=
  match c with
  | TryShowTextDocument resource options => (this, (tryShowTextDocument resource options h).2)
  | TryShowEditor id position => (this, (tryShowEditor id position h).2)
  | TryHideEditor id => (this, (tryHideEditor id h).2)
  | TrySetSelections id selections => (this, (trySetSelections id selections h).2)
  | TrySetDecorations id key ranges => (this, (trySetDecorations id key ranges this h).2)
  | TrySetDecorationsFast id key ranges => (this, (trySetDecorationsFast id key ranges this h).2)
  | TryRevealRange id range revealType => (this, (tryRevealRange id range revealType h).2)
  | TrySetOptions id options => (this, (trySetOptions id options h).2)
  | TryApplyEdits id v edits opts => (this, (tryApplyEdits id v edits opts h).2)
  | TryInsertSnippet id v template ranges opts =>
      (this, (tryInsertSnippet id v template ranges opts h).2)
  | RegisterTextEditorDecorationType extensionId key options =>
      registerTextEditorDecorationType extensionId key options this h
  | RemoveTextEditorDecorationType key => removeTextEditorDecorationType key this h
  | GetDiffInformation id => (this, h)
  end.

(** The handle a command resolves through the locator before it does
    anything to an editor. *)
Definition editorOf (c : Command) : option string :=
  match c with
  | TrySetSelections id _ | TrySetDecorations id _ _ | TrySetDecorationsFast id _ _
  | TryRevealRange id _ _ | TrySetOptions id _ | TryApplyEdits id _ _ _
  | TryInsertSnippet id _ _ _ _ => Some id
  | _ => None
  end.

(** The [onPropertiesChanged] events of the editor a command works on: the
    editor fires them while its method runs, so the callbacks that
    [handleTextEditorAdded] put on it run before the command returns. *)
Definition propertiesFired (c : Command) (h h' : Host)
    : list (string * IEditorPropertiesChangeData) :=
  match editorOf c with
  | Some id =>
      match getEditor (env h) !! id, getEditor (env h') !! id with
      | Some editor, Some editor' =>
          (fun data => (te_getId editor, data)) <$> propertiesChanges (env h) editor editor'
      | _, _ => []
      end
  | None => []
  end.

(** A command as the bridge goes through it: the method, and the callbacks
    of the bridge on the events the editor fires meanwhile. *)
Definition call (c : Command) (this : MainThreadTextEditors) (h : Host)
    : MainThreadTextEditors * Host :=
  let w := command c this h in
  foldl (fun w ev => fire (PropertiesChanged ev.1 ev.2) w.1 w.2) w (propertiesFired c h w.2).

(** What the workbench does on its own: it changes what its services answer,
    or one of its events fires. *)
Inductive WorkbenchStep :=
  | Changed (env' : Env)
  | Fired (ev : HostEvent).

Inductive Op :=
  | HandleTextEditorAdded (textEditor : MainThreadTextEditor)
  | HandleTextEditorRemoved (id : string)
  | Dispose
  | Workbench (s : WorkbenchStep)
  | Call (c : Command).

Definition workbench (s : WorkbenchStep) (this : MainThreadTextEditors) (h : Host)
    : MainThreadTextEditors * Host :=
  match s with
  | Changed env' => (this, set_env (fun _ => env') h)
  | Fired ev => fire ev this h
  end.

Definition step (w : MainThreadTextEditors * Host) (op : Op) : MainThreadTextEditors * Host :=
  match op with
  | HandleTextEditorAdded textEditor => handleTextEditorAdded textEditor w.1 w.2
  | HandleTextEditorRemoved id => handleTextEditorRemoved id w.1 w.2
  | Dispose => dispose w.1 w.2
  | Workbench s => workbench s w.1 w.2
  | Call c => call c w.1 w.2
  end.

Definition run (ops : list Op) (w : MainThreadTextEditors * Host) : MainThreadTextEditors * Host :=
  foldl step w ops.

(** ** Notions used to state the properties *)

(** The position data the peer has been sent, oldest first, and the last of
    them. *)
Definition positionsSent (log : list ExtHostEditorsCall) : list ITextEditorPositionData :=
  omap (fun c => match c with acceptEditorPositionData d => Some d | _ => None end) log.

Definition lastPositionSent (log : list ExtHostEditorsCall) : option ITextEditorPositionData :=
  last (positionsSent log).

Definition isPositionTrigger (ev : HostEvent) : bool :=
  match ev with
  | VisibleEditorsChanged | GroupRemoved | GroupMoved => true
  | _ => false
  end.

(** The spec's rule for position data, written as a function of what the
    workbench does: "sent if and only if the newly computed mapping differs
    (by structural equality) from the last one sent". *)
Fixpoint position_updates (lastSent : option ITextEditorPositionData) (env : Env)
    (steps : list WorkbenchStep) : list ITextEditorPositionData :=
  match steps with
  | [] => []
  | Changed env' :: steps => position_updates lastSent env' steps
  | Fired ev :: steps =>
      if isPositionTrigger ev then
        let computed := _getTextEditorPositionData env in
        if decide (lastSent = Some computed)
        then position_updates lastSent env steps
        else computed :: position_updates (Some computed) env steps
      else position_updates lastSent env steps
  end.

(** The listener that the constructor put on the emitter of a trigger. *)
Definition listenerOf (ev : HostEvent) : Listener :=
  match ev with
  | GroupRemoved => onDidRemoveGroup
  | GroupMoved => onDidMoveGroup
  | _ => onDidVisibleEditorsChange
  end.

(** A subscription is the same one up to the value its autorun holds. *)
Definition sameListener (l l' : Listener) : Prop :=
  match l, l' with
  | autorunDiffInformation id obs _, autorunDiffInformation id' obs' _ => id = id' ∧ obs = obs'
  | _, _ => l = l'
  end.

Definition sameSubscription (s s' : Subscription) : Prop :=
  sub_disposable s = sub_disposable s' ∧ sub_owner s = sub_owner s'
  ∧ sameListener (sub_listener s) (sub_listener s').

(** The bridge still has a callback on each of the three emitters. *)
Definition listening (l : Listener) (this : MainThreadTextEditors) (h : Host) : bool :=
  bool_decide (Exists (fun s => sub_owner s = _instanceId this ∧ sub_listener s = l) (listeners h)).

Definition subscribed (this : MainThreadTextEditors) (h : Host) : bool :=
  listening onDidVisibleEditorsChange this h
  && listening onDidRemoveGroup this h
  && listening onDidMoveGroup this h.

(** The visible panes whose handle, as the locator gives it, is [id] and
    passes the test [if (id)]. *)
Definition panesOf (env : Env) (id : string) : list IEditorPane :=
  filter (fun editorPane => truthy (findTextEditorIdFor env editorPane) = Some id)
         (visibleEditorPanes env).

(** "An entry exactly for those currently visible editor panes for which the
    locator resolves a handle", read literally. *)
Definition entryForEveryResolvedPane (env : Env) : Prop :=
  ∀ id, is_Some (_getTextEditorPositionData env !! id)
        ↔ ∃ editorPane, editorPane ∈ visibleEditorPanes env
                        ∧ findTextEditorIdFor env editorPane = Some id.

(** No ["-"] occurs in the string. *)
Fixpoint noDash (s : string) : bool :=
  match s with
  | EmptyString => true
  | String c s => negb (Ascii.eqb c "-"%char) && noDash s
  end.

(** The disposables held in the listener bundles, and those a store has yet
    to release. *)
Definition bundleDisposables (this : MainThreadTextEditors) : list nat :=
  map_to_list (_textEditorsListenersMap this) ≫= snd.

Definition pending (s : DisposableStore) : list nat :=
  if store_isDisposed s then [] else store_toDispose s.

(** The editor whose notifications a callback forwards, and the calls that
    carry the notifications of an editor. *)
Definition listenedEditor (l : Listener) : option string :=
  match l with
  | onPropertiesChanged id | autorunDiffInformation id _ _ => Some id
  | _ => None
  end.

Definition forwardsFor (id : string) (c : ExtHostEditorsCall) : bool :=
  match c with
  | acceptEditorPropertiesChanged id' _ | acceptEditorDiffInformation id' _ => bool_decide (id' = id)
  | acceptEditorPositionData _ => false
  end.

Definition forwardedFor (id : string) (log : list ExtHostEditorsCall) : list ExtHostEditorsCall :=
  filter (fun c => forwardsFor id c = true) log.

Definition ownListenerFor (id : string) (this : MainThreadTextEditors) (s : Subscription) : Prop :=
  sub_owner s = _instanceId this ∧ listenedEditor (sub_listener s) = Some id.

(** No callback of the bridge forwards for [id] any more. *)
Definition silent (id : string) (this : MainThreadTextEditors) (h : Host) : Prop :=
  Forall (fun s => ¬ ownListenerFor id this s) (listeners h).

(** Every callback of the bridge that forwards for an editor is held in the
    bundle of that editor: the spec's "no handle may have two bundles
    simultaneously", a bundle dropped by a second [handleTextEditorAdded] for
    the same handle being one whose callbacks are no longer held. *)
Definition bundlesComplete (this : MainThreadTextEditors) (h : Host) : bool :=
  forallb (fun s =>
             if bool_decide (sub_owner s = _instanceId this) then
               match listenedEditor (sub_listener s) with
               | Some id =>
                   bool_decide (sub_disposable s ∈ default [] (_textEditorsListenersMap this !! id))
               | None => true
               end
             else true)
          (listeners h).

(** The same for one handle: every callback of the bridge that forwards for
    [id] is held in the bundle of [id], whatever holds of the other
    handles. *)
Definition bundleHolds (id : string) (this : MainThreadTextEditors) (h : Host) : bool :=
  forallb (fun s =>
             if bool_decide (sub_owner s = _instanceId this
                             ∧ listenedEditor (sub_listener s) = Some id)
             then bool_decide (sub_disposable s ∈ default [] (_textEditorsListenersMap this !! id))
             else true)
          (listeners h).

Definition addsEditor (id : string) (op : Op) : bool :=
  match op with
  | HandleTextEditorAdded textEditor => bool_decide (te_getId textEditor = id)
  | _ => false
  end.

(** The protocol of the spec's data model: an editor is only added under a
    handle that has no bundle at that moment. *)
Definition freshHandle (this : MainThreadTextEditors) (op : Op) : bool :=
  match op with
  | HandleTextEditorAdded textEditor =>
      bool_decide (_textEditorsListenersMap this !! te_getId textEditor = None)
  | _ => true
  end.

(** The diff information the peer has been sent for an editor, oldest first,
    and the autoruns of the bridge that forward it (observable and the value
    the observable holds). *)
Definition diffsSent (id : string) (log : list ExtHostEditorsCall)
    : list (option ITextEditorDiffInformation) :=
  omap (fun c => match c with
                 | acceptEditorDiffInformation id' d => if bool_decide (id' = id) then Some d else None
                 | _ => None
                 end) log.

Definition lastDiffSent (id : string) (log : list ExtHostEditorsCall)
    : option (option ITextEditorDiffInformation) :=
  last (diffsSent id log).

Definition autorunOf (id owner : string) (s : Subscription)
    : option (DiffInformationObs * option ITextEditorDiffInformation) :=
  if bool_decide (sub_owner s = owner) then
    match sub_listener s with
    | autorunDiffInformation id' obs value => if bool_decide (id' = id) then Some (obs, value) else None
    | _ => None
    end
  else None.

Definition autorunsFor (id : string) (this : MainThreadTextEditors) (h : Host)
    : list (DiffInformationObs * option ITextEditorDiffInformation) :=
  omap (autorunOf id (_instanceId this)) (listeners h).

(** The spec's rule for diff information, written as a function of what the
    workbench does: a recomputed value is forwarded when it "is not equal (by
    a custom comparison function) to the previous value", and not
    otherwise. *)
Fixpoint diff_updates (obs : DiffInformationObs) (previous : option ITextEditorDiffInformation)
    (env : Env) (steps : list WorkbenchStep) : list (option ITextEditorDiffInformation) :=
  match steps with
  | [] => []
  | Changed env' :: steps => diff_updates obs previous env' steps
  | Fired DiffInformationInvalidated :: steps =>
      let recomputed := read env obs in
      if isTextEditorDiffInformationEqual previous recomputed
      then diff_updates obs previous env steps
      else recomputed :: diff_updates obs recomputed env steps
  | Fired _ :: steps => diff_updates obs previous env steps
  end.

(** What an invalidation makes of an autorun: the value it holds afterwards
    and what it forwards. *)
Definition refreshed (env : Env) (a : DiffInformationObs * option ITextEditorDiffInformation)
    : DiffInformationObs * option ITextEditorDiffInformation :=
  (a.1, read env a.1).

Definition forwarded (env : Env) (a : DiffInformationObs * option ITextEditorDiffInformation)
    : list (option ITextEditorDiffInformation) :=
  if isTextEditorDiffInformationEqual a.2 (read env a.1) then [] else [read env a.1].

(** "A recomputed diff-information value is forwarded to the peer only if it
    is not equal ... to the previously forwarded value", read literally:
    whatever the workbench does, no value forwarded for the editor meanwhile
    equals the one forwarded just before it. *)
Definition forwardsOnlyChanges (id : string) (w : MainThreadTextEditors * Host) : Prop :=
  ∀ (steps : list WorkbenchStep) (i : nat) (a b : option ITextEditorDiffInformation),
    let sent := diffsSent id (_proxy (run (Workbench <$> steps) w).1) in
    (length (diffsSent id (_proxy w.1)) ≤ S i)%nat →
    sent !! i = Some a → sent !! S i = Some b →
    isTextEditorDiffInformationEqual a b = false.

(** "Dispose releases every listener bundle", read literally: no callback
    that [handleTextEditorAdded] registered for the bridge is left once the
    bridge is disposed. *)
Definition releasesEveryBundle (w : MainThreadTextEditors * Host) : Prop :=
  Forall (fun s => ¬ (sub_owner s = _instanceId w.1 ∧ is_Some (listenedEditor (sub_listener s))))
         (listeners (dispose w.1 w.2).2).

(** "After the editor-removed operation is invoked for that handle, no further
    property-changed or diff-information notifications are ever forwarded to
    the peer for that handle", read literally: from any state and whatever
    comes after the removal. *)
Definition silentOnceRemoved (id : string) (w : MainThreadTextEditors * Host) : Prop :=
  ∀ ops : list Op,
    forwardedFor id (_proxy (run ops (handleTextEditorRemoved id w.1 w.2)).1)
    = forwardedFor id (_proxy w.1).

(** ** A small workbench

    Two visible panes A and B in columns 1 and 2, two editors known to the
    locator: [e1] shown in pane A with its model at version 6 and a quick
    diff from source control, and [e2] which no pane shows. *)
Module Sample.

Definition paneA : IEditorPane :=
  {| pane_control := Some 1%nat; pane_group := 10; pane_input := "a.ts" |}.

Definition paneB : IEditorPane :=
  {| pane_control := Some 2%nat; pane_group := 20; pane_input := "b.ts" |}.

Definition model (version : Z) : ITextModel :=
  {| tm_uri := "file:///a.ts"; tm_versionId := version; tm_editLog := [] |}.

Definition e1 : MainThreadTextEditor :=
  {| te_getId := "e1"; te_getModel := model 6; te_getCodeEditor := Some 1%nat;
     te_selections := []; te_decorations := ∅; te_revealed := None;
     te_configuration := [] |}.

Definition e2 : MainThreadTextEditor :=
  {| te_getId := "e2"; te_getModel := model 6; te_getCodeEditor := Some 7%nat;
     te_selections := []; te_decorations := ∅; te_revealed := None;
     te_configuration := [] |}.

Definition e3 : MainThreadTextEditor :=
  {| te_getId := "e3"; te_getModel := model 6; te_getCodeEditor := None;
     te_selections := []; te_decorations := ∅; te_revealed := None;
     te_configuration := [] |}.

Definition change : IChange :=
  {| originalStartLineNumber := 3; originalEndLineNumber := 4;
     modifiedStartLineNumber := 3; modifiedEndLineNumber := 5 |}.

Definition quickDiffs : DirtyDiffModel :=
  {| ddm_quickDiffs := [{| qd_label := "Git"; qd_isSCM := true;
                           qd_originalResource := "git:/a.ts" |}];
     ddm_changes := [{| qdc_label := "Git"; qdc_change := change |};
                     {| qdc_label := "Other"; qdc_change := change |}] |}.

Definition toLineRangeMapping (c : IChange) : LineRangeMapping :=
  {| lrm_original := {| lr_startLineNumber := originalStartLineNumber c;
                        lr_endLineNumberExclusive := originalEndLineNumber c + 1 |};
     lrm_modified := {| lr_startLineNumber := modifiedStartLineNumber c;
                        lr_endLineNumberExclusive := modifiedEndLineNumber c + 1 |} |}.

(** The workbench with the model of the code editors at [version], the
    locator answering [handleOfB] for pane B, and the diff editors
    [diffEditors] listed. *)
Definition workbench (version : Z) (handleOfB : option string) (diffEditors : list DiffEditorRef)
    : Env :=
  {| getEditor := {[ "e1" := e1; "e2" := e2; "e3" := e3 ]};
     findTextEditorIdFor := fun editorPane =>
       if bool_decide (pane_input editorPane = "a.ts") then Some "A" else handleOfB;
     getIdOfCodeEditor := fun c => if bool_decide (c = 1%nat) then Some "e1" else None;
     visibleEditorPanes := [paneA; paneB];
     openEditorResult := fun uri group =>
       if bool_decide (uri = "file:///a.ts") then Promise_resolve (Some paneA)
       else if bool_decide (uri = "file:///gone.ts") then Promise_reject (new_Error "Unable to open")
       else Promise_resolve None;
     closeEditorResult := fun group input =>
       if bool_decide (group = 20) then Some (new_Error "Unable to close") else None;
     editorGroupToColumn := fun group => group `div` 10;
     columnToEditorGroup := fun column => default 0 column * 10;
     matches := fun editor editorPane =>
       bool_decide (pane_control editorPane = te_getCodeEditor editor);
     codeEditor := fun c =>
       {| ce_getId := pretty c; ce_getModel := Some (model version);
          ce_dirtydiff := if bool_decide (c = 1%nat) then Some [change] else None |};
     diffEditor := fun d =>
       {| de_originalId := "7"; de_modifiedId := "8";
          de_getModel := Some (model 1, model version);
          de_changes2 := None; de_getLineChanges := None |};
     listDiffEditors := diffEditors;
     getOrCreateModel := fun uri => Some quickDiffs;
     lineRangeMappingFromChanges := fmap toLineRangeMapping;
     propertiesChanges := fun editor editor' =>
       match te_selections editor' with
       | [] => []
       | selections =>
           [{| pc_options := None; pc_selections := Some selections; pc_visibleRanges := None |}]
       end |}.

Definition host : Host :=
  {| INSTANCE_COUNT := 0; listeners := []; nextDisposable := 0;
     decorationTypes := ∅; editorRequests := [];
     env := workbench 6 (Some "B") [] |}.

(** A bridge on that host, and the same after [e1] has been added. *)
Definition fresh : MainThreadTextEditors * Host := constructor host.

Definition withE1 : MainThreadTextEditors * Host :=
  handleTextEditorAdded e1 fresh.1 fresh.2.

Definition properties : IEditorPropertiesChangeData :=
  {| pc_options := None; pc_selections := Some []; pc_visibleRanges := None |}.

(** The same workbench with three diff editors open: diff editor 4 shows
    other code editors, diff editor 5 has the code editor of [e2] (id ["7"])
    on its modified side and one line change, diff editor 6 has it on its
    original side and no line changes computed yet. *)
Definition lineChange : IChange :=
  {| originalStartLineNumber := 1; originalEndLineNumber := 1;
     modifiedStartLineNumber := 1; modifiedEndLineNumber := 2 |}.

Definition diffView (d : DiffEditorRef) : IDiffEditor :=
  if bool_decide (d = 4%nat) then
    {| de_originalId := "3"; de_modifiedId := "4";
       de_getModel := Some (model 1, model 6);
       de_changes2 := None; de_getLineChanges := Some [change; change] |}
  else if bool_decide (d = 5%nat) then
    {| de_originalId := "9"; de_modifiedId := "7";
       de_getModel := Some (model 1, model 6);
       de_changes2 := None; de_getLineChanges := Some [lineChange] |}
  else
    {| de_originalId := "7"; de_modifiedId := "8";
       de_getModel := Some (model 1, model 6);
       de_changes2 := None; de_getLineChanges := None |}.

Definition diffWorkbench : Env :=
  let env := workbench 6 (Some "B") [4%nat; 5%nat; 6%nat] in
  {| getEditor := getEditor env;
     findTextEditorIdFor := findTextEditorIdFor env;
     getIdOfCodeEditor := getIdOfCodeEditor env;
     visibleEditorPanes := visibleEditorPanes env;
     openEditorResult := openEditorResult env;
     closeEditorResult := closeEditorResult env;
     editorGroupToColumn := editorGroupToColumn env;
     columnToEditorGroup := columnToEditorGroup env;
     matches := matches env;
     codeEditor := codeEditor env;
     diffEditor := diffView;
     listDiffEditors := listDiffEditors env;
     getOrCreateModel := getOrCreateModel env;
     lineRangeMappingFromChanges := lineRangeMappingFromChanges env;
     propertiesChanges := propertiesChanges env |}.

Definition diffHost : Host := set_env (fun _ => diffWorkbench) host.

End Sample.

(** ** The command [_workbench.revertAllDirty]

    Registered after the class.  [IWorkingCopy.revert] is not part of the
    sources at hand: a working copy carries what its [revert] does (it
    succeeds, or its promise is rejected with an error), and the calls made
    are recorded. *)
Record IWorkingCopy := {
  wc_resource : URI;
  wc_revert : option Error   (* the error [revert] fails with, if it does *)
}.

Record IRevertOptions := {
  soft : bool
}.

Inductive WorkingCopyCall :=
  | revert (resource : URI) (options : IRevertOptions).

(** [for (const workingCopy of ...) { await workingCopy.revert({ soft: true }); }]
    inside an [async] function: a rejected [await] ends the loop and rejects
    the command. *)
Fixpoint revertEach (copies : list IWorkingCopy) (calls : list WorkingCopyCall)
    : Promise unit * list WorkingCopyCall :=
  match copies with
  | [] => (Promise_resolve (), calls)
  | workingCopy :: copies =>
      let calls := calls ++ [revert (wc_resource workingCopy) {| soft := true |}] in
      match wc_revert workingCopy with
      | Some e => (Promise_reject e, calls)
      | None => revertEach copies calls
      end
  end.

Definition revertAllDirty (extensionTestsLocationURI : option URI)
    (dirtyWorkingCopies : list IWorkingCopy) (calls : list WorkingCopyCall)
    : Promise unit * list WorkingCopyCall :=
  match extensionTestsLocationURI with
  | None =>
      (Promise_reject (new_Error "Command is only available when running extension tests."),
       calls)
  | Some _ => revertEach dirtyWorkingCopies calls
  end.

(** ** Further notions *)

(** The commands that wait for the editor service: their methods are [async]
    and [await] the opening or the closing of an editor. *)
Definition awaitsEditorService (c : Command) : bool :=
  match c with
  | TryShowTextDocument _ _ | TryShowEditor _ _ | TryHideEditor _ => true
  | _ => false
  end.

(** The callbacks of the bridge on [onPropertiesChanged] of the editor [id]. *)
Definition propertyListeners (id : string) (this : MainThreadTextEditors) (h : Host)
    : list Subscription :=
  filter (fun s => sub_owner s = _instanceId this ∧ sub_listener s = onPropertiesChanged id)
         (listeners h).

(** What the bridge sends while a command runs: every event the editor
    fires goes to the peer once for each of those callbacks. *)
Definition sendAll (cs : list ExtHostEditorsCall) (this : MainThreadTextEditors)
    : MainThreadTextEditors :=
  {| _instanceId := _instanceId this; _proxy := _proxy this ++ cs;
     _toDispose := _toDispose this;
     _textEditorsListenersMap := _textEditorsListenersMap this;
     _editorPositionData := _editorPositionData this;
     _registeredDecorationTypes := _registeredDecorationTypes this |}.

Definition propertiesSent (c : Command) (this : MainThreadTextEditors) (h : Host)
    : list ExtHostEditorsCall :=
  propertiesFired c h (command c this h).2 ≫= fun ev =>
    replicate (length (propertyListeners ev.1 this h)) (acceptEditorPropertiesChanged ev.1 ev.2).

(** Every disposable in use was handed out before [nextDisposable]. *)
Definition disposablesIssued (h : Host) : Prop :=
  Forall (fun s => (sub_disposable s < nextDisposable h)%nat) (listeners h).

(** A run in which every [handleTextEditorAdded] comes for a handle that has
    no bundle at that moment. *)
Fixpoint respectsBundles (ops : list Op) (w : MainThreadTextEditors * Host) : bool :=
  match ops with
  | [] => true
  | op :: ops => freshHandle w.1 op && respectsBundles ops (step w op)
  end.

(** Every callback of the bridge is held by the bridge: in a listener bundle
    or in [_toDispose]. *)
Definition callbacksHeld (this : MainThreadTextEditors) (h : Host) : Prop :=
  Forall (fun s => sub_owner s = _instanceId this →
                   sub_disposable s ∈ bundleDisposables this ++ pending (_toDispose this))
         (listeners h).

(** A key is settled when the bridge has it in its registry or the rendering
    service does not have it: [dispose] will leave no decoration type under
    it. *)
Definition settled_key (k : string) (w : MainThreadTextEditors * Host) : Prop :=
  is_Some (_registeredDecorationTypes w.1 !! k) ∨ decorationTypes w.2 !! k = None.

(** A key of the rendering service that carries the prefix of the bridge. *)
Definition ownKey (this : MainThreadTextEditors) (k : string) : Prop :=
  ∃ key, k = namespaced this key.

(** The handles under which the visible panes enter the position data. *)
Definition visibleHandles (env : Env) : list string :=
  omap (fun editorPane => truthy (findTextEditorIdFor env editorPane)) (visibleEditorPanes env).

(** The same workbench with the visible panes listed as [panes]. *)
Definition withVisiblePanes (panes : list IEditorPane) (env : Env) : Env :=
  {| getEditor := getEditor env;
     findTextEditorIdFor := findTextEditorIdFor env;
     getIdOfCodeEditor := getIdOfCodeEditor env;
     visibleEditorPanes := panes;
     openEditorResult := openEditorResult env;
     closeEditorResult := closeEditorResult env;
     editorGroupToColumn := editorGroupToColumn env;
     columnToEditorGroup := columnToEditorGroup env;
     matches := matches env;
     codeEditor := codeEditor env;
     diffEditor := diffEditor env;
     listDiffEditors := listDiffEditors env;
     getOrCreateModel := getOrCreateModel env;
     lineRangeMappingFromChanges := lineRangeMappingFromChanges env;
     propertiesChanges := propertiesChanges env |}.

(** Sample working copies: the second one fails to revert. *)
Module SampleCopies.

Definition clean (resource : URI) : IWorkingCopy :=
  {| wc_resource := resource; wc_revert := None |}.

Definition failing (resource : URI) : IWorkingCopy :=
  {| wc_resource := resource; wc_revert := Some (new_Error "revert failed") |}.

End SampleCopies.

(** * Properties *)

(** ** Records put back together *)

Lemma set_listeners_same (h : Host) : set_listeners (fun _ => listeners h) h = h.
Proof. by destruct h. Qed.

Lemma set_textEditorsListenersMap_same (this : MainThreadTextEditors) :
  set_textEditorsListenersMap (_textEditorsListenersMap this) this = this.
Proof. by destruct this. Qed.

Lemma store_same (id : string) (editor : MainThreadTextEditor) (h : Host) :
  getEditor (env h) !! id = Some editor → store id editor h = h.
Proof.
  intros Hid. destruct h as [n ls d dt rs e]; destruct e; simpl in *.
  unfold store, set_env, set_getEditor; simpl. by rewrite insert_id.
Qed.

(** ** Position data *)

Section position.
Implicit Types (this : MainThreadTextEditors) (h : Host) (env : Env).

Lemma positionsSent_app (l1 l2 : list ExtHostEditorsCall) :
  positionsSent (l1 ++ l2) = positionsSent l1 ++ positionsSent l2.
Proof. apply omap_app. Qed.

Lemma update_instanceId env this :
  _instanceId (_updateActiveAndVisibleTextEditors env this) = _instanceId this.
Proof.
  unfold _updateActiveAndVisibleTextEditors.
  by destruct (negb _).
Qed.

Lemma update_proxy env this :
  _proxy (_updateActiveAndVisibleTextEditors env this)
  = _proxy this ++
      (if decide (_editorPositionData this = Some (_getTextEditorPositionData env))
       then [] else [acceptEditorPositionData (_getTextEditorPositionData env)]).
Proof.
  unfold _updateActiveAndVisibleTextEditors, objectEquals.
  case_bool_decide; case_decide; simpl; try done.
  by rewrite app_nil_r.
Qed.

Lemma update_editorPositionData env this :
  _editorPositionData (_updateActiveAndVisibleTextEditors env this)
  = Some (_getTextEditorPositionData env).
Proof.
  unfold _updateActiveAndVisibleTextEditors, objectEquals.
  by case_bool_decide.
Qed.

Lemma update_idempotent env this :
  _updateActiveAndVisibleTextEditors env (_updateActiveAndVisibleTextEditors env this)
  = _updateActiveAndVisibleTextEditors env this.
Proof.
  unfold _updateActiveAndVisibleTextEditors at 1.
  rewrite update_editorPositionData. unfold objectEquals.
  by rewrite bool_decide_eq_true_2.
Qed.

Lemma deliver_trigger ev env s this :
  isPositionTrigger ev = true →
  deliver ev env s this
  = (s, if bool_decide (sub_listener s = listenerOf ev)
        then _updateActiveAndVisibleTextEditors env this else this).
Proof.
  intros Hev. destruct ev; try done; unfold deliver; simpl;
    destruct (sub_listener s); by try case_bool_decide.
Qed.

Lemma notify_trigger_fixed ev env ls this :
  isPositionTrigger ev = true →
  _updateActiveAndVisibleTextEditors env this = this →
  notify ev env ls this = (ls, this).
Proof.
  intros Hev Hfix. induction ls as [|s ls IH]; simpl; [done|].
  rewrite deliver_trigger by done. rewrite Hfix.
  replace (if bool_decide (sub_owner s = _instanceId this)
           then (s, if bool_decide (sub_listener s = listenerOf ev) then this else this)
           else (s, this)) with (s, this) by (by repeat case_bool_decide).
  by rewrite IH.
Qed.

Lemma notify_trigger ev env ls this :
  isPositionTrigger ev = true →
  notify ev env ls this
  = (ls, if bool_decide (Exists (fun s => sub_owner s = _instanceId this
                                          ∧ sub_listener s = listenerOf ev) ls)
         then _updateActiveAndVisibleTextEditors env this else this).
Proof.
  intros Hev. induction ls as [|s ls IH]; cbn [notify].
  - by rewrite bool_decide_eq_false_2 by (by intros ?%Exists_nil).
  - rewrite deliver_trigger by done.
    destruct (decide (sub_owner s = _instanceId this ∧ sub_listener s = listenerOf ev))
      as [[Hown Hl]|Hno].
    + rewrite !bool_decide_eq_true_2 by (done || by left).
      by rewrite notify_trigger_fixed by (done || apply update_idempotent).
    + replace (if bool_decide (sub_owner s = _instanceId this)
               then (s, if bool_decide (sub_listener s = listenerOf ev)
                        then _updateActiveAndVisibleTextEditors env this else this)
               else (s, this)) with (s, this)
        by (repeat case_bool_decide; naive_solver).
      rewrite IH. f_equal. symmetry.
      erewrite bool_decide_ext; [done|]. rewrite Exists_cons. tauto.
Qed.

Lemma deliver_sameSubscription ev env s this :
  sameSubscription s (deliver ev env s this).1.
Proof.
  unfold deliver, sameSubscription, sameListener.
  destruct ev, (sub_listener s) eqn:Hl; simpl; rewrite ?Hl;
    repeat case_bool_decide; simpl; rewrite ?Hl; try done.
  unfold isTextEditorDiffInformationEqual. case_bool_decide; simpl; by rewrite ?Hl.
Qed.

Lemma deliver_instanceId ev env s this :
  _instanceId (deliver ev env s this).2 = _instanceId this.
Proof.
  unfold deliver.
  destruct ev, (sub_listener s); simpl; rewrite ?update_instanceId;
    repeat case_bool_decide; try done.
  unfold isTextEditorDiffInformationEqual. by case_bool_decide.
Qed.

Lemma notify_instanceId ev env ls this :
  _instanceId (notify ev env ls this).2 = _instanceId this.
Proof.
  revert this. induction ls as [|s ls IH]; intros this; cbn [notify]; [done|].
  case_bool_decide.
  - destruct (deliver ev env s this) as [s' this'] eqn:Hd.
    specialize (IH this'). destruct (notify ev env ls this') as [ls' this''].
    simpl in *. rewrite IH. by rewrite <-(deliver_instanceId ev env s this), Hd.
  - specialize (IH this). by destruct (notify ev env ls this).
Qed.

Lemma notify_sameSubscription ev env ls this :
  Forall2 sameSubscription ls (notify ev env ls this).1.
Proof.
  revert this. induction ls as [|s ls IH]; intros this; cbn [notify]; [by constructor|].
  case_bool_decide.
  - pose proof (deliver_sameSubscription ev env s this) as Hs.
    destruct (deliver ev env s this) as [s' this'].
    specialize (IH this'). destruct (notify ev env ls this') as [ls' this''].
    by constructor.
  - specialize (IH this). destruct (notify ev env ls this) as [ls' this''].
    constructor; [|done]. repeat split. unfold sameListener. by destruct (sub_listener s).
Qed.

Lemma deliver_other_position ev env s this :
  isPositionTrigger ev = false →
  _editorPositionData (deliver ev env s this).2 = _editorPositionData this
  ∧ positionsSent (_proxy (deliver ev env s this).2) = positionsSent (_proxy this).
Proof.
  intros Hev. unfold deliver.
  destruct ev, (sub_listener s); try done; simpl; repeat case_bool_decide; simpl;
    rewrite ?positionsSent_app, ?app_nil_r; try done.
  unfold isTextEditorDiffInformationEqual. case_bool_decide; simpl;
    by rewrite ?positionsSent_app, ?app_nil_r.
Qed.

Lemma notify_other_position ev env ls this :
  isPositionTrigger ev = false →
  _editorPositionData (notify ev env ls this).2 = _editorPositionData this
  ∧ positionsSent (_proxy (notify ev env ls this).2) = positionsSent (_proxy this).
Proof.
  intros Hev. revert this. induction ls as [|s ls IH]; intros this; cbn [notify]; [done|].
  case_bool_decide.
  - destruct (deliver_other_position ev env s this Hev) as [H1 H2].
    destruct (deliver ev env s this) as [s' this'].
    specialize (IH this'). destruct (notify ev env ls this') as [ls' this''].
    simpl in *. destruct IH as [-> ->]. done.
  - specialize (IH this). by destruct (notify ev env ls this).
Qed.

Lemma Exists_sameSubscription (owner : string) (l : Listener) ls ls' :
  (∀ id obs value, l ≠ autorunDiffInformation id obs value) →
  Forall2 sameSubscription ls ls' →
  Exists (fun s => sub_owner s = owner ∧ sub_listener s = l) ls
  ↔ Exists (fun s => sub_owner s = owner ∧ sub_listener s = l) ls'.
Proof.
  intros Hl. induction 1 as [|s s' ls ls' (_ & Ho & Hs) _ IH]; [done|].
  rewrite !Exists_cons, IH, Ho.
  assert (sub_listener s = l ↔ sub_listener s' = l); [|tauto].
  unfold sameListener in Hs.
  destruct (sub_listener s), (sub_listener s'); split; congruence.
Qed.

Lemma subscribed_fire ev this h :
  subscribed (fire ev this h).1 (fire ev this h).2 = subscribed this h.
Proof.
  unfold fire.
  pose proof (notify_instanceId ev (env h) (listeners h) this) as Hid.
  pose proof (notify_sameSubscription ev (env h) (listeners h) this) as Hsame.
  destruct (notify ev (env h) (listeners h) this) as [ls this']. simpl in *.
  unfold subscribed, listening. simpl. rewrite Hid.
  repeat f_equal; apply bool_decide_ext; symmetry;
    by apply Exists_sameSubscription.
Qed.

Lemma fire_trigger ev this h :
  isPositionTrigger ev = true → subscribed this h = true →
  fire ev this h = (_updateActiveAndVisibleTextEditors (env h) this, h).
Proof.
  intros Hev Hsub. unfold fire. rewrite notify_trigger by done.
  rewrite set_listeners_same.
  unfold subscribed, listening in Hsub.
  apply andb_prop in Hsub as [[H1 H2]%andb_prop H3].
  by destruct ev; try done; simpl; rewrite ?H1, ?H2, ?H3.
Qed.

Lemma lastPositionSent_app log d :
  lastPositionSent (log ++ [acceptEditorPositionData d]) = Some d.
Proof. unfold lastPositionSent. rewrite positionsSent_app. simpl. apply last_snoc. Qed.

Lemma run_cons (op : Op) (ops : list Op) (w : MainThreadTextEditors * Host) :
  run (op :: ops) w = run ops (step w op).
Proof. done. Qed.

Lemma run_app (ops1 ops2 : list Op) (w : MainThreadTextEditors * Host) :
  run (ops1 ++ ops2) w = run ops2 (run ops1 w).
Proof. apply foldl_app. Qed.

Lemma run_position_updates (steps : list WorkbenchStep) this h :
  subscribed this h = true →
  _editorPositionData this = lastPositionSent (_proxy this) →
  let w := run (Workbench <$> steps) (this, h) in
  positionsSent (_proxy w.1)
  = positionsSent (_proxy this)
    ++ position_updates (lastPositionSent (_proxy this)) (env h) steps
  ∧ subscribed w.1 w.2 = true
  ∧ _editorPositionData w.1 = lastPositionSent (_proxy w.1).
Proof.
  revert this h. induction steps as [|s steps IH]; intros this h Hsub Hsync.
  { simpl. by rewrite app_nil_r. }
  rewrite fmap_cons, run_cons.
  destruct s as [env'|ev]; cbn [step workbench position_updates fst snd].
  - apply (IH this (set_env (fun _ => env') h)); done.
  - destruct (isPositionTrigger ev) eqn:Hev.
    + rewrite fire_trigger by done.
      pose proof (update_proxy (env h) this) as Hp.
      pose proof (update_editorPositionData (env h) this) as Hd.
      pose proof (update_instanceId (env h) this) as Hi.
      set (this' := _updateActiveAndVisibleTextEditors (env h) this) in *.
      assert (Hsub' : subscribed this' h = true).
      { revert Hsub. unfold subscribed, listening. by rewrite Hi. }
      rewrite <-Hsync.
      destruct (decide (_editorPositionData this = Some (_getTextEditorPositionData (env h))))
        as [Heq|Hne].
      * rewrite app_nil_r in Hp.
        assert (Hsync' : _editorPositionData this' = lastPositionSent (_proxy this'))
          by (by rewrite Hd, Hp, <-Hsync).
        destruct (IH this' h Hsub' Hsync') as (IH1 & IH2 & IH3).
        split_and!; [|done..]. rewrite IH1, Hp. by rewrite <-Hsync.
      * assert (Hsync' : _editorPositionData this' = lastPositionSent (_proxy this'))
          by (by rewrite Hd, Hp, lastPositionSent_app).
        destruct (IH this' h Hsub' Hsync') as (IH1 & IH2 & IH3).
        split_and!; [|done..].
        rewrite IH1, Hp, lastPositionSent_app, positionsSent_app. simpl.
        by rewrite <-app_assoc.
    + pose proof (subscribed_fire ev this h) as Hsub'. rewrite Hsub in Hsub'.
      unfold fire in *.
      destruct (notify_other_position ev (env h) (listeners h) this Hev) as [Hd Hp].
      destruct (notify ev (env h) (listeners h) this) as [ls this']. simpl in *.
      assert (Hlast : lastPositionSent (_proxy this') = lastPositionSent (_proxy this))
        by (unfold lastPositionSent; by rewrite Hp).
      assert (Hsync' : _editorPositionData this' = lastPositionSent (_proxy this'))
        by (by rewrite Hd, Hlast).
      destruct (IH this' (set_listeners (fun _ => ls) h) Hsub' Hsync') as (IH1 & IH2 & IH3).
      split_and!; [|done..]. by rewrite IH1, Hp, Hlast.
Qed.

(** Both hypotheses of the theorem below hold for a bridge as the constructor
    makes it. *)
Lemma constructor_subscribed h :
  subscribed (constructor h).1 (constructor h).2 = true.
Proof.
  unfold subscribed, listening. simpl.
  rewrite !bool_decide_eq_true_2; [done|..]; rewrite <-!app_assoc; apply Exists_app; right.
  - do 2 right. by left.
  - right. by left.
  - by left.
Qed.

Lemma constructor_position_sync h :
  _editorPositionData (constructor h).1 = lastPositionSent (_proxy (constructor h).1).
Proof. done. Qed.

(** C1. A bridge that is still subscribed, on any of the three triggers,
    sends the newly computed mapping if and only if it differs from the last
    mapping sent.  Over every sequence of notifications from the workbench
    (the three triggers, other events, and changes of the workbench state in
    between) the position data sent is therefore what [position_updates]
    spells out; and firing a trigger again while the computed mapping is the
    same sends nothing. *)
Theorem position_data_sent_iff_changed (steps : list WorkbenchStep) this h :
  subscribed this h = true →
  _editorPositionData this = lastPositionSent (_proxy this) →
  (∀ ev, isPositionTrigger ev = true →
         _proxy (fire ev this h).1
         = _proxy this ++
             if decide (lastPositionSent (_proxy this)
                        = Some (_getTextEditorPositionData (env h)))
             then [] else [acceptEditorPositionData (_getTextEditorPositionData (env h))])
  ∧ positionsSent (_proxy (run (Workbench <$> steps) (this, h)).1)
    = positionsSent (_proxy this)
      ++ position_updates (lastPositionSent (_proxy this)) (env h) steps
  ∧ ∀ ev ev' env',
      isPositionTrigger ev = true → isPositionTrigger ev' = true →
      let w := run (Workbench <$> steps ++ [Fired ev]) (this, h) in
      _getTextEditorPositionData env' = _getTextEditorPositionData (env w.2) →
      _proxy (run [Workbench (Changed env'); Workbench (Fired ev')] w).1 = _proxy w.1.
Proof.
  intros Hsub Hsync. split_and!; [|by apply run_position_updates|].
  { intros ev Hev. rewrite fire_trigger by done. simpl.
    by rewrite update_proxy, Hsync. }
  intros ev ev' env' Hev Hev' w Henv.
  destruct (run_position_updates steps this h Hsub Hsync) as (_ & Hsub1 & Hsync1).
  subst w. rewrite fmap_app, run_app in Henv |- *.
  destruct (run (Workbench <$> steps) (this, h)) as [this1 h1].
  cbn [fmap list_fmap run foldl step workbench fst snd] in Henv |- *.
  rewrite (fire_trigger ev this1 h1) in Henv |- * by done.
  cbn [fst snd] in Henv |- *.
  rewrite fire_trigger.
  - cbn [fst]. rewrite update_proxy, update_editorPositionData. cbn [env set_env].
    rewrite Henv, decide_True by done. by rewrite app_nil_r.
  - done.
  - revert Hsub1. unfold subscribed, listening. simpl. by rewrite update_instanceId.
Qed.

Lemma truthy_Some (o : option string) (id : string) :
  truthy o = Some id ↔ o = Some id ∧ id ≠ "".
Proof.
  unfold truthy. destruct o as [id'|]; [|by split; [|intros []]].
  case_bool_decide; (split; [intros [=]|intros [[=] ?]]); subst; done.
Qed.

Lemma getTextEditorPositionData_lookup env (id : string) :
  _getTextEditorPositionData env !! id
  = (fun editorPane => editorGroupToColumn env (pane_group editorPane)) <$> last (panesOf env id).
Proof.
  unfold _getTextEditorPositionData, panesOf.
  generalize (visibleEditorPanes env). intros panes.
  assert (Hgo : ∀ acc : ITextEditorPositionData,
    foldl (fun result editorPane =>
             match truthy (findTextEditorIdFor env editorPane) with
             | Some id => <[id := editorGroupToColumn env (pane_group editorPane)]> result
             | None => result
             end) acc panes !! id
    = match last (filter (fun editorPane => truthy (findTextEditorIdFor env editorPane) = Some id)
                         panes) with
      | Some editorPane => Some (editorGroupToColumn env (pane_group editorPane))
      | None => acc !! id
      end).
  { induction panes as [|pane panes IH] using rev_ind; intros acc; [done|].
    rewrite foldl_app, filter_app. cbn [foldl].
    rewrite filter_cons, filter_nil.
    destruct (truthy (findTextEditorIdFor env pane)) as [id'|] eqn:Hid.
    - destruct (decide (id' = id)) as [->|Hne].
      + rewrite decide_True by done. by rewrite last_snoc, lookup_insert_eq.
      + rewrite decide_False by congruence. rewrite app_nil_r, lookup_insert_ne by done.
        apply IH.
    - rewrite decide_False by congruence. rewrite app_nil_r. apply IH. }
  rewrite Hgo. by destruct (last _).
Qed.

(** C10, as the code has it. The mapping has an entry exactly for the handles
    that the locator gives for some visible pane and that are not the empty
    string, and the entry is the column of the last such pane; a pane for
    which the locator gives no handle, or the empty one, contributes
    nothing. *)
Theorem position_data_entries env (id : string) :
  (is_Some (_getTextEditorPositionData env !! id)
   ↔ id ≠ "" ∧ ∃ editorPane, editorPane ∈ visibleEditorPanes env
                            ∧ findTextEditorIdFor env editorPane = Some id)
  ∧ _getTextEditorPositionData env !! id
    = (fun editorPane => editorGroupToColumn env (pane_group editorPane)) <$> last (panesOf env id).
Proof.
  split; [|apply getTextEditorPositionData_lookup].
  rewrite getTextEditorPositionData_lookup, fmap_is_Some.
  unfold panesOf. split.
  - intros [pane Hlast]. apply last_Some_elem_of, list_elem_of_filter in Hlast as [Hid Hin].
    apply truthy_Some in Hid as [Hid Hne]. eauto.
  - intros (Hne & pane & Hin & Hid).
    assert (Hf : pane ∈ filter (fun editorPane =>
                   truthy (findTextEditorIdFor env editorPane) = Some id) (visibleEditorPanes env)).
    { apply list_elem_of_filter. split; [|done]. by apply truthy_Some. }
    destruct (last (filter _ _)) eqn:Hlast; [by eexists|].
    apply last_None in Hlast. rewrite Hlast in Hf. by apply elem_of_nil in Hf.
Qed.

End position.

(** ** Commands and the callbacks that run with them *)

Section calls.
Implicit Types (this : MainThreadTextEditors) (h : Host) (ls : list Subscription) (id : string).

Lemma deliver_registry ev env s this :
  _registeredDecorationTypes (deliver ev env s this).2 = _registeredDecorationTypes this.
Proof.
  unfold deliver, _updateActiveAndVisibleTextEditors, isTextEditorDiffInformationEqual.
  destruct ev, (sub_listener s); simpl; repeat case_bool_decide; simpl; try done;
    by destruct (negb _).
Qed.

Lemma notify_registry ev env ls this :
  _registeredDecorationTypes (notify ev env ls this).2 = _registeredDecorationTypes this.
Proof.
  revert this. induction ls as [|s ls IH]; intros this; cbn [notify]; [done|].
  case_bool_decide.
  - pose proof (deliver_registry ev env s this) as Hd.
    destruct (deliver ev env s this) as [s' this'].
    specialize (IH this'). destruct (notify ev env ls this') as [ls' this''].
    simpl in *. by rewrite IH.
  - specialize (IH this). by destruct (notify ev env ls this).
Qed.

Lemma sendAll_nil this : sendAll [] this = this.
Proof. destruct this. unfold sendAll. simpl. by rewrite app_nil_r. Qed.

Lemma sendAll_app this (l1 l2 : list ExtHostEditorsCall) :
  sendAll l2 (sendAll l1 this) = sendAll (l1 ++ l2) this.
Proof. unfold sendAll. simpl. by rewrite app_assoc. Qed.

Lemma notify_properties_sendAll id (data : IEditorPropertiesChangeData) env ls this :
  notify (PropertiesChanged id data) env ls this
  = (ls, sendAll (replicate
                    (length (filter (fun s => sub_owner s = _instanceId this
                                              ∧ sub_listener s = onPropertiesChanged id) ls))
                    (acceptEditorPropertiesChanged id data)) this).
Proof.
  revert this. induction ls as [|s ls IH]; intros this; cbn [notify].
  { simpl. by rewrite sendAll_nil. }
  rewrite filter_cons.
  destruct (decide (sub_owner s = _instanceId this ∧ sub_listener s = onPropertiesChanged id))
    as [[Hown Hl]|Hnot].
  - rewrite bool_decide_eq_true_2 by done. unfold deliver. rewrite Hl.
    rewrite bool_decide_eq_true_2 by done. rewrite IH. f_equal.
    unfold sendAll, send. simpl. by rewrite <-app_assoc.
  - assert (Hsame : (if bool_decide (sub_owner s = _instanceId this)
                     then deliver (PropertiesChanged id data) env s this else (s, this))
                    = (s, this)).
    { case_bool_decide as Hown; [|done]. unfold deliver.
      destruct (sub_listener s) as [| | |id'|]; try done.
      case_bool_decide as Hid; [|done]. subst id'. tauto. }
    rewrite Hsame. by rewrite IH.
Qed.

Lemma fire_properties id (data : IEditorPropertiesChangeData) this h :
  fire (PropertiesChanged id data) this h
  = (sendAll (replicate (length (propertyListeners id this h))
                        (acceptEditorPropertiesChanged id data)) this, h).
Proof.
  unfold fire. rewrite notify_properties_sendAll. by rewrite set_listeners_same.
Qed.

(** The method of a command leaves the subscriptions and the bridge's own
    state alone, the registry apart. *)
Lemma command_frame (c : Command) this h :
  listeners (command c this h).2 = listeners h
  ∧ INSTANCE_COUNT (command c this h).2 = INSTANCE_COUNT h
  ∧ _proxy (command c this h).1 = _proxy this
  ∧ _instanceId (command c this h).1 = _instanceId this
  ∧ _textEditorsListenersMap (command c this h).1 = _textEditorsListenersMap this
  ∧ _toDispose (command c this h).1 = _toDispose this
  ∧ _editorPositionData (command c this h).1 = _editorPositionData this.
Proof.
  destruct c; simpl; try done.
  1: { unfold tryShowTextDocument.
       destruct (openEditorResult _ _ _) as [[pane|]|e]; try done.
       by destruct (pane_control pane). }
  all: unfold tryShowEditor, tryHideEditor, trySetSelections, trySetDecorations,
      trySetDecorationsFast, tryRevealRange, trySetOptions, tryApplyEdits, tryInsertSnippet;
    destruct (getEditor (env h) !! id) as [e|]; try done.
  - by destruct (openEditorResult _ _ _).
  - destruct (List.find _ _); [|done]. by destruct (closeEditorResult _ _ _).
  - by destruct (MainThreadTextEditor.applyEdits _ _ _ _).
  - by destruct (MainThreadTextEditor.insertSnippet _ _ _ _ _).
Qed.

Lemma fires_sendAll (evs : list (string * IEditorPropertiesChangeData))
    (w : MainThreadTextEditors * Host) :
  foldl (fun w ev => fire (PropertiesChanged ev.1 ev.2) w.1 w.2) w evs
  = (sendAll (evs ≫= fun ev =>
                replicate (length (propertyListeners ev.1 w.1 w.2))
                          (acceptEditorPropertiesChanged ev.1 ev.2)) w.1, w.2).
Proof.
  revert w. induction evs as [|ev evs IH]; intros [this h]; simpl.
  { by rewrite sendAll_nil. }
  rewrite fire_properties, IH. simpl. by rewrite sendAll_app.
Qed.

(** A command is its method followed by what the callbacks on the editor
    send. *)
Lemma call_spec (c : Command) this h :
  call c this h = (sendAll (propertiesSent c this h) (command c this h).1, (command c this h).2).
Proof.
  unfold call, propertiesSent. rewrite fires_sendAll.
  destruct (command_frame c this h) as (Hl & _ & _ & Hi & _).
  unfold propertyListeners. by rewrite Hl, Hi.
Qed.

Lemma propertiesSent_properties (c : Command) this h :
  Forall (fun n => ∃ id' data,
            n = acceptEditorPropertiesChanged id' data
            ∧ propertyListeners id' this h ≠ []
            ∧ ∃ id editor, editorOf c = Some id ∧ getEditor (env h) !! id = Some editor
                           ∧ id' = te_getId editor)
         (propertiesSent c this h).
Proof.
  apply Forall_forall. intros n ([id' data] & Hn & Hev)%list_elem_of_bind. simpl in Hn.
  apply elem_of_replicate in Hn as [-> Hlen].
  exists id', data. split_and!; [done|by intros Hnil; rewrite Hnil in Hlen|].
  unfold propertiesFired in Hev.
  destruct (editorOf c) as [id|]; [|by apply elem_of_nil in Hev].
  destruct (getEditor (env h) !! id) as [editor|] eqn:He; [|by apply elem_of_nil in Hev].
  destruct (getEditor (env (command c this h).2) !! id); [|by apply elem_of_nil in Hev].
  apply list_elem_of_fmap in Hev as (data' & [= -> ->] & _). by exists id, editor.
Qed.

Lemma propertiesSent_unknown (c : Command) this h :
  (∀ id, editorOf c = Some id → getEditor (env h) !! id = None) →
  propertiesSent c this h = [].
Proof.
  intros Hnone. unfold propertiesSent, propertiesFired.
  destruct (editorOf c) as [id|]; [|done]. by rewrite (Hnone id).
Qed.

Lemma positionsSent_propertiesSent (c : Command) this h :
  positionsSent (propertiesSent c this h) = [].
Proof.
  pose proof (propertiesSent_properties c this h) as Hall.
  induction Hall as [|n l (id' & data & -> & _) _ IH]; [done|]. exact IH.
Qed.

Lemma diffsSent_propertiesSent id (c : Command) this h :
  diffsSent id (propertiesSent c this h) = [].
Proof.
  pose proof (propertiesSent_properties c this h) as Hall.
  induction Hall as [|n l (id' & data & -> & _) _ IH]; [done|]. exact IH.
Qed.

Lemma call_frame (c : Command) this h :
  (call c this h).2 = (command c this h).2
  ∧ listeners (call c this h).2 = listeners h
  ∧ _proxy (call c this h).1 = _proxy this ++ propertiesSent c this h
  ∧ _instanceId (call c this h).1 = _instanceId this
  ∧ _textEditorsListenersMap (call c this h).1 = _textEditorsListenersMap this
  ∧ _toDispose (call c this h).1 = _toDispose this
  ∧ _editorPositionData (call c this h).1 = _editorPositionData this
  ∧ _registeredDecorationTypes (call c this h).1
    = _registeredDecorationTypes (command c this h).1.
Proof.
  rewrite call_spec. simpl.
  destruct (command_frame c this h) as (Hl & _ & Hp & Hi & Hm & Ht & Hd).
  by rewrite Hp.
Qed.

End calls.

(** ** Commands *)

Section commands.
Implicit Types (this : MainThreadTextEditors) (h : Host) (id key : string).

(** C2. When the locator has no editor for [id], each of the seven commands
    that need one is rejected with [illegalArgument] naming ["TextEditor(id)"]
    and the host is left as it was (the bridge object is not touched by these
    commands at all). *)
Theorem commands_reject_unknown_editor this h id key
    (selections : list ISelection) (ranges : list IDecorationOptions) (fast : list Z)
    (range : IRange) (revealType : TextEditorRevealType)
    (options : ITextEditorConfigurationUpdate)
    (modelVersionId : Z) (edits : list ISingleEditOperation) (opts : IApplyEditsOptions)
    (template : string) (at_ : list IRange) (undo : IUndoStopOptions) :
  getEditor (env h) !! id = None →
  trySetSelections id selections h
    = (Promise_reject (illegalArgument ("TextEditor(" +:+ id +:+ ")")), h)
  ∧ trySetDecorations id key ranges this h
    = (Promise_reject (illegalArgument ("TextEditor(" +:+ id +:+ ")")), h)
  ∧ trySetDecorationsFast id key fast this h
    = (Promise_reject (illegalArgument ("TextEditor(" +:+ id +:+ ")")), h)
  ∧ tryRevealRange id range revealType h
    = (Promise_reject (illegalArgument ("TextEditor(" +:+ id +:+ ")")), h)
  ∧ trySetOptions id options h
    = (Promise_reject (illegalArgument ("TextEditor(" +:+ id +:+ ")")), h)
  ∧ tryApplyEdits id modelVersionId edits opts h
    = (Promise_reject (illegalArgument ("TextEditor(" +:+ id +:+ ")")), h)
  ∧ tryInsertSnippet id modelVersionId template at_ undo h
    = (Promise_reject (illegalArgument ("TextEditor(" +:+ id +:+ ")")), h).
Proof.
  intros Hid.
  unfold trySetSelections, trySetDecorations, trySetDecorationsFast, tryRevealRange,
    trySetOptions, tryApplyEdits, tryInsertSnippet.
  rewrite Hid. by repeat split.
Qed.

(** C3. Applying edits to an editor whose model is at another version than
    the expected one resolves to [false] and leaves the host, and so the
    model, as it was; without an editor for the handle the call is
    rejected. *)
Theorem applyEdits_stale_version h id (modelVersionId : Z)
    (edits : list ISingleEditOperation) (opts : IApplyEditsOptions) :
  (∀ editor, getEditor (env h) !! id = Some editor →
             tm_versionId (te_getModel editor) ≠ modelVersionId →
             tryApplyEdits id modelVersionId edits opts h = (Promise_resolve false, h))
  ∧ (getEditor (env h) !! id = None →
     tryApplyEdits id modelVersionId edits opts h
     = (Promise_reject (illegalArgument ("TextEditor(" +:+ id +:+ ")")), h)).
Proof.
  unfold tryApplyEdits. split.
  - intros editor Hid Hversion. rewrite Hid.
    unfold MainThreadTextEditor.applyEdits.
    rewrite bool_decide_eq_false_2 by done. by rewrite store_same.
  - by intros ->.
Qed.

(** C8. Showing or hiding an editor the locator does not know resolves and
    changes nothing; so does hiding a known editor that no visible pane
    matches. *)
Theorem show_hide_unknown_editor h id (position : option EditorGroupColumn) :
  (getEditor (env h) !! id = None →
   tryShowEditor id position h = (Promise_resolve (), h)
   ∧ tryHideEditor id h = (Promise_resolve (), h))
  ∧ (∀ editor, getEditor (env h) !! id = Some editor →
               Forall (fun editorPane => matches (env h) editor editorPane = false)
                      (visibleEditorPanes (env h)) →
               tryHideEditor id h = (Promise_resolve (), h)).
Proof.
  unfold tryShowEditor, tryHideEditor. split.
  - by intros ->.
  - intros editor -> Hnone.
    destruct (List.find _ _) as [pane|] eqn:Hfind; [|done].
    apply List.find_some in Hfind as [Hin Hm].
    rewrite Forall_forall in Hnone. apply list_elem_of_In, Hnone in Hin. congruence.
Qed.

Lemma findDiffEditor_Some env (codeEditorId : string) (d : DiffEditorRef) :
  findDiffEditor env codeEditorId = Some d →
  d ∈ listDiffEditors env
  ∧ (de_originalId (diffEditor env d) = codeEditorId
     ∨ de_modifiedId (diffEditor env d) = codeEditorId).
Proof.
  unfold findDiffEditor. intros Hd.
  apply head_Some_elem_of, list_elem_of_filter in Hd. tauto.
Qed.

Lemma findDiffEditor_None env (codeEditorId : string) :
  findDiffEditor env codeEditorId = None ↔
  Forall (fun d => de_originalId (diffEditor env d) ≠ codeEditorId
                   ∧ de_modifiedId (diffEditor env d) ≠ codeEditorId) (listDiffEditors env).
Proof.
  unfold findDiffEditor. rewrite head_None.
  induction (listDiffEditors env) as [|d l IH]; [by split; [constructor|]|].
  rewrite filter_cons, Forall_cons. case_decide as Hd.
  - split; [done|]. tauto.
  - rewrite IH. tauto.
Qed.

Lemma findDiffEditor_first env (codeEditorId : string) (before after : list DiffEditorRef)
    (d : DiffEditorRef) :
  listDiffEditors env = before ++ d :: after →
  Forall (fun d' => de_originalId (diffEditor env d') ≠ codeEditorId
                    ∧ de_modifiedId (diffEditor env d') ≠ codeEditorId) before →
  de_originalId (diffEditor env d) = codeEditorId
  ∨ de_modifiedId (diffEditor env d) = codeEditorId →
  findDiffEditor env codeEditorId = Some d.
Proof.
  unfold findDiffEditor. intros -> Hbefore Hd. rewrite filter_app.
  induction Hbefore as [|d' before [Ho Hm] _ IH]; simpl.
  - by rewrite filter_cons_True.
  - rewrite filter_cons_False by tauto. exact IH.
Qed.

(** C9. [$getDiffInformation] is rejected without an editor for the handle
    or without a code editor.  Otherwise, when the code editor is the
    original or the modified side of one of the diff editors that the code
    editor service lists, the answer is the line changes of the first such
    diff editor (the empty list while it has none); when it is a side of
    none of them, the answer is the changes of the dirty-diff contribution if
    the code editor has one, else the empty list. *)
Theorem getDiffInformation_cases h id :
  (getEditor (env h) !! id = None →
   getDiffInformation id h = Promise_reject (new_Error "No such TextEditor"))
  ∧ (∀ editor, getEditor (env h) !! id = Some editor →
       (te_getCodeEditor editor = None →
        getDiffInformation id h = Promise_reject (new_Error "No such CodeEditor"))
       ∧ (∀ c, te_getCodeEditor editor = Some c →
            let codeEditorId := ce_getId (codeEditor (env h) c) in
            (∀ before d after,
               listDiffEditors (env h) = before ++ d :: after →
               Forall (fun d' => de_originalId (diffEditor (env h) d') ≠ codeEditorId
                                 ∧ de_modifiedId (diffEditor (env h) d') ≠ codeEditorId)
                      before →
               de_originalId (diffEditor (env h) d) = codeEditorId
               ∨ de_modifiedId (diffEditor (env h) d) = codeEditorId →
               getDiffInformation id h
               = Promise_resolve (default [] (de_getLineChanges (diffEditor (env h) d))))
            ∧ (Forall (fun d => de_originalId (diffEditor (env h) d) ≠ codeEditorId
                                ∧ de_modifiedId (diffEditor (env h) d) ≠ codeEditorId)
                      (listDiffEditors (env h)) →
               (∀ changes, ce_dirtydiff (codeEditor (env h) c) = Some changes →
                           getDiffInformation id h = Promise_resolve changes)
               ∧ (ce_dirtydiff (codeEditor (env h) c) = None →
                  getDiffInformation id h = Promise_resolve [])))).
Proof.
  unfold getDiffInformation. split; [by intros ->|].
  intros editor ->. split; [by intros ->|].
  intros c ->. cbv zeta. split.
  - intros before d after Hlist Hbefore Hd.
    by rewrite (findDiffEditor_first _ _ _ _ _ Hlist Hbefore Hd).
  - intros Hnone%findDiffEditor_None. rewrite Hnone.
    split; [by intros changes ->|by intros ->].
Qed.

End commands.

(** ** Decoration types and their keys *)

Section decorations.
Implicit Types (this : MainThreadTextEditors) (h : Host) (id key : string).

Lemma pretty_N_go_noDash (x : N) (s : string) :
  noDash s = true → noDash (pretty_N_go x s) = true.
Proof.
  revert s. induction (N.lt_wf_0 x) as [x _ IH]; intros s Hs.
  assert (x = 0 ∨ 0 < x)%N as [->|Hpos] by lia.
  - by rewrite pretty_N_go_0.
  - rewrite pretty_N_go_step by done. apply IH.
    + by apply N.div_lt.
    + simpl. rewrite Hs, andb_true_r. unfold pretty_N_char. by repeat case_match.
Qed.

Lemma pretty_N_noDash (n : N) : noDash (pretty n) = true.
Proof.
  unfold pretty, pretty_N. case_decide; [done|]. by apply pretty_N_go_noDash.
Qed.

Lemma namespace_inj (a b k k' : string) :
  noDash a = true → noDash b = true →
  a +:+ "-" +:+ k = b +:+ "-" +:+ k' → a = b ∧ k = k'.
Proof.
  revert b. induction a as [|c a IH]; intros [|c' b] Ha Hb Heq;
    unfold String.append in Heq; fold String.append in Heq; simpl in *.
  - by injection Heq as ->.
  - injection Heq as <- _. by rewrite Ascii.eqb_refl in Hb.
  - injection Heq as -> _. by rewrite Ascii.eqb_refl in Ha.
  - injection Heq as -> Heq.
    apply andb_prop in Ha as [_ Ha]. apply andb_prop in Hb as [_ Hb].
    destruct (IH b Ha Hb Heq) as [-> ->]. done.
Qed.

Lemma constructor_instanceId h :
  _instanceId (constructor h).1 = pretty (INSTANCE_COUNT h + 1)%N.
Proof. done. Qed.

Lemma constructor_INSTANCE_COUNT h :
  INSTANCE_COUNT (constructor h).2 = (INSTANCE_COUNT h + 1)%N.
Proof. done. Qed.

(** Keys of bridges made at different values of the instance counter never
    coincide, whatever the extension's own keys are. *)
Lemma namespaced_ne this this' h1 h2 key key' :
  _instanceId this = _instanceId (constructor h1).1 →
  _instanceId this' = _instanceId (constructor h2).1 →
  INSTANCE_COUNT h1 ≠ INSTANCE_COUNT h2 →
  namespaced this key ≠ namespaced this' key'.
Proof.
  unfold namespaced. rewrite !constructor_instanceId. intros -> -> Hne Heq.
  apply namespace_inj in Heq as [Heq _]; [|apply pretty_N_noDash..].
  apply (inj pretty) in Heq. lia.
Qed.

Lemma dispose_all_INSTANCE_COUNT ds h :
  INSTANCE_COUNT (dispose_all ds h) = INSTANCE_COUNT h.
Proof. by destruct ds. Qed.

Lemma dispose_INSTANCE_COUNT this h :
  INSTANCE_COUNT (dispose this h).2 = INSTANCE_COUNT h.
Proof.
  unfold dispose, DisposableStore_dispose.
  set (h1 := foldl _ h _).
  assert (H1 : INSTANCE_COUNT h1 = INSTANCE_COUNT h).
  { subst h1. generalize ((map_to_list (_textEditorsListenersMap this)).*1). intros ids.
    revert h. induction ids as [|i ids IH]; intros h; [done|].
    simpl. by rewrite IH, dispose_all_INSTANCE_COUNT. }
  clearbody h1. simpl.
  assert (H2 : ∀ keys h, INSTANCE_COUNT
      (foldl (fun h decorationType => removeDecorationType decorationType h) h keys)
      = INSTANCE_COUNT h).
  { induction keys as [|k keys IH]; intros h'; [done|]. simpl. by rewrite IH. }
  destruct (store_isDisposed (_toDispose this)); simpl; by rewrite H2.
Qed.

(** No operation of a bridge changes the instance counter; only constructing
    a bridge does, so bridges made one after the other have different
    [_instanceId]s. *)
Lemma step_INSTANCE_COUNT w op : INSTANCE_COUNT (step w op).2 = INSTANCE_COUNT w.2.
Proof.
  destruct w as [this h], op as [te|id| |[env'|ev]|c]; simpl.
  - done.
  - unfold handleTextEditorRemoved. simpl. apply dispose_all_INSTANCE_COUNT.
  - apply dispose_INSTANCE_COUNT.
  - done.
  - unfold fire. by destruct (notify _ _ _ _).
  - destruct (call_frame c this h) as (-> & _).
    apply command_frame.
Qed.

Lemma run_INSTANCE_COUNT ops w : INSTANCE_COUNT (run ops w).2 = INSTANCE_COUNT w.2.
Proof.
  revert w. induction ops as [|op ops IH]; intros w; [done|].
  by rewrite run_cons, IH, step_INSTANCE_COUNT.
Qed.

Lemma later_instance_differs h ops :
  let w := run ops (constructor h) in
  _instanceId (constructor w.2).1 ≠ _instanceId (constructor h).1.
Proof.
  intros w. rewrite !constructor_instanceId. intros Heq%(inj pretty).
  subst w. rewrite run_INSTANCE_COUNT, constructor_INSTANCE_COUNT in Heq. lia.
Qed.

(** C5. Two bridges made at different values of the instance counter store
    their decoration types under different keys of the rendering service,
    whatever keys the extensions chose: both can register the same [key] and
    both registrations are there; registering or removing through one leaves
    every registration of the other as it was; and setting decorations
    through one leaves the rendering service alone and, in every editor, the
    decorations held under the other's keys. *)
Theorem decoration_types_namespaced this this' h1 h2 h key key' id
    (extensionId extensionId' : string) (options options' : IDecorationRenderOptions)
    (ranges : list IDecorationOptions) (fast : list Z) :
  _instanceId this = _instanceId (constructor h1).1 →
  _instanceId this' = _instanceId (constructor h2).1 →
  INSTANCE_COUNT h1 ≠ INSTANCE_COUNT h2 →
  namespaced this key ≠ namespaced this' key'
  ∧ (let w := registerTextEditorDecorationType extensionId key options this h in
     let w' := registerTextEditorDecorationType extensionId' key options' this' w.2 in
     decorationTypes w'.2 !! namespaced this key = Some ("exthost-api-" +:+ extensionId, options)
     ∧ decorationTypes w'.2 !! namespaced this' key
       = Some ("exthost-api-" +:+ extensionId', options'))
  ∧ decorationTypes (registerTextEditorDecorationType extensionId key options this h).2
      !! namespaced this' key'
    = decorationTypes h !! namespaced this' key'
  ∧ decorationTypes (removeTextEditorDecorationType key this h).2 !! namespaced this' key'
    = decorationTypes h !! namespaced this' key'
  ∧ decorationTypes (trySetDecorations id key ranges this h).2 = decorationTypes h
  ∧ decorationTypes (trySetDecorationsFast id key fast this h).2 = decorationTypes h
  ∧ (∀ id', (te_decorations <$> getEditor (env (trySetDecorations id key ranges this h).2) !! id')
              ≫= (.!! namespaced this' key')
            = (te_decorations <$> getEditor (env h) !! id') ≫= (.!! namespaced this' key'))
  ∧ (∀ id', (te_decorations <$> getEditor (env (trySetDecorationsFast id key fast this h).2) !! id')
              ≫= (.!! namespaced this' key')
            = (te_decorations <$> getEditor (env h) !! id') ≫= (.!! namespaced this' key')).
Proof.
  intros Hthis Hthis' Hcount.
  assert (Hne : ∀ k k', namespaced this k ≠ namespaced this' k')
    by (intros; by eapply namespaced_ne).
  split_and!.
  - apply Hne.
  - simpl. split.
    + rewrite lookup_insert_ne by (intros Heq; by eapply Hne). apply lookup_insert_eq.
    + apply lookup_insert_eq.
  - simpl. by rewrite lookup_insert_ne.
  - simpl. by rewrite lookup_delete_ne.
  - unfold trySetDecorations. by destruct (getEditor (env h) !! id).
  - unfold trySetDecorationsFast. by destruct (getEditor (env h) !! id).
  - intros id'. unfold trySetDecorations.
    destruct (getEditor (env h) !! id) as [e|] eqn:He; [|done]. simpl.
    destruct (decide (id = id')) as [<-|Hid].
    + rewrite lookup_insert_eq, He. simpl. by rewrite lookup_insert_ne.
    + by rewrite lookup_insert_ne.
  - intros id'. unfold trySetDecorationsFast.
    destruct (getEditor (env h) !! id) as [e|] eqn:He; [|done]. simpl.
    destruct (decide (id = id')) as [<-|Hid].
    + rewrite lookup_insert_eq, He. simpl. by rewrite lookup_insert_ne.
    + by rewrite lookup_insert_ne.
Qed.

End decorations.

(** ** Disposal *)

Section disposal.
Implicit Types (this : MainThreadTextEditors) (h : Host) (ls : list Subscription).

Lemma filter_all {A} (P : A → Prop) `{!∀ x, Decision (P x)} (l : list A) :
  (∀ x, P x) → filter P l = l.
Proof.
  intros HP. induction l as [|x l IH]; [done|].
  rewrite filter_cons_True by done. by f_equal.
Qed.

Lemma unsubscribe_all ls (ds : list nat) :
  foldl (fun ls d => unsubscribe d ls) ls ds
  = filter (fun s => sub_disposable s ∉ ds) ls.
Proof.
  revert ls. induction ds as [|d ds IH]; intros ls; simpl.
  - rewrite filter_all; [done|]. intros s. apply not_elem_of_nil.
  - rewrite IH. unfold unsubscribe. rewrite list_filter_filter.
    apply list_filter_iff. intros s. rewrite not_elem_of_cons. tauto.
Qed.

Lemma listeners_dispose_all (ds : option (list nat)) h :
  listeners (dispose_all ds h)
  = filter (fun s => sub_disposable s ∉ default [] ds) (listeners h).
Proof.
  destruct ds as [ds|]; simpl; [apply unsubscribe_all|].
  rewrite filter_all; [done|]. intros s. apply not_elem_of_nil.
Qed.

Lemma dispose_bundles (m : gmap string (list nat)) (kvs : list (string * list nat)) h :
  (∀ kv, kv ∈ kvs → m !! kv.1 = Some kv.2) →
  let h' := foldl (fun h editorId => dispose_all (m !! editorId) h) h kvs.*1 in
  listeners h' = filter (fun s => sub_disposable s ∉ kvs ≫= snd) (listeners h)
  ∧ decorationTypes h' = decorationTypes h ∧ env h' = env h
  ∧ editorRequests h' = editorRequests h ∧ nextDisposable h' = nextDisposable h.
Proof.
  revert h. induction kvs as [|[k ds] kvs IH]; intros h Hkvs h'; subst h'.
  - simpl. split_and!; try done.
    rewrite filter_all; [done|]. intros s. apply not_elem_of_nil.
  - rewrite fmap_cons. cbn [foldl fst].
    destruct (IH (dispose_all (m !! k) h)) as (-> & -> & -> & -> & ->).
    { intros kv Hin. apply Hkvs. by right. }
    pose proof (Hkvs (k, ds) ltac:(left)) as Hk. simpl in Hk.
    rewrite listeners_dispose_all, Hk. simpl.
    split_and!; try done.
    rewrite list_filter_filter. apply list_filter_iff. intros s.
    rewrite not_elem_of_app. tauto.
Qed.

Lemma removeDecorationTypes (keys : list string) h :
  let h' := foldl (fun h decorationType => removeDecorationType decorationType h) h keys in
  (∀ key, decorationTypes h' !! key
          = if decide (key ∈ keys) then None else decorationTypes h !! key)
  ∧ listeners h' = listeners h ∧ env h' = env h
  ∧ editorRequests h' = editorRequests h ∧ nextDisposable h' = nextDisposable h.
Proof.
  revert h. induction keys as [|k keys IH]; intros h h'; subst h'.
  - simpl. by split_and!.
  - cbn [foldl].
    destruct (IH (removeDecorationType k h)) as (Hd & -> & -> & -> & ->).
    split_and!; try done. intros key. rewrite Hd. simpl.
    destruct (decide (key = k)) as [->|Hne].
    + rewrite (decide_True (P := k ∈ k :: keys)) by left.
      case_decide; [done|]. apply lookup_delete_eq.
    + rewrite lookup_delete_ne by done.
      repeat case_decide; try done; exfalso.
      * by apply H0; right.
      * apply elem_of_cons in H0 as [?|?]; done.
Qed.

Lemma elem_of_map_keys {A} (m : gmap string A) (k : string) :
  k ∈ (map_to_list m).*1 ↔ is_Some (m !! k).
Proof.
  rewrite list_elem_of_fmap. split.
  - intros ([k' a] & -> & Hin). apply elem_of_map_to_list in Hin. by eexists.
  - intros [a Ha]. exists (k, a). split; [done|]. by apply elem_of_map_to_list.
Qed.

Lemma dispose_effect this h :
  let w := dispose this h in
  listeners w.2
  = filter (fun s => sub_disposable s ∉ bundleDisposables this ++ pending (_toDispose this))
           (listeners h)
  ∧ (∀ key, decorationTypes w.2 !! key
            = if decide (is_Some (_registeredDecorationTypes this !! key))
              then None else decorationTypes h !! key)
  ∧ _textEditorsListenersMap w.1 = ∅
  ∧ _registeredDecorationTypes w.1 = ∅
  ∧ store_isDisposed (_toDispose w.1) = true
  ∧ pending (_toDispose w.1) = []
  ∧ dispose w.1 w.2 = w.
Proof.
  unfold dispose.
  destruct (dispose_bundles (_textEditorsListenersMap this)
              (map_to_list (_textEditorsListenersMap this)) h) as (Hl1 & Hd1 & _).
  { intros [k ds] Hin. by apply elem_of_map_to_list. }
  set (h1 := foldl _ h _) in *. clearbody h1.
  cbn [_toDispose set_textEditorsListenersMap].
  assert (Hstore : ∃ st h2,
    DisposableStore_dispose (_toDispose this) h1 = (st, h2)
    ∧ store_isDisposed st = true ∧ pending st = []
    ∧ listeners h2 = filter (fun s => sub_disposable s ∉ pending (_toDispose this)) (listeners h1)
    ∧ decorationTypes h2 = decorationTypes h1).
  { unfold DisposableStore_dispose, pending.
    destruct (store_isDisposed (_toDispose this)) eqn:Hdisposed.
    - eexists _, _. split; [done|]. unfold pending. rewrite !Hdisposed. split_and!; try done.
      rewrite filter_all; [done|]. intros s. apply not_elem_of_nil.
    - eexists _, _. split; [done|]. split_and!; try done.
      apply (listeners_dispose_all (Some _)). }
  destruct Hstore as (st & h2 & -> & Hdisposed & Hpending & Hl2 & Hd2).
  destruct (removeDecorationTypes (map_to_list (_registeredDecorationTypes this)).*1 h2)
    as (Hd3 & Hl3 & _).
  cbn [_registeredDecorationTypes set_toDispose set_textEditorsListenersMap] in *.
  set (h3 := foldl _ h2 _) in *. clearbody h3.
  cbn [fst snd]. split_and!; try done.
  - rewrite Hl3, Hl2, Hl1, list_filter_filter. apply list_filter_iff. intros s.
    unfold bundleDisposables. rewrite not_elem_of_app. tauto.
  - intros key. rewrite Hd3, Hd2, Hd1.
    destruct (decide (key ∈ _)) as [Hin|Hin]; rewrite elem_of_map_keys in Hin;
      by rewrite ?decide_True, ?decide_False by done.
  - cbn. rewrite !map_to_list_empty. cbn.
    unfold DisposableStore_dispose. by rewrite Hdisposed.
Qed.

(** Registering through the bridge settles the key, and nothing the bridge
    does unsettles a key. *)
Lemma command_settled (k : string) (c : Command) this h :
  settled_key k (this, h) → settled_key k (command c this h).
Proof.
  unfold settled_key. intros Hk.
  destruct c; simpl; try done.
  1: { unfold tryShowTextDocument.
       destruct (openEditorResult _ _ _) as [[pane|]|e]; try done.
       by destruct (pane_control pane). }
  all: unfold tryShowEditor, tryHideEditor, trySetSelections, trySetDecorations,
      trySetDecorationsFast, tryRevealRange, trySetOptions, tryApplyEdits, tryInsertSnippet;
    try (destruct (getEditor (env h) !! id) as [e|]; try done).
  - by destruct (openEditorResult _ _ _).
  - destruct (List.find _ _); [|done]. by destruct (closeEditorResult _ _ _).
  - by destruct (MainThreadTextEditor.applyEdits _ _ _ _).
  - by destruct (MainThreadTextEditor.insertSnippet _ _ _ _ _).
  - destruct (decide (k = namespaced this key)) as [->|Hne].
    + left. rewrite lookup_insert_eq. by eexists.
    + by rewrite !lookup_insert_ne.
  - destruct (decide (k = namespaced this key)) as [->|Hne].
    + right. apply lookup_delete_eq.
    + by rewrite !lookup_delete_ne.
Qed.

Lemma step_settled (k : string) w op : settled_key k w → settled_key k (step w op).
Proof.
  destruct w as [this h]. intros Hk.
  destruct op as [te|id| |[env'|ev]|c]; simpl.
  - exact Hk.
  - unfold settled_key, handleTextEditorRemoved in *. simpl in *.
    by destruct (_textEditorsListenersMap this !! id).
  - destruct (dispose_effect this h) as (_ & Hd & _).
    right. rewrite Hd. case_decide as Hreg; [done|]. by destruct Hk.
  - exact Hk.
  - unfold settled_key, fire in *.
    pose proof (notify_registry ev (env h) (listeners h) this) as Hr.
    destruct (notify _ _ _ _) as [ls this']. simpl in *. by rewrite Hr.
  - destruct (call_frame c this h) as (Hh & _ & _ & _ & _ & _ & _ & Hr).
    pose proof (command_settled k c this h Hk) as Hk'.
    unfold settled_key in *. by rewrite Hh, Hr.
Qed.

Lemma run_settled (k : string) (ops : list Op) w : settled_key k w → settled_key k (run ops w).
Proof.
  revert w. induction ops as [|op ops IH]; intros w Hk; [done|].
  rewrite run_cons. by apply IH, step_settled.
Qed.

(** C7, as the code has it. [dispose] removes from the listeners exactly the
    subscriptions whose disposable is in one of the bundles of the listener
    map or in [_toDispose]: these are released and nothing else is
    disturbed; if every callback of the bridge is held in a bundle of the map
    or in [_toDispose], no callback of the bridge is left.  Every decoration
    type in [_registeredDecorationTypes] is gone from the rendering service
    and the others stay; and a key registered through the bridge is out of
    the rendering service once the bridge is disposed, whatever was done with
    the bridge in between.  The listener map and the registry are empty
    afterwards, the store is disposed, and disposing once more changes
    nothing. *)
Theorem dispose_releases_everything this h :
  let w := dispose this h in
  listeners w.2
  = filter (fun s => sub_disposable s ∉ bundleDisposables this ++ pending (_toDispose this))
           (listeners h)
  ∧ (callbacksHeld this h →
     Forall (fun s => sub_owner s ≠ _instanceId w.1) (listeners w.2))
  ∧ (∀ key, decorationTypes w.2 !! key
            = if decide (is_Some (_registeredDecorationTypes this !! key))
              then None else decorationTypes h !! key)
  ∧ (∀ (extensionId key : string) (options : IDecorationRenderOptions) (ops : list Op),
       let registered :=
         run ops (registerTextEditorDecorationType extensionId key options this h) in
       decorationTypes (dispose registered.1 registered.2).2 !! namespaced this key = None)
  ∧ _textEditorsListenersMap w.1 = ∅
  ∧ _registeredDecorationTypes w.1 = ∅
  ∧ store_isDisposed (_toDispose w.1) = true
  ∧ pending (_toDispose w.1) = []
  ∧ dispose w.1 w.2 = w.
Proof.
  intros w. destruct (dispose_effect this h) as (Hl & Hd & Hm & Hr & Hs & Hp & Hi).
  fold w in Hl, Hd, Hm, Hr, Hs, Hp, Hi. split_and!; try done.
  - intros Hheld. rewrite Hl. unfold callbacksHeld in Hheld.
    rewrite Forall_forall in Hheld |- *.
    intros s [Hout Hin]%list_elem_of_filter Hown. apply Hout, Hheld; [done|].
    subst w. unfold dispose in Hown. by destruct (DisposableStore_dispose _ _).
  - intros extensionId key options ops registered.
    assert (Hk : settled_key (namespaced this key) registered).
    { apply run_settled. left. simpl. rewrite lookup_insert_eq. by eexists. }
    destruct (dispose_effect registered.1 registered.2) as (_ & Hd' & _).
    rewrite Hd'. case_decide as Hreg; [done|]. by destruct Hk.
Qed.

(** A decoration type registered through the bridge is in the registry, so
    [dispose] takes it out of the rendering service. *)
Lemma registered_then_disposed (extensionId key : string) (options : IDecorationRenderOptions)
    this h :
  let w := registerTextEditorDecorationType extensionId key options this h in
  _registeredDecorationTypes w.1 !! namespaced this key = Some true
  ∧ decorationTypes w.2 !! namespaced this key = Some ("exthost-api-" +:+ extensionId, options)
  ∧ decorationTypes (dispose w.1 w.2).2 !! namespaced this key = None.
Proof.
  intros w. destruct (dispose_effect w.1 w.2) as (_ & Hd & _).
  subst w. simpl in *. rewrite !lookup_insert_eq. split_and!; [done..|].
  rewrite Hd, lookup_insert_eq. by rewrite decide_True.
Qed.

End disposal.

(** ** Listener bundles *)

Section bundles.
Implicit Types (this : MainThreadTextEditors) (h : Host) (ls : list Subscription) (id : string).

Lemma forwardedFor_app id (l1 l2 : list ExtHostEditorsCall) :
  forwardedFor id (l1 ++ l2) = forwardedFor id l1 ++ forwardedFor id l2.
Proof. apply filter_app. Qed.

Lemma forwardedFor_send id (c : ExtHostEditorsCall) this :
  forwardsFor id c = false →
  forwardedFor id (_proxy (send c this)) = forwardedFor id (_proxy this).
Proof.
  intros Hc. simpl. rewrite forwardedFor_app. unfold forwardedFor at 2.
  rewrite filter_cons_False, filter_nil, app_nil_r by congruence. done.
Qed.

Lemma dispose_frame this h :
  _proxy (dispose this h).1 = _proxy this
  ∧ _instanceId (dispose this h).1 = _instanceId this.
Proof.
  unfold dispose. by destruct (DisposableStore_dispose _ _).
Qed.

Lemma step_instanceId w op : _instanceId (step w op).1 = _instanceId w.1.
Proof.
  destruct w as [this h], op as [te|id| |[env'|ev]|c]; simpl; try done.
  - apply dispose_frame.
  - unfold fire. pose proof (notify_instanceId ev (env h) (listeners h) this).
    by destruct (notify _ _ _ _).
  - apply call_frame.
Qed.

Lemma dispose_positionData this h :
  _editorPositionData (dispose this h).1 = _editorPositionData this.
Proof. unfold dispose. by destruct (DisposableStore_dispose _ _). Qed.

(** [_editorPositionData] is the last position data sent, in every state the
    bridge can be in. *)
Lemma step_position_sync w op :
  _editorPositionData w.1 = lastPositionSent (_proxy w.1) →
  _editorPositionData (step w op).1 = lastPositionSent (_proxy (step w op).1).
Proof.
  destruct w as [this h]. simpl. intros Hsync.
  destruct op as [te|id| |[env'|ev]|c]; simpl; try done.
  - unfold lastPositionSent in *. rewrite positionsSent_app. simpl. by rewrite app_nil_r.
  - destruct (dispose_frame this h) as [Hp _].
    by rewrite dispose_positionData, Hp.
  - unfold fire. destruct (isPositionTrigger ev) eqn:Hev.
    + rewrite notify_trigger by done. simpl. case_bool_decide; [|done].
      rewrite update_editorPositionData, update_proxy. case_decide as Heq.
      * by rewrite app_nil_r, <-Hsync.
      * by rewrite lastPositionSent_app.
    + destruct (notify_other_position ev (env h) (listeners h) this Hev) as [Hd Hp].
      destruct (notify _ _ _ _) as [ls this']. simpl in *.
      unfold lastPositionSent in *. by rewrite Hd, Hp.
  - destruct (call_frame c this h) as (_ & _ & Hp & _ & _ & _ & Hd & _).
    rewrite Hd, Hp. unfold lastPositionSent.
    by rewrite positionsSent_app, positionsSent_propertiesSent, app_nil_r.
Qed.

Lemma run_position_sync ops h :
  let w := run ops (constructor h) in
  _editorPositionData w.1 = lastPositionSent (_proxy w.1).
Proof.
  intros w. subst w. induction ops as [|op ops IH] using rev_ind; [done|].
  rewrite run_app. by apply step_position_sync.
Qed.

Lemma removed_silent id this h :
  bundlesComplete this h = true →
  silent id (handleTextEditorRemoved id this h).1 (handleTextEditorRemoved id this h).2.
Proof.
  unfold bundlesComplete, silent, handleTextEditorRemoved. simpl.
  rewrite List.forallb_forall, listeners_dispose_all, !Forall_forall.
  intros Hall s [Hout Hin]%list_elem_of_filter [Hown Hfor].
  apply list_elem_of_In, Hall in Hin. simpl in *.
  rewrite bool_decide_eq_true_2, Hfor in Hin by done.
  apply bool_decide_eq_true in Hin. done.
Qed.

Lemma bundleHolds_spec id this h :
  bundleHolds id this h = true ↔
  ∀ s, s ∈ listeners h → ownListenerFor id this s →
       sub_disposable s ∈ default [] (_textEditorsListenersMap this !! id).
Proof.
  unfold bundleHolds, ownListenerFor. rewrite List.forallb_forall. split.
  - intros Hall s Hin%list_elem_of_In Hown. apply Hall in Hin.
    rewrite bool_decide_eq_true_2 in Hin by done. by apply bool_decide_eq_true in Hin.
  - intros Hall s Hin%list_elem_of_In. case_bool_decide as Hown; [|done].
    apply bool_decide_eq_true_2. by apply Hall.
Qed.

(** Removing an editor whose callbacks are all in its bundle leaves no
    callback for it, whatever the bundles of the other editors hold. *)
Lemma removed_silent_handle id this h :
  bundleHolds id this h = true →
  silent id (handleTextEditorRemoved id this h).1 (handleTextEditorRemoved id this h).2.
Proof.
  rewrite bundleHolds_spec. unfold silent, handleTextEditorRemoved. simpl.
  rewrite listeners_dispose_all, !Forall_forall.
  intros Hall s [Hout Hin]%list_elem_of_filter Hown.
  apply Hout. by apply Hall.
Qed.

Lemma deliver_silent id ev env s this :
  ¬ ownListenerFor id this s →
  sub_owner s = _instanceId this →
  forwardedFor id (_proxy (deliver ev env s this).2) = forwardedFor id (_proxy this).
Proof.
  unfold ownListenerFor, deliver. intros Hnot Hown.
  destruct ev, (sub_listener s) eqn:Hl; try done; simpl in *.
  1-3: by rewrite update_proxy; case_decide; rewrite ?app_nil_r, ?forwardedFor_app, ?app_nil_r.
  - case_bool_decide; [|done]. apply forwardedFor_send. simpl.
    apply bool_decide_eq_false_2. intros ->. tauto.
  - unfold isTextEditorDiffInformationEqual. case_bool_decide; [done|].
    apply forwardedFor_send. simpl.
    apply bool_decide_eq_false_2. intros ->. tauto.
Qed.

Lemma notify_silent id ev env ls this :
  Forall (fun s => ¬ ownListenerFor id this s) ls →
  forwardedFor id (_proxy (notify ev env ls this).2) = forwardedFor id (_proxy this).
Proof.
  revert this. induction ls as [|s ls IH]; intros this Hall; cbn [notify]; [done|].
  apply Forall_cons in Hall as [Hs Hall].
  case_bool_decide as Hown.
  - pose proof (deliver_silent id ev env s this Hs Hown) as Hd.
    pose proof (deliver_instanceId ev env s this) as Hi.
    destruct (deliver ev env s this) as [s' this']. simpl in *.
    specialize (IH this'). destruct (notify ev env ls this') as [ls' this''].
    simpl in *. rewrite IH, Hd; [done|].
    unfold ownListenerFor in *. by rewrite Hi.
  - specialize (IH this Hall). by destruct (notify ev env ls this).
Qed.

Lemma sameSubscription_listenedEditor s s' :
  sameSubscription s s' →
  sub_owner s = sub_owner s'
  ∧ listenedEditor (sub_listener s) = listenedEditor (sub_listener s').
Proof.
  intros (_ & Ho & Hl). split; [done|]. unfold sameListener in Hl.
  destruct (sub_listener s), (sub_listener s'); try done; try congruence.
  by destruct Hl as [-> _].
Qed.

Lemma silent_sameSubscription id this this' ls ls' :
  _instanceId this' = _instanceId this →
  Forall2 sameSubscription ls ls' →
  Forall (fun s => ¬ ownListenerFor id this s) ls →
  Forall (fun s => ¬ ownListenerFor id this' s) ls'.
Proof.
  intros Hi. induction 1 as [|s s' ls ls' Hs _ IH]; [done|].
  intros [Hnot Hall]%Forall_cons. constructor; [|by apply IH].
  apply sameSubscription_listenedEditor in Hs as [Ho Hl].
  unfold ownListenerFor in *. by rewrite Hi, <-Ho, <-Hl.
Qed.

Lemma forwardedFor_propertiesSent id (c : Command) this h :
  silent id this h → forwardedFor id (propertiesSent c this h) = [].
Proof.
  intros Hsilent. pose proof (propertiesSent_properties c this h) as Hall.
  unfold forwardedFor.
  induction Hall as [|n l (id' & data & -> & Hne & _) _ IH]; [done|].
  rewrite filter_cons_False; [done|]. simpl. intros Hid%bool_decide_eq_true. subst id'.
  apply Hne. unfold propertyListeners.
  destruct (filter _ (listeners h)) as [|s l'] eqn:Hf; [done|]. exfalso.
  assert (Hin : s ∈ filter (fun s => sub_owner s = _instanceId this
                                     ∧ sub_listener s = onPropertiesChanged id) (listeners h)).
  { rewrite Hf. by left. }
  apply list_elem_of_filter in Hin as [[Hown Hl] Hin].
  unfold silent in Hsilent. rewrite Forall_forall in Hsilent.
  apply (Hsilent s Hin). split; [done|]. by rewrite Hl.
Qed.

Lemma step_silent id w op :
  silent id w.1 w.2 →
  addsEditor id op = false →
  silent id (step w op).1 (step w op).2
  ∧ forwardedFor id (_proxy (step w op).1) = forwardedFor id (_proxy w.1).
Proof.
  destruct w as [this h]. unfold silent. simpl. intros Hsilent Hadd.
  destruct op as [te|id'| |[env'|ev]|c]; simpl in *.
  - apply bool_decide_eq_false in Hadd. split.
    + rewrite <-!app_assoc. apply Forall_app. split; [done|].
      repeat constructor; unfold ownListenerFor; simpl; intros [_ [=]]; done.
    + rewrite forwardedFor_app. unfold forwardedFor at 2.
      rewrite filter_cons_False, filter_nil, app_nil_r; [done|].
      simpl. rewrite bool_decide_eq_false_2 by done. done.
  - split; [|done]. rewrite listeners_dispose_all.
    rewrite Forall_forall in Hsilent |- *.
    intros s [_ Hin]%list_elem_of_filter. by apply Hsilent.
  - destruct (dispose_effect this h) as (Hl & _).
    destruct (dispose_frame this h) as (Hp & Hi).
    destruct (dispose this h) as [this' h']. simpl in *.
    split; [|by rewrite Hp]. rewrite Hl.
    rewrite Forall_forall in Hsilent |- *.
    intros s [_ Hin]%list_elem_of_filter. unfold ownListenerFor. rewrite Hi.
    by apply Hsilent.
  - done.
  - unfold fire.
    pose proof (notify_silent id ev (env h) (listeners h) this Hsilent) as Hp.
    pose proof (notify_instanceId ev (env h) (listeners h) this) as Hi.
    pose proof (notify_sameSubscription ev (env h) (listeners h) this) as Hs.
    destruct (notify _ _ _ _) as [ls' this']. simpl in *.
    split; [|done]. by eapply silent_sameSubscription.
  - destruct (call_frame c this h) as (_ & Hl & Hp & Hi & _).
    destruct (call c this h) as [this' h']. simpl in *.
    rewrite Hl, Hp. split; [unfold ownListenerFor; by rewrite Hi|].
    by rewrite forwardedFor_app, forwardedFor_propertiesSent, app_nil_r.
Qed.

Lemma run_silent id ops w :
  silent id w.1 w.2 →
  existsb (addsEditor id) ops = false →
  forwardedFor id (_proxy (run ops w).1) = forwardedFor id (_proxy w.1).
Proof.
  revert w. induction ops as [|op ops IH]; intros w Hsilent Hadd; [done|].
  simpl in Hadd. apply orb_false_elim in Hadd as [Hop Hops].
  destruct (step_silent id w op Hsilent Hop) as [Hsilent' Hp].
  by rewrite run_cons, IH, Hp.
Qed.

Lemma bundlesComplete_spec this h :
  bundlesComplete this h = true ↔
  ∀ s id, s ∈ listeners h → ownListenerFor id this s →
          sub_disposable s ∈ default [] (_textEditorsListenersMap this !! id).
Proof.
  unfold bundlesComplete, ownListenerFor. rewrite List.forallb_forall. split.
  - intros Hall s id Hin%list_elem_of_In [Hown Hfor]. apply Hall in Hin.
    rewrite bool_decide_eq_true_2, Hfor in Hin by done. by apply bool_decide_eq_true in Hin.
  - intros Hall s Hin%list_elem_of_In. case_bool_decide as Hown; [|done].
    destruct (listenedEditor (sub_listener s)) as [id|] eqn:Hfor; [|done].
    apply bool_decide_eq_true_2. by apply Hall.
Qed.

Lemma deliver_listenersMap ev env s this :
  _textEditorsListenersMap (deliver ev env s this).2 = _textEditorsListenersMap this.
Proof.
  unfold deliver, _updateActiveAndVisibleTextEditors, isTextEditorDiffInformationEqual.
  destruct ev, (sub_listener s); simpl; repeat case_bool_decide; simpl; try done;
    by destruct (negb _).
Qed.

Lemma notify_listenersMap ev env ls this :
  _textEditorsListenersMap (notify ev env ls this).2 = _textEditorsListenersMap this.
Proof.
  revert this. induction ls as [|s ls IH]; intros this; cbn [notify]; [done|].
  case_bool_decide.
  - pose proof (deliver_listenersMap ev env s this) as Hd.
    destruct (deliver ev env s this) as [s' this'].
    specialize (IH this'). destruct (notify ev env ls this') as [ls' this''].
    simpl in *. by rewrite IH.
  - specialize (IH this). by destruct (notify ev env ls this).
Qed.

(** A freshly constructed bridge has its bundles complete, and every
    operation that keeps to the protocol keeps them so. *)
Lemma constructor_bundlesComplete h :
  Forall (fun s => sub_owner s ≠ pretty (INSTANCE_COUNT h + 1)%N) (listeners h) →
  bundlesComplete (constructor h).1 (constructor h).2 = true.
Proof.
  intros Hothers. apply bundlesComplete_spec. simpl.
  intros s id Hin [Hown Hfor]. rewrite <-!app_assoc in Hin.
  apply elem_of_app in Hin as [Hin|Hin].
  - rewrite Forall_forall in Hothers. by apply Hothers in Hin.
  - simpl in Hin. repeat (apply elem_of_cons in Hin as [->|Hin]; [done|]).
    by apply elem_of_nil in Hin.
Qed.

Lemma step_bundlesComplete w op :
  bundlesComplete w.1 w.2 = true →
  freshHandle w.1 op = true →
  bundlesComplete (step w op).1 (step w op).2 = true.
Proof.
  destruct w as [this h]. rewrite !bundlesComplete_spec. simpl. intros Hall Hfresh.
  destruct op as [te|id'| |[env'|ev]|c]; simpl in *.
  - apply bool_decide_eq_true in Hfresh.
    intros s id Hin [Hown Hfor]. simpl in *. rewrite <-!app_assoc in Hin.
    apply elem_of_app in Hin as [Hin|Hin].
    + destruct (decide (id = te_getId te)) as [->|Hne].
      * specialize (Hall s _ Hin (conj Hown Hfor)). rewrite Hfresh in Hall.
        by apply elem_of_nil in Hall.
      * rewrite lookup_insert_ne by done. by apply (Hall s id).
    + simpl in Hin.
      apply elem_of_cons in Hin as [->|Hin]; simpl in *.
      { injection Hfor as <-. rewrite lookup_insert_eq. simpl. by left. }
      apply elem_of_cons in Hin as [->|Hin]; simpl in *.
      { injection Hfor as <-. rewrite lookup_insert_eq. simpl. right. by left. }
      by apply elem_of_nil in Hin.
  - intros s id. rewrite listeners_dispose_all.
    intros [Hout Hin]%list_elem_of_filter Hown. simpl in *.
    specialize (Hall s id Hin Hown).
    destruct (decide (id = id')) as [->|Hne]; [done|]. by rewrite lookup_delete_ne.
  - destruct (dispose_effect this h) as (Hl & _ & Hm & _).
    destruct (dispose_frame this h) as (_ & Hi).
    destruct (dispose this h) as [this' h']. simpl in *.
    intros s id. rewrite Hl. intros [Hout Hin]%list_elem_of_filter [Hown Hfor].
    rewrite Hi in Hown. specialize (Hall s id Hin (conj Hown Hfor)).
    destruct (_textEditorsListenersMap this !! id) as [ds|] eqn:Hds;
      [|by apply elem_of_nil in Hall].
    exfalso. apply Hout, elem_of_app. left. unfold bundleDisposables.
    apply list_elem_of_bind. exists (id, ds). split; [done|]. by apply elem_of_map_to_list.
  - done.
  - unfold fire.
    pose proof (notify_instanceId ev (env h) (listeners h) this) as Hi.
    pose proof (notify_sameSubscription ev (env h) (listeners h) this) as Hs.
    pose proof (notify_listenersMap ev (env h) (listeners h) this) as Hm.
    destruct (notify _ _ _ _) as [ls' this']. simpl in *.
    intros s' id Hin [Hown Hfor]. rewrite Hm.
    apply list_elem_of_lookup in Hin as [i Hi'].
    destruct (Forall2_lookup_r _ _ _ _ _ Hs Hi') as (s & Hls & Hsame).
    pose proof (sameSubscription_listenedEditor _ _ Hsame) as [Ho Hl].
    destruct Hsame as (<- & _).
    apply (Hall s id); [by eapply list_elem_of_lookup_2|].
    unfold ownListenerFor. by rewrite Ho, Hown, Hl, Hi.
  - destruct (call_frame c this h) as (_ & Hl & _ & Hi & Hm & _).
    destruct (call c this h) as [this' h']. simpl in *.
    intros s id. rewrite Hl, Hm. unfold ownListenerFor. rewrite Hi. apply Hall.
Qed.

(** C4, as the code has it. In a state in which every callback of the bridge
    for the editor [id] is held in the bundle of [id] (whatever holds of the
    other handles), [handleTextEditorRemoved id] leaves the bridge without any
    callback for [id]: whatever happens afterwards (events of the workbench,
    reactive updates, commands on [id] or on other editors, other editors
    coming and going, disposal), as long as no editor with the handle [id] is
    added again, no properties-changed or diff-information notification for
    [id] reaches the peer.  Without a bundle for [id] the call changes nothing
    at all. *)
Theorem removed_editor_is_silent id this h :
  (∀ ops : list Op,
     bundleHolds id this h = true →
     existsb (addsEditor id) ops = false →
     forwardedFor id (_proxy (run ops (handleTextEditorRemoved id this h)).1)
     = forwardedFor id (_proxy this))
  ∧ (_textEditorsListenersMap this !! id = None →
     handleTextEditorRemoved id this h = (this, h)).
Proof.
  split.
  - intros ops Hholds Hadd. rewrite run_silent; [done| |done].
    by apply removed_silent_handle.
  - intros Hnone. unfold handleTextEditorRemoved. rewrite Hnone. simpl.
    by rewrite delete_id, set_textEditorsListenersMap_same.
Qed.

End bundles.

(** ** Diff information *)

Section diff.
Implicit Types (this : MainThreadTextEditors) (h : Host) (ls : list Subscription) (id : string).

Lemma diffsSent_app id (l1 l2 : list ExtHostEditorsCall) :
  diffsSent id (l1 ++ l2) = diffsSent id l1 ++ diffsSent id l2.
Proof. apply omap_app. Qed.

Lemma deliver_invalidated id env s this :
  sub_owner s = _instanceId this →
  let r := deliver DiffInformationInvalidated env s this in
  diffsSent id (_proxy r.2)
  = diffsSent id (_proxy this)
    ++ from_option (forwarded env) [] (autorunOf id (_instanceId this) s)
  ∧ autorunOf id (_instanceId this) r.1
    = refreshed env <$> autorunOf id (_instanceId this) s.
Proof.
  intros Hown. unfold deliver, autorunOf, forwarded, refreshed. simpl.
  rewrite bool_decide_eq_true_2 by done.
  destruct (sub_listener s) as [| | |id'|id' obs value] eqn:Hl; simpl;
    rewrite ?Hl, ?app_nil_r, ?bool_decide_eq_true_2 by done; try done.
  unfold isTextEditorDiffInformationEqual.
  case_bool_decide as Heq; simpl; rewrite ?Hl, ?bool_decide_eq_true_2 by done;
    case_bool_decide; simpl; rewrite ?diffsSent_app, ?app_nil_r; simpl;
    rewrite ?bool_decide_eq_true_2, ?bool_decide_eq_false_2, ?app_nil_r by done;
    try done.
  all: try by rewrite Heq.
  all: by rewrite (bool_decide_eq_true_2 (sub_owner s = _instanceId this)).
Qed.

Lemma omap_cons_match {A B} (f : A → option B) (x : A) (l : list A) :
  omap f (x :: l) = match f x with Some y => y :: omap f l | None => omap f l end.
Proof. done. Qed.

Lemma notify_invalidated id env ls this :
  let r := notify DiffInformationInvalidated env ls this in
  diffsSent id (_proxy r.2)
  = diffsSent id (_proxy this) ++ (omap (autorunOf id (_instanceId this)) ls ≫= forwarded env)
  ∧ omap (autorunOf id (_instanceId this)) r.1
    = refreshed env <$> omap (autorunOf id (_instanceId this)) ls.
Proof.
  revert this. induction ls as [|s ls IH]; intros this; cbn [notify].
  { simpl. by rewrite app_nil_r. }
  rewrite !omap_cons_match.
  case_bool_decide as Hown.
  - destruct (deliver_invalidated id env s this Hown) as [Hd Ha].
    pose proof (deliver_instanceId DiffInformationInvalidated env s this) as Hi.
    destruct (deliver DiffInformationInvalidated env s this) as [s' this'].
    cbn [fst snd] in *.
    specialize (IH this'). rewrite Hi in IH.
    destruct (notify DiffInformationInvalidated env ls this') as [ls' this''].
    cbn [fst snd] in *. destruct IH as [IH1 IH2].
    rewrite omap_cons_match, IH1, IH2, Hd, Ha.
    destruct (autorunOf id (_instanceId this) s) as [a|]; simpl.
    + by rewrite <-app_assoc.
    + by rewrite app_nil_r.
  - specialize (IH this).
    destruct (notify DiffInformationInvalidated env ls this) as [ls' this''].
    cbn [fst snd] in *. destruct IH as [IH1 IH2].
    rewrite omap_cons_match, IH1, IH2.
    assert (Hnone : autorunOf id (_instanceId this) s = None)
      by (unfold autorunOf; by rewrite bool_decide_eq_false_2).
    by rewrite Hnone.
Qed.

Lemma deliver_other_diff id ev env s this :
  ev ≠ DiffInformationInvalidated →
  diffsSent id (_proxy (deliver ev env s this).2) = diffsSent id (_proxy this)
  ∧ (deliver ev env s this).1 = s.
Proof.
  intros Hev. unfold deliver.
  destruct ev, (sub_listener s); try done; simpl;
    rewrite ?update_proxy; repeat case_bool_decide; repeat case_decide;
    simpl; by rewrite ?diffsSent_app, ?app_nil_r.
Qed.

Lemma notify_other_diff id ev env ls this :
  ev ≠ DiffInformationInvalidated →
  diffsSent id (_proxy (notify ev env ls this).2) = diffsSent id (_proxy this)
  ∧ (notify ev env ls this).1 = ls.
Proof.
  intros Hev. revert this. induction ls as [|s ls IH]; intros this; cbn [notify]; [done|].
  case_bool_decide.
  - destruct (deliver_other_diff id ev env s this Hev) as [Hd Hs].
    destruct (deliver ev env s this) as [s' this']. simpl in *. subst s'.
    specialize (IH this'). destruct (notify ev env ls this') as [ls' this''].
    simpl in *. destruct IH as [-> ->]. done.
  - specialize (IH this). destruct (notify ev env ls this) as [ls' this''].
    simpl in *. by destruct IH as [-> ->].
Qed.

Lemma run_diff_updates id obs (steps : list WorkbenchStep) this h value :
  autorunsFor id this h = [(obs, value)] →
  let w := run (Workbench <$> steps) (this, h) in
  diffsSent id (_proxy w.1)
  = diffsSent id (_proxy this) ++ diff_updates obs value (env h) steps
  ∧ autorunsFor id w.1 w.2
    = [(obs, default value (last (diff_updates obs value (env h) steps)))].
Proof.
  revert this h value. induction steps as [|s steps IH]; intros this h value Hauto.
  { simpl. by rewrite app_nil_r. }
  rewrite fmap_cons, run_cons.
  destruct s as [env'|ev]; cbn [step workbench fst snd].
  - apply (IH this (set_env (fun _ => env') h)). done.
  - unfold fire.
    assert (ev = DiffInformationInvalidated ∨ ev ≠ DiffInformationInvalidated) as [->|Hev]
      by (destruct ev; (by left) || by right).
    + destruct (notify_invalidated id (env h) (listeners h) this) as [Hd Ha].
      pose proof (notify_instanceId DiffInformationInvalidated (env h) (listeners h) this) as Hi.
      destruct (notify _ _ _ _) as [ls' this']. cbn [fst snd] in *.
      unfold autorunsFor in Hauto. rewrite Hauto in Hd, Ha.
      cbn [diff_updates]. unfold forwarded in Hd. simpl in Hd, Ha.
      unfold refreshed in Ha. simpl in Ha. rewrite app_nil_r in Hd.
      destruct (IH this' (set_listeners (fun _ => ls') h) (read (env h) obs)) as [IH1 IH2].
      { unfold autorunsFor. simpl. by rewrite Hi. }
      cbn zeta. rewrite IH1, IH2, Hd. simpl. unfold isTextEditorDiffInformationEqual.
      case_bool_decide as Heq.
      * by rewrite app_nil_r, Heq.
      * rewrite <-app_assoc. split; [done|]. rewrite last_cons.
        by destruct (last _).
    + destruct (notify_other_diff id ev (env h) (listeners h) this Hev) as [Hd Hl].
      pose proof (notify_instanceId ev (env h) (listeners h) this) as Hi.
      destruct (notify _ _ _ _) as [ls' this']. cbn [fst snd] in *. subst ls'.
      destruct (IH this' (set_listeners (fun _ => listeners h) h) value) as [IH1 IH2].
      { unfold autorunsFor. simpl. by rewrite Hi. }
      cbn zeta. rewrite IH1, IH2, Hd. simpl. by destruct ev.
Qed.

Lemma diff_updates_differ obs previous env (steps : list WorkbenchStep) (i : nat)
    (a b : option ITextEditorDiffInformation) :
  (previous :: diff_updates obs previous env steps) !! i = Some a →
  (previous :: diff_updates obs previous env steps) !! S i = Some b →
  isTextEditorDiffInformationEqual a b = false.
Proof.
  revert previous env i. induction steps as [|s steps IH]; intros previous env i; [done|].
  destruct s as [env'|ev]; cbn [diff_updates]; [apply IH|].
  destruct ev; try apply IH.
  destruct (isTextEditorDiffInformationEqual previous (read env obs)) eqn:Heq; [apply IH|].
  destruct i as [|i]; simpl.
  - by intros [= <-] [= <-].
  - apply (IH (read env obs) env i).
Qed.


(** C6, as the code has it. For an editor registered once with the bridge
    (exactly one autorun of the bridge forwards for its handle, and the value
    the autorun holds is the one last forwarded for the handle: the state
    that [handleTextEditorAdded] leaves when the handle had no autorun, lemma
    [added_autorun]), the diff information sent over any sequence of
    workbench changes and events is what [diff_updates] says: a recomputation
    is forwarded when its value is not equal to the previously forwarded one
    and is dropped when it is equal.  So no forwarded value is equal to the
    one forwarded before it, and afterwards the autorun again holds the value
    last forwarded. *)
Theorem diff_information_forwarded_iff_changed id obs value
    (steps : list WorkbenchStep) this h :
  autorunsFor id this h = [(obs, value)] →
  lastDiffSent id (_proxy this) = Some value →
  let w := run (Workbench <$> steps) (this, h) in
  diffsSent id (_proxy w.1)
  = diffsSent id (_proxy this) ++ diff_updates obs value (env h) steps
  ∧ (∀ (i : nat) (a b : option ITextEditorDiffInformation),
       (value :: diff_updates obs value (env h) steps) !! i = Some a →
       (value :: diff_updates obs value (env h) steps) !! S i = Some b →
       isTextEditorDiffInformationEqual a b = false)
  ∧ ∃ value', autorunsFor id w.1 w.2 = [(obs, value')]
              ∧ lastDiffSent id (_proxy w.1) = Some value'.
Proof.
  intros Hauto Hlast w.
  destruct (run_diff_updates id obs steps this h value Hauto) as [Hd Ha].
  fold w in Hd, Ha. split_and!; [done| |].
  - intros i a b. apply diff_updates_differ.
  - eexists. split; [done|]. unfold lastDiffSent in *. rewrite Hd, last_app, Hlast.
    by destruct (last (diff_updates _ _ _ _)).
Qed.

End diff.

(** ** The properties on the sample workbench *)

Section sample.
Import Sample.

(** The spec's example: panes A and B in columns 1 and 2; the mapping is sent
    once, firing again sends nothing, and once the locator no longer knows
    pane B the next trigger sends the smaller mapping. *)
Lemma position_data_sent_iff_changed_witness :
  subscribed fresh.1 fresh.2 = true
  ∧ _editorPositionData fresh.1 = lastPositionSent (_proxy fresh.1)
  ∧ positionsSent
      (_proxy (run (Workbench <$> [Fired VisibleEditorsChanged; Fired GroupMoved;
                                   Changed (workbench 6 None []); Fired GroupRemoved])
                   (fresh.1, fresh.2)).1)
    = [ {[ "A" := 1; "B" := 2 ]}; {[ "A" := 1 ]} ].
Proof.
  split; [vm_compute; reflexivity|]. split; [vm_compute; reflexivity|].
  destruct (position_data_sent_iff_changed
              [Fired VisibleEditorsChanged; Fired GroupMoved;
               Changed (workbench 6 None []); Fired GroupRemoved] fresh.1 fresh.2)
    as (_ & H & _).
  - vm_compute; reflexivity.
  - vm_compute; reflexivity.
  - etrans; [exact H|]. vm_compute; reflexivity.
Defined.

(** The spec's example [$trySetSelections("missing", [...])]. *)
Lemma commands_reject_unknown_editor_witness :
  getEditor (env host) !! "missing" = None
  ∧ trySetSelections "missing" [] host
    = (Promise_reject (illegalArgument "TextEditor(missing)"), host).
Proof.
  split; [vm_compute; reflexivity|].
  refine (proj1 (commands_reject_unknown_editor fresh.1 host "missing" "k" [] [] []
            {| startLineNumber := 1; startColumn := 1; endLineNumber := 1; endColumn := 1 |}
            Default
            {| upd_tabSize := None; upd_insertSpaces := None; upd_cursorStyle := None;
               upd_lineNumbers := None |}
            5 []
            {| opt_undoStopBefore := true; opt_undoStopAfter := true; opt_setEndOfLine := None |}
            "" [] {| undoStopBefore := true; undoStopAfter := true |} _)).
  vm_compute; reflexivity.
Defined.

(** The spec's example [$tryApplyEdits("e1", 5, edits, opts)] with the model
    of [e1] at version 6. *)
Lemma applyEdits_stale_version_witness :
  getEditor (env host) !! "e1" = Some e1
  ∧ tm_versionId (te_getModel e1) ≠ 5
  ∧ tryApplyEdits "e1" 5 []
      {| opt_undoStopBefore := true; opt_undoStopAfter := true; opt_setEndOfLine := None |} host
    = (Promise_resolve false, host)
  ∧ getEditor (env host) !! "missing" = None
  ∧ tryApplyEdits "missing" 5 []
      {| opt_undoStopBefore := true; opt_undoStopAfter := true; opt_setEndOfLine := None |} host
    = (Promise_reject (illegalArgument "TextEditor(missing)"), host).
Proof.
  split; [vm_compute; reflexivity|]. split; [vm_compute; discriminate|].
  split.
  - apply (proj1 (applyEdits_stale_version host "e1" 5 [] _) e1).
    + vm_compute; reflexivity.
    + vm_compute; discriminate.
  - split; [vm_compute; reflexivity|].
    refine (proj2 (applyEdits_stale_version host "missing" 5 [] _) _).
    vm_compute; reflexivity.
Defined.

(** [e1] has been added once and [e2] twice, so that the first bundle of
    [e2] is lost while the callbacks of [e1] are all in its bundle.  After
    [e1] is removed, neither a properties change of [e1], nor a recomputed
    diff, nor a command that changes the selections of [e1] makes anything
    for [e1] reach the peer. *)
Lemma removed_editor_is_silent_witness :
  let w := handleTextEditorAdded e2 (handleTextEditorAdded e2 withE1.1 withE1.2).1
             (handleTextEditorAdded e2 withE1.1 withE1.2).2 in
  let ops :=
    [Workbench (Fired (PropertiesChanged "e1" properties));
     Workbench (Changed (workbench 7 (Some "B") []));
     Workbench (Fired DiffInformationInvalidated);
     Call (TrySetSelections "e1" [{| selectionStartLineNumber := 1; selectionStartColumn := 1;
                                     positionLineNumber := 1; positionColumn := 4 |}]);
     HandleTextEditorAdded e2] in
  bundleHolds "e1" w.1 w.2 = true
  ∧ bundlesComplete w.1 w.2 = false
  ∧ existsb (addsEditor "e1") ops = false
  ∧ forwardedFor "e1" (_proxy (run ops (handleTextEditorRemoved "e1" w.1 w.2)).1)
    = forwardedFor "e1" (_proxy w.1)
  ∧ _textEditorsListenersMap withE1.1 !! "e2" = None
  ∧ handleTextEditorRemoved "e2" withE1.1 withE1.2 = (withE1.1, withE1.2).
Proof.
  intros w ops.
  split; [vm_compute; reflexivity|]. split; [vm_compute; reflexivity|].
  split; [vm_compute; reflexivity|].
  split.
  - apply (proj1 (removed_editor_is_silent "e1" w.1 w.2)); vm_compute; reflexivity.
  - split; [vm_compute; reflexivity|].
    apply (proj2 (removed_editor_is_silent "e2" withE1.1 withE1.2)). vm_compute; reflexivity.
Defined.

(** Without the removal the same events are forwarded. *)
Example registered_editor_forwards :
  forwardedFor "e1"
    (_proxy (run [Workbench (Fired (PropertiesChanged "e1" properties));
                  Workbench (Changed (workbench 7 (Some "B") []));
                  Workbench (Fired DiffInformationInvalidated)] withE1).1)
  = forwardedFor "e1" (_proxy withE1.1)
    ++ [acceptEditorPropertiesChanged "e1" properties;
        acceptEditorDiffInformation "e1"
          (Some {| documentVersion := 7; di_original := "git:/a.ts";
                   di_modified := "file:///a.ts"; di_changes := [(3, 5, 3, 6)] |})].
Proof. vm_compute; reflexivity. Qed.

(** An editor added twice under one handle loses its first bundle; the
    callbacks of that bundle outlive [handleTextEditorRemoved]. *)
Example bundle_dropped_by_second_add :
  let w := handleTextEditorAdded e1 withE1.1 withE1.2 in
  bundlesComplete w.1 w.2 = false
  ∧ forwardedFor "e1"
      (_proxy (run [Workbench (Fired (PropertiesChanged "e1" properties))]
                   (handleTextEditorRemoved "e1" w.1 w.2)).1)
    ≠ forwardedFor "e1" (_proxy w.1).
Proof. split; [vm_compute; reflexivity|]. vm_compute. intros H. inversion H. Qed.

(** C4 read literally fails in two ways: a bundle dropped by a second add
    keeps forwarding after the removal, and so does an editor added again
    after the removal. *)
Lemma removed_editor_is_silent_counterexample :
  ¬ silentOnceRemoved "e1" (handleTextEditorAdded e1 withE1.1 withE1.2)
  ∧ ¬ silentOnceRemoved "e1" withE1.
Proof.
  split; intros H.
  - specialize (H [Workbench (Fired (PropertiesChanged "e1" properties))]).
    vm_compute in H. inversion H.
  - specialize (H [HandleTextEditorAdded e1]).
    vm_compute in H. inversion H.
Qed.

(** C6 read literally fails for an editor added twice under one handle: two
    autoruns forward for it, and each recomputed value reaches the peer
    twice, the second time equal to the value forwarded just before. *)
Lemma diff_information_forwarded_iff_changed_counterexample :
  ¬ forwardsOnlyChanges "e1" (handleTextEditorAdded e1 withE1.1 withE1.2).
Proof.
  intros H.
  pose (value := Some {| documentVersion := 7; di_original := "git:/a.ts";
                         di_modified := "file:///a.ts"; di_changes := [(3, 5, 3, 6)] |}).
  specialize (H [Changed (workbench 7 (Some "B") []); Fired DiffInformationInvalidated]
                2%nat value value).
  cbv zeta in H.
  assert (Hequal : isTextEditorDiffInformationEqual value value = false).
  { apply H; [vm_compute; lia|vm_compute; reflexivity|vm_compute; reflexivity]. }
  vm_compute in Hequal. discriminate.
Qed.

Example diff_information_forwarded_twice :
  let value version :=
    Some {| documentVersion := version; di_original := "git:/a.ts";
            di_modified := "file:///a.ts"; di_changes := [(3, 5, 3, 6)] |} in
  diffsSent "e1"
    (_proxy (run (Workbench <$> [Changed (workbench 7 (Some "B") []);
                                 Fired DiffInformationInvalidated])
                 (handleTextEditorAdded e1 withE1.1 withE1.2)).1)
  = [value 6; value 6; value 7; value 7].
Proof. vm_compute; reflexivity. Qed.

(** C7 read literally fails for the same state: the map holds the second
    bundle of [e1] only, and the two callbacks of the first one are still
    registered after [dispose]. *)
Lemma dispose_releases_everything_counterexample :
  ¬ releasesEveryBundle (handleTextEditorAdded e1 withE1.1 withE1.2).
Proof.
  unfold releasesEveryBundle. intros H. vm_compute in H.
  inversion H as [|s l Hs Hl]. apply Hs. split; [reflexivity|]. by eexists.
Qed.

(** With [e1] added once every callback of the bridge is held, and none is
    left after [dispose]; a decoration type registered through the bridge is
    in the rendering service until the bridge is disposed, and gone then. *)
Lemma dispose_releases_everything_witness :
  let w := dispose withE1.1 withE1.2 in
  let registered :=
    run [Call (TrySetSelections "e1" []); HandleTextEditorAdded e2;
         Workbench (Fired VisibleEditorsChanged)]
        (registerTextEditorDecorationType "ext" "k"
           {| dro_backgroundColor := None; dro_isWholeLine := false |} withE1.1 withE1.2) in
  callbacksHeld withE1.1 withE1.2
  ∧ Forall (fun s => sub_owner s ≠ _instanceId w.1) (listeners w.2)
  ∧ is_Some (decorationTypes registered.2 !! namespaced withE1.1 "k")
  ∧ decorationTypes (dispose registered.1 registered.2).2 !! namespaced withE1.1 "k" = None.
Proof.
  intros w registered.
  destruct (dispose_releases_everything withE1.1 withE1.2) as (_ & Hheld & _ & Hreg & _).
  assert (H1 : callbacksHeld withE1.1 withE1.2).
  { unfold callbacksHeld. apply (bool_decide_unpack _). vm_compute. exact I. }
  split; [exact H1|]. split; [exact (Hheld H1)|].
  split; [vm_compute; by eexists|].
  exact (Hreg "ext" "k" {| dro_backgroundColor := None; dro_isWholeLine := false |}
              [Call (TrySetSelections "e1" []); HandleTextEditorAdded e2;
               Workbench (Fired VisibleEditorsChanged)]).
Defined.

Example callbacks_left_after_dispose :
  let w := handleTextEditorAdded e1 withE1.1 withE1.2 in
  sub_listener <$> listeners (dispose w.1 w.2).2
  = [onPropertiesChanged "e1";
     autorunDiffInformation "e1" (derivedDiffInformation 1%nat None)
       (Some {| documentVersion := 6; di_original := "git:/a.ts";
                di_modified := "file:///a.ts"; di_changes := [(3, 5, 3, 6)] |})]
  ∧ listeners (dispose withE1.1 withE1.2).2 = [].
Proof. split; vm_compute; reflexivity. Qed.

(** C10 read literally fails when the locator answers the empty string for a
    visible pane: [if (id)] drops it. *)
Lemma position_data_entries_counterexample :
  ¬ entryForEveryResolvedPane (workbench 6 (Some "") []).
Proof.
  intros H. destruct (proj2 (H "")) as [column Hcolumn].
  - exists paneB. split; [|vm_compute; reflexivity]. right. left.
  - vm_compute in Hcolumn. discriminate.
Qed.

Example position_data_empty_handle :
  _getTextEditorPositionData (workbench 6 (Some "") []) = {[ "A" := 1 ]}.
Proof. vm_compute; reflexivity. Qed.

(** Two bridges made one after the other on the sample host. *)
Lemma decoration_types_namespaced_witness :
  let this := fresh.1 in
  let this' := (constructor fresh.2).1 in
  INSTANCE_COUNT host ≠ INSTANCE_COUNT fresh.2
  ∧ namespaced this "k" = "1-k" ∧ namespaced this' "k" = "2-k"
  ∧ namespaced this "k" ≠ namespaced this' "k".
Proof.
  intros this this'.
  split; [vm_compute; discriminate|]. split; [vm_compute; reflexivity|].
  split; [vm_compute; reflexivity|].
  refine (proj1 (decoration_types_namespaced this this' host fresh.2 host "k" "k" "e1"
                   "ext" "ext" {| dro_backgroundColor := None; dro_isWholeLine := false |}
                   {| dro_backgroundColor := None; dro_isWholeLine := true |} [] [] _ _ _)).
  - reflexivity.
  - reflexivity.
  - vm_compute; discriminate.
Defined.

(** [e1] registered on the sample host; the model moves on to version 7
    between two recomputations and stays there for the third. *)
Lemma diff_information_forwarded_iff_changed_witness :
  let obs := derivedDiffInformation 1%nat None in
  let value version :=
    Some {| documentVersion := version; di_original := "git:/a.ts";
            di_modified := "file:///a.ts"; di_changes := [(3, 5, 3, 6)] |} in
  autorunsFor "e1" withE1.1 withE1.2 = [(obs, value 6)]
  ∧ lastDiffSent "e1" (_proxy withE1.1) = Some (value 6)
  ∧ diffsSent "e1"
      (_proxy (run (Workbench <$> [Fired DiffInformationInvalidated;
                                   Changed (workbench 7 (Some "B") []);
                                   Fired DiffInformationInvalidated;
                                   Fired DiffInformationInvalidated])
                   (withE1.1, withE1.2)).1)
    = [value 6; value 7].
Proof.
  intros obs value.
  split; [vm_compute; reflexivity|]. split; [vm_compute; reflexivity|].
  destruct (diff_information_forwarded_iff_changed "e1" obs (value 6)
              [Fired DiffInformationInvalidated; Changed (workbench 7 (Some "B") []);
               Fired DiffInformationInvalidated; Fired DiffInformationInvalidated]
              withE1.1 withE1.2) as [H _].
  - vm_compute; reflexivity.
  - vm_compute; reflexivity.
  - etrans; [exact H|]. vm_compute; reflexivity.
Defined.

(** An unknown handle, and [e2], which no pane shows. *)
Lemma show_hide_unknown_editor_witness :
  getEditor (env host) !! "missing" = None
  ∧ tryShowEditor "missing" (Some 1) host = (Promise_resolve (), host)
  ∧ tryHideEditor "missing" host = (Promise_resolve (), host)
  ∧ getEditor (env host) !! "e2" = Some e2
  ∧ Forall (fun editorPane => matches (env host) e2 editorPane = false)
           (visibleEditorPanes (env host))
  ∧ tryHideEditor "e2" host = (Promise_resolve (), host).
Proof.
  destruct (show_hide_unknown_editor host "missing" (Some 1)) as [Hmissing _].
  destruct (show_hide_unknown_editor host "e2" None) as [_ Hhidden].
  assert (H1 : getEditor (env host) !! "missing" = None) by (vm_compute; reflexivity).
  assert (H2 : getEditor (env host) !! "e2" = Some e2) by (vm_compute; reflexivity).
  assert (H3 : Forall (fun editorPane => matches (env host) e2 editorPane = false)
                      (visibleEditorPanes (env host)))
    by (repeat constructor).
  destruct (Hmissing H1) as [Hshow Hhide].
  exact (conj H1 (conj Hshow (conj Hhide (conj H2 (conj H3 (Hhidden e2 H2 H3)))))).
Defined.

(** The cases of [$getDiffInformation]: an unknown handle; an editor without
    code editor; [e2], whose code editor is the modified side of the second
    of three diff editors and the original side of the third, so that the one
    line change of the second is the answer; the same code editor when the
    only diff editor has no line changes yet; [e1], a plain code editor with
    the dirty-diff contribution, next to diff editors that show other code
    editors; and [e2] without any diff editor and without the contribution. *)
Lemma getDiffInformation_cases_witness :
  getDiffInformation "missing" host = Promise_reject (new_Error "No such TextEditor")
  ∧ getDiffInformation "e3" host = Promise_reject (new_Error "No such CodeEditor")
  ∧ getDiffInformation "e2" diffHost = Promise_resolve [lineChange]
  ∧ getDiffInformation "e2" (set_env (fun _ => workbench 6 None [5%nat]) host)
    = Promise_resolve []
  ∧ getDiffInformation "e1" diffHost = Promise_resolve [change]
  ∧ getDiffInformation "e2" host = Promise_resolve [].
Proof.
  destruct (getDiffInformation_cases host "missing") as [Hmissing _].
  destruct (getDiffInformation_cases host "e3") as [_ He3].
  destruct (getDiffInformation_cases diffHost "e2") as [_ Hfirst].
  destruct (getDiffInformation_cases (set_env (fun _ => workbench 6 None [5%nat]) host) "e2")
    as [_ Hdiff].
  destruct (getDiffInformation_cases diffHost "e1") as [_ He1].
  destruct (getDiffInformation_cases host "e2") as [_ He2].
  split_and!.
  - apply Hmissing. vm_compute; reflexivity.
  - apply (He3 e3); vm_compute; reflexivity.
  - apply (proj1 (proj2 (Hfirst e2 ltac:(vm_compute; reflexivity)) 7%nat
                    ltac:(vm_compute; reflexivity)) [4%nat] 5%nat [6%nat]).
    + reflexivity.
    + repeat constructor; vm_compute; discriminate.
    + right. vm_compute; reflexivity.
  - apply (proj1 (proj2 (Hdiff e2 ltac:(vm_compute; reflexivity)) 7%nat
                    ltac:(vm_compute; reflexivity)) [] 5%nat []).
    + reflexivity.
    + constructor.
    + left. vm_compute; reflexivity.
  - apply (proj1 (proj2 (proj2 (He1 e1 ltac:(vm_compute; reflexivity)) 1%nat
                           ltac:(vm_compute; reflexivity))
                    ltac:(repeat constructor; vm_compute; discriminate)) [change]).
    vm_compute; reflexivity.
  - apply (proj2 (proj2 (proj2 (He2 e2 ltac:(vm_compute; reflexivity)) 7%nat
                           ltac:(vm_compute; reflexivity))
                    ltac:(constructor))).
    vm_compute; reflexivity.
Defined.

End sample.

(** * Further properties of the bridge *)

(** ** Position data, continued *)

Section position_more.
Implicit Types (this : MainThreadTextEditors) (h : Host) (env : Env).

(** X1. From its construction on and whatever is done with it (editors added
    and removed, events, commands, disposal), the bridge's
    [_editorPositionData] is the position data it last sent to the peer, and
    [null] as long as it has sent none. *)
Theorem position_data_is_last_sent (ops : list Op) h :
  let w := run ops (constructor h) in
  _editorPositionData w.1 = lastPositionSent (_proxy w.1).
Proof. apply run_position_sync. Qed.

(** X2. The first trigger after construction always sends the computed
    mapping, whichever of the three events it is and whatever the mapping is
    (the empty one too): [null] is equal to no mapping. *)
Theorem first_trigger_always_sends h :
  let this := (constructor h).1 in
  let h' := (constructor h).2 in
  let sent := [acceptEditorPositionData (_getTextEditorPositionData (env h))] in
  _proxy (fire VisibleEditorsChanged this h').1 = sent
  ∧ _proxy (fire GroupRemoved this h').1 = sent
  ∧ _proxy (fire GroupMoved this h').1 = sent.
Proof.
  intros this h' sent. subst this h'.
  pose proof (constructor_subscribed h) as Hsub.
  split_and!; rewrite fire_trigger by done; done.
Qed.

Lemma filter_handle_unique (panes : list IEditorPane) (f : IEditorPane → option string)
    (id : string) :
  NoDup (omap f panes) →
  (length (filter (fun editorPane => f editorPane = Some id) panes) ≤ 1)%nat.
Proof.
  induction panes as [|pane panes IH]; [simpl; lia|].
  rewrite omap_cons_match, filter_cons. destruct (f pane) as [id'|] eqn:Hf.
  - intros [Hnotin Hnodup]%NoDup_cons. case_decide as Hid; [|by apply IH].
    injection Hid as ->.
    assert (Hnil : filter (fun editorPane => f editorPane = Some id) panes = []).
    { destruct (filter _ panes) as [|pane' l] eqn:Hfilter; [done|]. exfalso.
      assert (Hin : pane' ∈ filter (fun editorPane => f editorPane = Some id) panes)
        by (rewrite Hfilter; left).
      apply list_elem_of_filter in Hin as [Hf' Hin].
      apply Hnotin, list_elem_of_omap. eauto. }
    rewrite Hnil. simpl. lia.
  - intros Hnodup. rewrite decide_False by done. by apply IH.
Qed.

Lemma Permutation_short {A} (l1 l2 : list A) :
  l1 ≡ₚ l2 → (length l2 ≤ 1)%nat → l1 = l2.
Proof.
  intros Hperm Hlen. destruct l2 as [|x [|y l2]]; simpl in Hlen; [| |lia].
  - by apply Permutation_nil_r.
  - by apply Permutation_singleton_r.
Qed.

(** X3. When no two visible panes share a handle, the mapping does not depend
    on the order in which the editor service lists the panes; a trigger that
    comes after a mere reordering therefore sends nothing. *)
Theorem position_data_ignores_pane_order (panes : list IEditorPane) env this :
  panes ≡ₚ visibleEditorPanes env →
  NoDup (visibleHandles env) →
  _getTextEditorPositionData (withVisiblePanes panes env) = _getTextEditorPositionData env
  ∧ _updateActiveAndVisibleTextEditors (withVisiblePanes panes env)
      (_updateActiveAndVisibleTextEditors env this)
    = _updateActiveAndVisibleTextEditors env this.
Proof.
  intros Hperm Hnodup.
  assert (Heq : _getTextEditorPositionData (withVisiblePanes panes env)
                = _getTextEditorPositionData env).
  { apply map_eq. intros id. rewrite !getTextEditorPositionData_lookup.
    unfold panesOf. simpl. do 2 f_equal.
    apply Permutation_short.
    - by apply filter_Permutation.
    - by apply filter_handle_unique. }
  split; [done|].
  unfold _updateActiveAndVisibleTextEditors at 1.
  rewrite update_editorPositionData, Heq. unfold objectEquals.
  by rewrite bool_decide_eq_true_2.
Qed.

End position_more.

(** ** Commands, continued *)

Section commands_more.
Implicit Types (this : MainThreadTextEditors) (h : Host) (id key : string).

(** X4. A command from the extension host that does not wait for the editor
    service (every one but [$tryShowTextDocument], [$tryShowEditor] and
    [$tryHideEditor]) subscribes and unsubscribes nothing: the listeners of
    the host, the listener bundles, [_toDispose], the last position data and
    the instance id are the same after it.  What it makes the bridge send is
    what the callbacks of [handleTextEditorAdded] forward while the editor it
    works on fires [onPropertiesChanged]: properties-changed notifications,
    never position data or diff information, and nothing at all when the
    command resolves no editor. *)
Theorem commands_leave_subscriptions (c : Command) this h :
  awaitsEditorService c = false →
  let w := call c this h in
  listeners w.2 = listeners h
  ∧ _textEditorsListenersMap w.1 = _textEditorsListenersMap this
  ∧ _toDispose w.1 = _toDispose this
  ∧ _editorPositionData w.1 = _editorPositionData this
  ∧ _instanceId w.1 = _instanceId this
  ∧ _proxy w.1 = _proxy this ++ propertiesSent c this h
  ∧ positionsSent (_proxy w.1) = positionsSent (_proxy this)
  ∧ (∀ id, diffsSent id (_proxy w.1) = diffsSent id (_proxy this))
  ∧ ((∀ id, editorOf c = Some id → getEditor (env h) !! id = None) →
     _proxy w.1 = _proxy this).
Proof.
  intros _ w. subst w.
  destruct (call_frame c this h) as (_ & Hl & Hp & Hi & Hm & Ht & Hd & _).
  split_and!; try done.
  - by rewrite Hp, positionsSent_app, positionsSent_propertiesSent, app_nil_r.
  - intros id. rewrite Hp. unfold diffsSent at 1. rewrite omap_app.
    fold (diffsSent id (propertiesSent c this h)).
    by rewrite diffsSent_propertiesSent, app_nil_r.
  - intros Hnone. by rewrite Hp, propertiesSent_unknown, app_nil_r.
Qed.

(** X6. [$tryShowTextDocument] asks the editor service once, for the given
    resource, with [override] set to exclusive-only and with [activation] set
    to restore exactly when [preserveFocus] is [true]; nothing else of the
    host changes.  It is rejected exactly when [openEditor] is, with the same
    error.  It answers with a handle only when the editor service opened a
    pane, the pane has a code editor and the locator knows that code
    editor. *)
Theorem showTextDocument_outcome (resource : URI) (options : ITextDocumentShowOptions) h :
  let group := columnToEditorGroup (env h) (show_position options) in
  ∃ editorOptions : ITextEditorOptions,
    (tryShowTextDocument resource options h).2
    = set_editorRequests (fun rs => rs ++ [openEditor resource editorOptions group]) h
    ∧ override editorOptions = Some EXCLUSIVE_ONLY
    ∧ (activation editorOptions = Some RESTORE ↔ show_preserveFocus options = Some true)
    ∧ preserveFocus editorOptions = show_preserveFocus options
    ∧ pinned editorOptions = show_pinned options
    ∧ selection editorOptions = show_selection options
    ∧ (∀ e, (tryShowTextDocument resource options h).1 = Promise_reject e
            ↔ openEditorResult (env h) resource group = Promise_reject e)
    ∧ (∀ id, (tryShowTextDocument resource options h).1 = Promise_resolve (Some id)
             ↔ ∃ editorPane c,
                 openEditorResult (env h) resource group = Promise_resolve (Some editorPane)
                 ∧ pane_control editorPane = Some c
                 ∧ getIdOfCodeEditor (env h) c = Some id).
Proof.
  intros group. subst group. unfold tryShowTextDocument.
  destruct (openEditorResult _ _ _) as [[pane|]|e'] eqn:Hopen;
    [destruct (pane_control pane) as [c|] eqn:Hcontrol| |];
    eexists; (split; [reflexivity|]); simpl; split_and!; try done.
  all: try (destruct (show_preserveFocus options) as [[]|]; simpl; split; congruence).
  - intros id. split; [intros [= Hid]; by exists pane, c|].
    intros (pane' & c' & [= <-] & Hc & Hid). congruence.
  - intros id. split; [done|]. intros (pane' & c' & [= <-] & Hc & Hid). congruence.
  - intros id. split; [done|]. by intros (pane' & c' & [=] & _).
  - intros id. split; [done|]. by intros (pane' & c' & [=] & _).
Qed.



End commands_more.

(** ** Decoration types, continued *)

Section decorations_more.
Implicit Types (this : MainThreadTextEditors) (h : Host) (id key : string).

Lemma set_registeredDecorationTypes_same this :
  set_registeredDecorationTypes (_registeredDecorationTypes this) this = this.
Proof. by destruct this. Qed.

Lemma set_decorationTypes_same h (m : gmap string (string * IDecorationRenderOptions)) :
  m = decorationTypes h → set_decorationTypes (fun _ => m) h = h.
Proof. intros ->. by destruct h. Qed.

(** X8. Registering a decoration type under a key that is not yet there and
    removing it again gives back the bridge and the host as they were;
    removing a key that was never registered changes nothing; and registering
    a key a second time leaves the registry as after the first time. *)
Theorem register_remove_roundtrip (extensionId extensionId' key : string)
    (options options' : IDecorationRenderOptions) this h :
  _registeredDecorationTypes this !! namespaced this key = None →
  decorationTypes h !! namespaced this key = None →
  let w := registerTextEditorDecorationType extensionId key options this h in
  removeTextEditorDecorationType key w.1 w.2 = (this, h)
  ∧ removeTextEditorDecorationType key this h = (this, h)
  ∧ _registeredDecorationTypes
      (registerTextEditorDecorationType extensionId' key options' w.1 w.2).1
    = _registeredDecorationTypes w.1.
Proof.
  intros Hregistry Hservice w. subst w.
  unfold removeTextEditorDecorationType, registerTextEditorDecorationType,
    removeDecorationType, registerDecorationType, set_decorationTypes,
    set_registeredDecorationTypes, namespaced in *.
  destruct this as [i p t m d r], h as [n ls nd dt rs e]. simpl in *.
  split_and!.
  - by rewrite !delete_insert_id.
  - by rewrite !delete_id.
  - by rewrite insert_insert_eq.
Qed.

Lemma ownKey_instanceId this this' (k : string) :
  _instanceId this' = _instanceId this → ownKey this k → ownKey this' k.
Proof. unfold ownKey, namespaced. by intros ->. Qed.

Lemma step_registry_namespaced w op :
  map_Forall (fun k _ => ownKey w.1 k) (_registeredDecorationTypes w.1) →
  map_Forall (fun k _ => ownKey (step w op).1 k) (_registeredDecorationTypes (step w op).1).
Proof.
  pose proof (step_instanceId w op) as Hi.
  destruct w as [this h]. simpl in *. intros Hall.
  assert (Hsame : _registeredDecorationTypes (step (this, h) op).1
                  = _registeredDecorationTypes this →
    map_Forall (fun k _ => ownKey (step (this, h) op).1 k)
               (_registeredDecorationTypes (step (this, h) op).1)).
  { intros ->. intros k b Hk. eapply ownKey_instanceId; [done|]. by eapply Hall. }
  destruct op as [te|id| |[env'|ev]|c]; simpl in *; try by apply Hsame.
  - unfold dispose. destruct (DisposableStore_dispose _ _). simpl. apply map_Forall_empty.
  - apply Hsame. unfold fire.
    pose proof (notify_registry ev (env h) (listeners h) this).
    by destruct (notify _ _ _ _).
  - destruct (call_frame c this h) as (_ & _ & _ & Hc & _ & _ & _ & Hr).
    rewrite Hr.
    assert (Hcmd : map_Forall (fun k _ => ownKey this k)
                              (_registeredDecorationTypes (command c this h).1)).
    { destruct c; try done; simpl.
      + apply map_Forall_insert_2; [by eexists|done].
      + by apply map_Forall_delete. }
    intros k b Hk. eapply ownKey_instanceId; [exact Hc|]. by eapply Hcmd.
Qed.

Lemma run_registry_namespaced (ops : list Op) h :
  let w := run ops (constructor h) in
  map_Forall (fun k _ => ownKey w.1 k) (_registeredDecorationTypes w.1).
Proof.
  intros w. subst w. induction ops as [|op ops IH] using rev_ind.
  - apply map_Forall_empty.
  - rewrite run_app. by apply step_registry_namespaced.
Qed.

(** X9. Whatever is done with a bridge, every key in its registry of
    decoration types carries the prefix of its own instance id, and the
    instance id itself never changes. *)
Theorem registry_keys_namespaced (ops : list Op) h :
  let w := run ops (constructor h) in
  map_Forall (fun k _ => ownKey w.1 k) (_registeredDecorationTypes w.1)
  ∧ _instanceId w.1 = pretty (INSTANCE_COUNT h + 1)%N.
Proof.
  intros w. split; [apply run_registry_namespaced|].
  subst w. induction ops as [|op ops IH] using rev_ind; [done|].
  rewrite run_app. cbn [run foldl]. by rewrite step_instanceId.
Qed.

(** X10. Disposing a bridge leaves the decoration types of every other bridge
    in the rendering service: a key with the prefix of a bridge made at
    another value of the instance counter is there after the disposal exactly
    when it was there before. *)
Theorem dispose_spares_other_bridges (ops : list Op) h1 h2 h this' (key' : string) :
  _instanceId this' = _instanceId (constructor h2).1 →
  INSTANCE_COUNT h1 ≠ INSTANCE_COUNT h2 →
  let this := (run ops (constructor h1)).1 in
  decorationTypes (dispose this h).2 !! namespaced this' key'
  = decorationTypes h !! namespaced this' key'.
Proof.
  intros Hthis' Hcount this.
  destruct (dispose_effect this h) as (_ & Hd & _). rewrite Hd.
  case_decide as Hin; [|done]. exfalso.
  destruct Hin as [b Hb].
  pose proof (run_registry_namespaced ops h1) as Hall. simpl in Hall.
  apply Hall in Hb as [key Hkey].
  assert (Hi : _instanceId this = _instanceId (constructor h1).1).
  { subst this. clear. induction ops as [|op ops IH] using rev_ind; [done|].
    rewrite run_app. cbn [run foldl]. by rewrite step_instanceId. }
  symmetry in Hkey. revert Hkey. by eapply namespaced_ne.
Qed.

(** X11. Decorations set under [key] through a bridge land, in the editor,
    under the very key under which that bridge registered the decoration type
    [key] with the rendering service. *)
Theorem decorations_set_under_registered_key (extensionId key id : string)
    (options : IDecorationRenderOptions) (ranges : list IDecorationOptions)
    (editor : MainThreadTextEditor) this h :
  getEditor (env h) !! id = Some editor →
  let w := registerTextEditorDecorationType extensionId key options this h in
  let h' := (trySetDecorations id key ranges w.1 w.2).2 in
  ∃ editor' k,
    getEditor (env h') !! id = Some editor'
    ∧ te_decorations editor' !! k = Some (DecorationOptions ranges)
    ∧ decorationTypes h' !! k = Some ("exthost-api-" +:+ extensionId, options)
    ∧ _registeredDecorationTypes w.1 !! k = Some true.
Proof.
  intros He w h'. subst w h'. unfold trySetDecorations. simpl. rewrite He. simpl.
  eexists _, (namespaced this key). rewrite !lookup_insert_eq. split_and!; try done.
  simpl. apply lookup_insert_eq.
Qed.

End decorations_more.

(** ** Listener bundles, continued *)

Section bundles_more.
Implicit Types (this : MainThreadTextEditors) (h : Host) (ls : list Subscription) (id : string).

Lemma filter_Forall {A} (P : A → Prop) `{!∀ x, Decision (P x)} (l : list A) :
  Forall P l → filter P l = l.
Proof.
  induction 1 as [|x l Hx _ IH]; [done|].
  rewrite filter_cons_True by done. by f_equal.
Qed.

Lemma notify_properties id (data : IEditorPropertiesChangeData) env ls this :
  (notify (PropertiesChanged id data) env ls this).1 = ls
  ∧ _proxy (notify (PropertiesChanged id data) env ls this).2
    = _proxy this
      ++ replicate
           (length (filter (fun s => sub_owner s = _instanceId this
                                     ∧ sub_listener s = onPropertiesChanged id) ls))
           (acceptEditorPropertiesChanged id data).
Proof.
  revert this. induction ls as [|s ls IH]; intros this; cbn [notify].
  { simpl. by rewrite app_nil_r. }
  rewrite filter_cons.
  destruct (decide (sub_owner s = _instanceId this ∧ sub_listener s = onPropertiesChanged id))
    as [[Hown Hl]|Hnot].
  - rewrite bool_decide_eq_true_2 by done. unfold deliver. rewrite Hl.
    rewrite bool_decide_eq_true_2 by done.
    destruct (IH (send (acceptEditorPropertiesChanged id data) this)) as [IH1 IH2].
    destruct (notify _ env ls (send _ this)) as [ls' this']. simpl in *.
    subst ls'. split; [done|]. rewrite IH2. by rewrite <-app_assoc.
  - assert (Hsame : (if bool_decide (sub_owner s = _instanceId this)
                     then deliver (PropertiesChanged id data) env s this else (s, this))
                    = (s, this)).
    { case_bool_decide as Hown; [|done]. unfold deliver.
      destruct (sub_listener s) as [| | |id'|]; try done.
      case_bool_decide as Hid; [|done]. subst id'. tauto. }
    rewrite Hsame. destruct (IH this) as [IH1 IH2].
    destruct (notify _ env ls this) as [ls' this']. simpl in *. by subst ls'.
Qed.

(** X12. When the editor [id] fires [onPropertiesChanged], the bridge sends
    one properties-changed notification for [id], with the data of the event,
    per callback it has on that editor, and nothing else; the subscriptions
    stay as they are.  (One callback for an editor added once; none once it
    is removed.) *)
Theorem properties_changed_forwarded id (data : IEditorPropertiesChangeData) this h :
  let w := fire (PropertiesChanged id data) this h in
  _proxy w.1
  = _proxy this
    ++ replicate (length (propertyListeners id this h)) (acceptEditorPropertiesChanged id data)
  ∧ w.2 = h.
Proof.
  intros w. subst w. unfold fire, propertyListeners.
  destruct (notify_properties id data (env h) (listeners h) this) as [Hl Hp].
  destruct (notify _ _ _ _) as [ls this']. simpl in *. subst ls.
  split; [done|]. apply set_listeners_same.
Qed.

(** X13. Adding an editor under a handle that has no bundle and removing it
    again leaves the subscriptions, the listener map and the workbench as
    they were; what remains is the one diff-information notification that the
    autorun sent when it was created, and two disposables used up. *)
Theorem add_remove_roundtrip (textEditor : MainThreadTextEditor) this h :
  _textEditorsListenersMap this !! te_getId textEditor = None →
  disposablesIssued h →
  let added := handleTextEditorAdded textEditor this h in
  let w := handleTextEditorRemoved (te_getId textEditor) added.1 added.2 in
  listeners w.2 = listeners h
  ∧ _textEditorsListenersMap w.1 = _textEditorsListenersMap this
  ∧ _proxy w.1
    = _proxy this
      ++ [acceptEditorDiffInformation (te_getId textEditor)
            (read (env h) (_getTextEditorDiffInformation (env h) textEditor))]
  ∧ env w.2 = env h
  ∧ nextDisposable w.2 = S (S (nextDisposable h)).
Proof.
  intros Hnone Hissued added w. subst added w.
  unfold handleTextEditorRemoved. cbn [fst snd].
  assert (Hmap : _textEditorsListenersMap (handleTextEditorAdded textEditor this h).1
                 = <[te_getId textEditor := [nextDisposable h; S (nextDisposable h)]]>
                     (_textEditorsListenersMap this)) by done.
  rewrite Hmap, lookup_insert_eq. split_and!; try done.
  - rewrite listeners_dispose_all. simpl.
    rewrite !filter_app, !filter_cons, !filter_nil. simpl.
    rewrite decide_False by (intros Hnot; apply Hnot; left).
    rewrite decide_False by (intros Hnot; apply Hnot; right; left).
    rewrite !app_nil_r. apply filter_Forall.
    eapply Forall_impl; [exact Hissued|]. simpl. intros s Hlt Hin.
    apply elem_of_cons in Hin as [?|Hin]; [lia|].
    apply elem_of_cons in Hin as [?|Hin]; [lia|]. by apply elem_of_nil in Hin.
  - simpl. by rewrite delete_insert_id.
Qed.

(** X14. Removing an editor twice is the same as removing it once: the second
    [handleTextEditorRemoved] finds no bundle and changes nothing. *)
Theorem remove_twice id this h :
  let w := handleTextEditorRemoved id this h in
  handleTextEditorRemoved id w.1 w.2 = w.
Proof.
  intros w. subst w. unfold handleTextEditorRemoved. cbn [fst snd].
  cbn [_textEditorsListenersMap set_textEditorsListenersMap].
  rewrite lookup_delete_eq. cbn [dispose_all].
  rewrite (delete_id (delete id _)) by apply lookup_delete_eq.
  by destruct this.
Qed.

Lemma run_bundlesComplete (ops : list Op) w :
  bundlesComplete w.1 w.2 = true →
  respectsBundles ops w = true →
  bundlesComplete (run ops w).1 (run ops w).2 = true.
Proof.
  revert w. induction ops as [|op ops IH]; intros w Hcomplete Hops; [done|].
  simpl in Hops. apply andb_prop in Hops as [Hop Hops].
  rewrite run_cons. apply IH; [|done]. by apply step_bundlesComplete.
Qed.

(** X15. A bridge made on a host that has no callbacks under its instance id
    keeps every callback for an editor in that editor's bundle, as long as no
    editor is added under a handle that still has a bundle; removing an
    editor then always releases all of its callbacks. *)
Theorem bundles_stay_complete (ops : list Op) h :
  Forall (fun s => sub_owner s ≠ pretty (INSTANCE_COUNT h + 1)%N) (listeners h) →
  respectsBundles ops (constructor h) = true →
  let w := run ops (constructor h) in
  bundlesComplete w.1 w.2 = true
  ∧ ∀ id, silent id (handleTextEditorRemoved id w.1 w.2).1 (handleTextEditorRemoved id w.1 w.2).2.
Proof.
  intros Hclean Hops w.
  assert (Hcomplete : bundlesComplete w.1 w.2 = true).
  { apply run_bundlesComplete; [|done]. by apply constructor_bundlesComplete. }
  split; [done|]. intros id. by apply removed_silent.
Qed.

Lemma elem_of_bundleDisposables this (d : nat) :
  d ∈ bundleDisposables this
  ↔ ∃ (k : string) (ds : list nat), _textEditorsListenersMap this !! k = Some ds ∧ d ∈ ds.
Proof.
  unfold bundleDisposables. rewrite list_elem_of_bind. split.
  - intros ([k ds] & Hd & Hin%elem_of_map_to_list). eauto.
  - intros (k & ds & Hk & Hd). exists (k, ds). split; [done|]. by apply elem_of_map_to_list.
Qed.

Lemma callbacksHeld_spec this h :
  callbacksHeld this h ↔
  ∀ s, s ∈ listeners h → sub_owner s = _instanceId this →
       (∃ (k : string) (ds : list nat),
          _textEditorsListenersMap this !! k = Some ds ∧ sub_disposable s ∈ ds)
       ∨ sub_disposable s ∈ pending (_toDispose this).
Proof.
  unfold callbacksHeld. rewrite Forall_forall.
  by setoid_rewrite elem_of_app; setoid_rewrite elem_of_bundleDisposables.
Qed.

Lemma constructor_callbacksHeld h :
  Forall (fun s => sub_owner s ≠ pretty (INSTANCE_COUNT h + 1)%N) (listeners h) →
  callbacksHeld (constructor h).1 (constructor h).2.
Proof.
  intros Hclean. apply callbacksHeld_spec. simpl. intros s Hin Hown.
  rewrite <-!app_assoc in Hin. apply elem_of_app in Hin as [Hin|Hin].
  - rewrite Forall_forall in Hclean. by apply Hclean in Hin.
  - right. unfold pending. simpl in *.
    repeat (apply elem_of_cons in Hin as [->|Hin]; [set_solver|]).
    by apply elem_of_nil in Hin.
Qed.

Lemma deliver_toDispose ev env s this :
  _toDispose (deliver ev env s this).2 = _toDispose this.
Proof.
  unfold deliver, _updateActiveAndVisibleTextEditors, isTextEditorDiffInformationEqual.
  destruct ev, (sub_listener s); simpl; repeat case_bool_decide; simpl; try done;
    by destruct (negb _).
Qed.

Lemma notify_toDispose ev env ls this :
  _toDispose (notify ev env ls this).2 = _toDispose this.
Proof.
  revert this. induction ls as [|s ls IH]; intros this; cbn [notify]; [done|].
  case_bool_decide.
  - pose proof (deliver_toDispose ev env s this) as Hd.
    destruct (deliver ev env s this) as [s' this'].
    specialize (IH this'). destruct (notify ev env ls this') as [ls' this''].
    simpl in *. by rewrite IH.
  - specialize (IH this). by destruct (notify ev env ls this).
Qed.

Lemma step_callbacksHeld w op :
  callbacksHeld w.1 w.2 →
  freshHandle w.1 op = true →
  callbacksHeld (step w op).1 (step w op).2.
Proof.
  destruct w as [this h]. rewrite !callbacksHeld_spec. simpl. intros Hall Hfresh.
  destruct op as [te|id'| |[env'|ev]|c]; simpl in *.
  - apply bool_decide_eq_true in Hfresh.
    intros s Hin Hown. simpl in *. rewrite <-!app_assoc in Hin.
    apply elem_of_app in Hin as [Hin|Hin].
    + destruct (Hall s Hin Hown) as [(k & ds & Hk & Hd)|Hp]; [|by right].
      left. exists k, ds. split; [|done].
      rewrite lookup_insert_ne; [done|]. intros <-. congruence.
    + left. eexists (te_getId te), _. rewrite lookup_insert_eq. split; [done|].
      simpl in Hin. repeat (apply elem_of_cons in Hin as [->|Hin]; [set_solver|]).
      by apply elem_of_nil in Hin.
  - intros s. rewrite listeners_dispose_all.
    intros [Hout Hin]%list_elem_of_filter Hown. simpl in *.
    destruct (Hall s Hin Hown) as [(k & ds & Hk & Hd)|Hp]; [|by right].
    left. exists k, ds. split; [|done].
    rewrite lookup_delete_ne; [done|]. intros <-. by rewrite Hk in Hout.
  - destruct (dispose_effect this h) as (Hl & _).
    destruct (dispose_frame this h) as (_ & Hi).
    destruct (dispose this h) as [this' h']. simpl in *.
    intros s. rewrite Hl. intros [Hout Hin]%list_elem_of_filter Hown. exfalso.
    rewrite Hi in Hown. apply Hout, elem_of_app.
    destruct (Hall s Hin Hown) as [Hb|Hp]; [left|by right].
    by apply elem_of_bundleDisposables.
  - done.
  - unfold fire.
    pose proof (notify_instanceId ev (env h) (listeners h) this) as Hi.
    pose proof (notify_sameSubscription ev (env h) (listeners h) this) as Hs.
    pose proof (notify_listenersMap ev (env h) (listeners h) this) as Hm.
    pose proof (notify_toDispose ev (env h) (listeners h) this) as Ht.
    destruct (notify _ _ _ _) as [ls' this']. simpl in *.
    intros s' Hin Hown. rewrite Hm, Ht.
    apply list_elem_of_lookup in Hin as [i Hi'].
    destruct (Forall2_lookup_r _ _ _ _ _ Hs Hi') as (s & Hls & Hd & Ho & _).
    rewrite <-Hd. apply Hall; [by eapply list_elem_of_lookup_2|].
    by rewrite Ho, Hown.
  - destruct (call_frame c this h) as (_ & Hl & _ & Hi & Hm & Ht & _).
    destruct (call c this h) as [this' h']. simpl in *.
    intros s. rewrite Hl, Hm, Hi, Ht. apply Hall.
Qed.

Lemma run_callbacksHeld (ops : list Op) w :
  callbacksHeld w.1 w.2 →
  respectsBundles ops w = true →
  callbacksHeld (run ops w).1 (run ops w).2.
Proof.
  revert w. induction ops as [|op ops IH]; intros w Hheld Hops; [done|].
  simpl in Hops. apply andb_prop in Hops as [Hop Hops].
  rewrite run_cons. apply IH; [|done]. by apply step_callbacksHeld.
Qed.

Lemma notify_foreign ev env ls this :
  Forall (fun s => sub_owner s ≠ _instanceId this) ls →
  notify ev env ls this = (ls, this).
Proof.
  induction 1 as [|s ls Hs _ IH]; cbn [notify]; [done|].
  by rewrite bool_decide_eq_false_2, IH.
Qed.

Lemma run_foreign (steps : list WorkbenchStep) this h :
  Forall (fun s => sub_owner s ≠ _instanceId this) (listeners h) →
  (run (Workbench <$> steps) (this, h)).1 = this.
Proof.
  revert h. induction steps as [|s steps IH]; intros h Hforeign; [done|].
  rewrite fmap_cons, run_cons. destruct s as [env'|ev]; cbn [step workbench fst snd].
  - by apply IH.
  - unfold fire. rewrite notify_foreign by done. simpl. apply IH.
    by rewrite set_listeners_same.
Qed.

(** X16. Disposal is final.  For a bridge made on a host that has no callbacks
    under its instance id and used without adding an editor under a handle
    that still has a bundle, [dispose] leaves no callback of the bridge
    behind, so nothing the workbench does afterwards changes the bridge or
    makes it send anything. *)
Theorem nothing_sent_after_dispose (ops : list Op) (steps : list WorkbenchStep) h :
  Forall (fun s => sub_owner s ≠ pretty (INSTANCE_COUNT h + 1)%N) (listeners h) →
  respectsBundles ops (constructor h) = true →
  let w := run ops (constructor h) in
  let disposed := dispose w.1 w.2 in
  Forall (fun s => sub_owner s ≠ _instanceId disposed.1) (listeners disposed.2)
  ∧ (run (Workbench <$> steps) (disposed.1, disposed.2)).1 = disposed.1
  ∧ _proxy disposed.1 = _proxy w.1.
Proof.
  intros Hclean Hops w disposed.
  assert (Hheld : callbacksHeld w.1 w.2).
  { apply run_callbacksHeld; [|done]. by apply constructor_callbacksHeld. }
  destruct (dispose_effect w.1 w.2) as (Hl & _).
  destruct (dispose_frame w.1 w.2) as (Hp & Hi).
  fold disposed in Hl, Hp, Hi.
  assert (Hforeign : Forall (fun s => sub_owner s ≠ _instanceId disposed.1)
                            (listeners disposed.2)).
  { rewrite Hl, Hi. unfold callbacksHeld in Hheld. rewrite Forall_forall in Hheld |- *.
    intros s [Hout Hin]%list_elem_of_filter Hown. by apply Hout, Hheld. }
  split_and!; [done| |done]. by apply run_foreign.
Qed.

End bundles_more.

(** ** Diff information, continued *)

Section diff_more.
Implicit Types (this : MainThreadTextEditors) (h : Host) (env : Env) (id : string).




End diff_more.

(** ** The command [_workbench.revertAllDirty] *)

Section revert.

Lemma revertEach_outcome (copies : list IWorkingCopy) (calls : list WorkingCopyCall) :
  (Forall (fun workingCopy => wc_revert workingCopy = None) copies
   ∧ revertEach copies calls
     = (Promise_resolve (),
        calls ++ ((fun workingCopy => revert (wc_resource workingCopy) {| soft := true |})
                  <$> copies)))
  ∨ ∃ before workingCopy e after,
      copies = before ++ workingCopy :: after
      ∧ Forall (fun workingCopy => wc_revert workingCopy = None) before
      ∧ wc_revert workingCopy = Some e
      ∧ revertEach copies calls
        = (Promise_reject e,
           calls ++ ((fun workingCopy => revert (wc_resource workingCopy) {| soft := true |})
                     <$> before ++ [workingCopy])).
Proof.
  revert calls. induction copies as [|wc copies IH]; intros calls.
  { left. split; [done|]. simpl. by rewrite app_nil_r. }
  simpl. destruct (wc_revert wc) as [e|] eqn:Hwc.
  - right. exists [], wc, e, copies. by split_and!.
  - destruct (IH (calls ++ [revert (wc_resource wc) {| soft := true |}]))
      as [[Hall ->]|(before & wc' & e & after & -> & Hbefore & Hwc' & ->)].
    + left. split; [by constructor|]. by rewrite <-app_assoc.
    + right. exists (wc :: before), wc', e, after.
      split_and!; [done|by constructor|done|]. by rewrite <-app_assoc.
Qed.

(** X19. [_workbench.revertAllDirty] outside extension tests is rejected with
    its message and reverts nothing.  When running extension tests it reverts
    the dirty working copies one after the other, in order and softly; if all
    reverts succeed it resolves having reverted every one of them, and
    otherwise it is rejected with the error of the first revert that fails,
    the working copies after that one being left as they are. *)
Theorem revertAllDirty_outcome (uri : URI) (dirtyWorkingCopies : list IWorkingCopy)
    (calls : list WorkingCopyCall) :
  revertAllDirty None dirtyWorkingCopies calls
  = (Promise_reject (new_Error "Command is only available when running extension tests."),
     calls)
  ∧ ((Forall (fun workingCopy => wc_revert workingCopy = None) dirtyWorkingCopies
      ∧ revertAllDirty (Some uri) dirtyWorkingCopies calls
        = (Promise_resolve (),
           calls ++ ((fun workingCopy => revert (wc_resource workingCopy) {| soft := true |})
                     <$> dirtyWorkingCopies)))
     ∨ ∃ before workingCopy e after,
         dirtyWorkingCopies = before ++ workingCopy :: after
         ∧ Forall (fun workingCopy => wc_revert workingCopy = None) before
         ∧ wc_revert workingCopy = Some e
         ∧ revertAllDirty (Some uri) dirtyWorkingCopies calls
           = (Promise_reject e,
              calls ++ ((fun workingCopy => revert (wc_resource workingCopy) {| soft := true |})
                        <$> before ++ [workingCopy]))).
Proof. split; [done|]. apply revertEach_outcome. Qed.

End revert.

(** ** Instances *)

Section instances.

(** X20. Bridges made one after the other, with anything done to the first in
    between, have different instance ids, and so no key of the one is a key
    of the other, whatever the extensions' own keys are. *)
Theorem later_bridge_has_other_keys (ops : list Op) (h : Host) (key key' : string) :
  let w := run ops (constructor h) in
  let later := (constructor w.2).1 in
  _instanceId later ≠ _instanceId w.1
  ∧ namespaced w.1 key ≠ namespaced later key'.
Proof.
  intros w later.
  assert (Hi : _instanceId w.1 = _instanceId (constructor h).1).
  { subst w. clear. induction ops as [|op ops IH] using rev_ind; [done|].
    rewrite run_app. cbn [run foldl]. by rewrite step_instanceId. }
  split.
  - rewrite Hi. apply later_instance_differs.
  - apply (namespaced_ne w.1 later h w.2); [done..|].
    subst w. rewrite run_INSTANCE_COUNT, constructor_INSTANCE_COUNT. lia.
Qed.

End instances.

(** ** The further properties on the sample workbench *)

Section sample_more.
Import Sample.

(** Panes A and B listed the other way round. *)
Lemma position_data_ignores_pane_order_witness :
  [paneB; paneA] ≡ₚ visibleEditorPanes (env host)
  ∧ NoDup (visibleHandles (env host))
  ∧ _getTextEditorPositionData (withVisiblePanes [paneB; paneA] (env host))
    = _getTextEditorPositionData (env host).
Proof.
  assert (H1 : [paneB; paneA] ≡ₚ visibleEditorPanes (env host)) by apply perm_swap.
  assert (H2 : NoDup (visibleHandles (env host))).
  { apply (bool_decide_unpack _). vm_compute. exact I. }
  exact (conj H1 (conj H2
           (proj1 (position_data_ignores_pane_order [paneB; paneA] (env host) fresh.1 H1 H2)))).
Defined.

(** Opening a resource that the editor service fails to open rejects
    [$tryShowTextDocument] with the error of [openEditor], after the request
    was made; so does [$tryShowEditor] for an editor on such a resource, and
    [$tryHideEditor] when closing the pane fails. *)
Example show_hide_rejections :
  let gone :=
    {| te_getId := "gone"; te_getCodeEditor := Some 2%nat;
       te_getModel := {| tm_uri := "file:///gone.ts"; tm_versionId := 1; tm_editLog := [] |};
       te_selections := []; te_decorations := ∅; te_revealed := None;
       te_configuration := [] |} in
  let h := store "gone" gone host in
  (tryShowTextDocument "file:///gone.ts"
     {| show_position := None; show_preserveFocus := None; show_pinned := None;
        show_selection := None |} host).1
  = Promise_reject (new_Error "Unable to open")
  ∧ (tryShowEditor "gone" None h).1 = Promise_reject (new_Error "Unable to open")
  ∧ length (editorRequests (tryShowEditor "gone" None h).2) = 1%nat
  ∧ (tryHideEditor "gone" h).1 = Promise_reject (new_Error "Unable to close")
  ∧ editorRequests (tryHideEditor "gone" h).2 = [closeEditor 20 "b.ts"]
  ∧ tryShowEditor "e1" None host
    = (Promise_resolve (),
       set_editorRequests
         (fun _ => [openEditor "file:///a.ts"
                      {| preserveFocus := Some false; pinned := None; selection := None;
                         activation := None; override := None |} 0]) host).
Proof. vm_compute. done. Qed.

(** Setting the selections of [e1] makes the editor fire
    [onPropertiesChanged], and the callback that [handleTextEditorAdded] put
    on it forwards what it reports; the subscriptions stay as they are. *)
Lemma commands_leave_subscriptions_witness :
  let selections := [{| selectionStartLineNumber := 1; selectionStartColumn := 1;
                        positionLineNumber := 1; positionColumn := 4 |}] in
  let w := call (TrySetSelections "e1" selections) withE1.1 withE1.2 in
  awaitsEditorService (TrySetSelections "e1" selections) = false
  ∧ listeners w.2 = listeners withE1.2
  ∧ _proxy w.1
    = _proxy withE1.1
      ++ [acceptEditorPropertiesChanged "e1"
            {| pc_options := None; pc_selections := Some selections;
               pc_visibleRanges := None |}].
Proof.
  intros selections w.
  assert (H1 : awaitsEditorService (TrySetSelections "e1" selections) = false) by reflexivity.
  destruct (commands_leave_subscriptions (TrySetSelections "e1" selections) withE1.1 withE1.2 H1)
    as (Hl & _ & _ & _ & _ & Hp & _).
  split; [exact H1|]. split; [exact Hl|].
  etrans; [exact Hp|]. vm_compute; reflexivity.
Defined.

(** A bridge without a callback on [e1] sends nothing. *)
Example setSelections_without_callback :
  _proxy (call (TrySetSelections "e1" []) fresh.1 fresh.2).1 = _proxy fresh.1.
Proof. vm_compute; reflexivity. Qed.

Lemma register_remove_roundtrip_witness :
  _registeredDecorationTypes fresh.1 !! namespaced fresh.1 "k" = None
  ∧ decorationTypes host !! namespaced fresh.1 "k" = None
  ∧ removeTextEditorDecorationType "k"
      (registerTextEditorDecorationType "ext" "k"
         {| dro_backgroundColor := None; dro_isWholeLine := false |} fresh.1 host).1
      (registerTextEditorDecorationType "ext" "k"
         {| dro_backgroundColor := None; dro_isWholeLine := false |} fresh.1 host).2
    = (fresh.1, host).
Proof.
  assert (H1 : _registeredDecorationTypes fresh.1 !! namespaced fresh.1 "k" = None)
    by (vm_compute; reflexivity).
  assert (H2 : decorationTypes host !! namespaced fresh.1 "k" = None)
    by (vm_compute; reflexivity).
  exact (conj H1 (conj H2
           (proj1 (register_remove_roundtrip "ext" "ext" "k"
                     {| dro_backgroundColor := None; dro_isWholeLine := false |}
                     {| dro_backgroundColor := None; dro_isWholeLine := false |}
                     fresh.1 host H1 H2)))).
Defined.

(** Two bridges on the sample host, each with a decoration type under ["k"];
    the first one is disposed. *)
Lemma dispose_spares_other_bridges_witness :
  let options := {| dro_backgroundColor := None; dro_isWholeLine := false |} in
  let ops := [Call (RegisterTextEditorDecorationType "ext" "k" options)] in
  let this := (run ops (constructor host)).1 in
  let this' := (constructor fresh.2).1 in
  let h := (registerTextEditorDecorationType "ext" "k" options this'
              (run ops (constructor host)).2).2 in
  INSTANCE_COUNT host ≠ INSTANCE_COUNT fresh.2
  ∧ decorationTypes h !! namespaced this "k" = Some ("exthost-api-ext", options)
  ∧ decorationTypes (dispose this h).2 !! namespaced this "k" = None
  ∧ decorationTypes (dispose this h).2 !! namespaced this' "k"
    = Some ("exthost-api-ext", options).
Proof.
  intros options ops this this' h.
  assert (H1 : INSTANCE_COUNT host ≠ INSTANCE_COUNT fresh.2) by (vm_compute; discriminate).
  split; [exact H1|]. split; [vm_compute; reflexivity|]. split; [vm_compute; reflexivity|].
  etrans; [exact (dispose_spares_other_bridges ops host fresh.2 h this' "k" eq_refl H1)|].
  vm_compute; reflexivity.
Defined.

Lemma decorations_set_under_registered_key_witness :
  getEditor (env host) !! "e1" = Some e1
  ∧ ∃ editor' k,
      getEditor (env (trySetDecorations "e1" "k" []
                        (registerTextEditorDecorationType "ext" "k"
                           {| dro_backgroundColor := None; dro_isWholeLine := false |}
                           fresh.1 host).1
                        (registerTextEditorDecorationType "ext" "k"
                           {| dro_backgroundColor := None; dro_isWholeLine := false |}
                           fresh.1 host).2).2) !! "e1" = Some editor'
      ∧ te_decorations editor' !! k = Some (DecorationOptions []).
Proof.
  assert (H1 : getEditor (env host) !! "e1" = Some e1) by (vm_compute; reflexivity).
  split; [exact H1|].
  destruct (decorations_set_under_registered_key "ext" "k" "e1"
              {| dro_backgroundColor := None; dro_isWholeLine := false |} [] e1 fresh.1 host H1)
    as (editor' & k & He & Hd & _).
  by exists editor', k.
Defined.

(** [e2] added to, and removed from, the bridge that already has [e1]. *)
Lemma add_remove_roundtrip_witness :
  _textEditorsListenersMap withE1.1 !! te_getId e2 = None
  ∧ disposablesIssued withE1.2
  ∧ listeners (handleTextEditorRemoved (te_getId e2)
                 (handleTextEditorAdded e2 withE1.1 withE1.2).1
                 (handleTextEditorAdded e2 withE1.1 withE1.2).2).2
    = listeners withE1.2.
Proof.
  assert (H1 : _textEditorsListenersMap withE1.1 !! te_getId e2 = None)
    by (vm_compute; reflexivity).
  assert (H2 : disposablesIssued withE1.2).
  { unfold disposablesIssued. vm_compute. repeat constructor. }
  exact (conj H1 (conj H2 (proj1 (add_remove_roundtrip e2 withE1.1 withE1.2 H1 H2)))).
Defined.

(** [e1] added, removed and added again on a fresh bridge. *)
Lemma bundles_stay_complete_witness :
  let ops := [HandleTextEditorAdded e1; HandleTextEditorRemoved "e1"; HandleTextEditorAdded e1] in
  Forall (fun s => sub_owner s ≠ pretty (INSTANCE_COUNT host + 1)%N) (listeners host)
  ∧ respectsBundles ops (constructor host) = true
  ∧ bundlesComplete (run ops (constructor host)).1 (run ops (constructor host)).2 = true.
Proof.
  intros ops.
  assert (H1 : Forall (fun s => sub_owner s ≠ pretty (INSTANCE_COUNT host + 1)%N)
                      (listeners host)) by constructor.
  assert (H2 : respectsBundles ops (constructor host) = true) by (vm_compute; reflexivity).
  exact (conj H1 (conj H2 (proj1 (bundles_stay_complete ops host H1 H2)))).
Defined.

Lemma nothing_sent_after_dispose_witness :
  let ops := [HandleTextEditorAdded e1; HandleTextEditorRemoved "e1"; HandleTextEditorAdded e1] in
  let steps := [Fired VisibleEditorsChanged; Changed (workbench 7 None []);
                Fired (PropertiesChanged "e1" properties); Fired DiffInformationInvalidated] in
  let w := run ops (constructor host) in
  Forall (fun s => sub_owner s ≠ pretty (INSTANCE_COUNT host + 1)%N) (listeners host)
  ∧ respectsBundles ops (constructor host) = true
  ∧ (run (Workbench <$> steps) ((dispose w.1 w.2).1, (dispose w.1 w.2).2)).1
    = (dispose w.1 w.2).1.
Proof.
  intros ops steps w.
  assert (H1 : Forall (fun s => sub_owner s ≠ pretty (INSTANCE_COUNT host + 1)%N)
                      (listeners host)) by constructor.
  assert (H2 : respectsBundles ops (constructor host) = true) by (vm_compute; reflexivity).
  exact (conj H1 (conj H2 (proj1 (proj2 (nothing_sent_after_dispose ops steps host H1 H2))))).
Defined.


(** The command with three dirty working copies of which the second fails to
    revert: the third is not reverted. *)
Example revertAllDirty_stops_at_failure :
  revertAllDirty (Some "file:///tests")
    [SampleCopies.clean "a"; SampleCopies.failing "b"; SampleCopies.clean "c"] []
  = (Promise_reject (new_Error "revert failed"),
     [revert "a" {| soft := true |}; revert "b" {| soft := true |}]).
Proof. reflexivity. Qed.

End sample_more.
